(** * The database manager of [main.c]: a shallow embedding and its properties

    The program is a line-driven console over a file of 16-byte records,
    with two roles.  It is modelled as a state-and-outcome monad over a
    [World] holding the global [uid], the record file behind the
    descriptor [db] with its offset, the secret file, the console
    streams and the heap.

    Conventions of the model:
    - memory follows the C object model: [malloc] returns a block that
      no earlier pointer names; [free] of a block that is not live, any
      access to a released block, and a string function applied to a
      block without terminator are undefined behaviour and end the run
      with a [Fault]; [exit] ends it with [Exit];
    - bytes that C leaves indeterminate (a fresh block, a fresh local
      array) are given by the environment ([junk], [stack_junk]);
    - what a [write] persists is given by the environment ([wr]); the
      other calls on the regular file ([lseek], [read], [ftruncate])
      succeed, and so does [malloc];
    - the handlers run only after [main] opened the record file, so [db]
      is that descriptor throughout;
    - [int] and [unsigned char] values are integers with their
      wrap-around written out ([to_int], [to_uchar]);
    - the endless loop of [main] is cut after a given number of
      iterations. *)

From Stdlib Require Import ZArith Lia List Strings.Byte Strings.String.
From stdpp Require Import base list.

Import ListNotations.
Open Scope Z_scope.

(** ** Bytes and C strings *)

#[global] Instance byte_eq_dec : EqDecision byte := Byte.byte_eq_dec.

Definition SIZE : nat := 16.

Definition NUL : byte := x00.
Definition LF : byte := x0a.
Definition CR : byte := x0d.

Definition byte_val (b : byte) : Z := Z.of_N (Byte.to_N b).

(** Conversion to [unsigned char]: the value modulo 256. *)
Definition to_uchar (z : Z) : byte :=
  match Byte.of_N (Z.to_N (z mod 256)) with
  | Some b => b
  | None => x00
  end.

(** Conversion to [int] (32 bits, two's complement). *)
Definition to_int (z : Z) : Z := (z + 2 ^ 31) mod 2 ^ 32 - 2 ^ 31.

Definition bytes_of (s : string) : list byte := list_byte_of_string s.

(** [isspace] in the C locale. *)
Definition isspace (b : byte) : bool :=
  bool_decide (b ∈ [x20; x09; x0a; x0b; x0c; x0d]).

Definition isdigit (b : byte) : bool :=
  (48 <=? byte_val b) && (byte_val b <=? 57).

Fixpoint take_while {A} (p : A -> bool) (l : list A) : list A :=
  match l with
  | x :: t => if p x then x :: take_while p t else []
  | [] => []
  end.

Fixpoint drop_while {A} (p : A -> bool) (l : list A) : list A :=
  match l with
  | x :: t => if p x then drop_while p t else l
  | [] => []
  end.

Definition notb {A} (p : A -> bool) (x : A) : bool := negb (p x).

(** The string a pointer into [mem] designates: the bytes before the
    first NUL, or nothing when the object holds no NUL. *)
Fixpoint cstr (mem : list byte) : option (list byte) :=
  match mem with
  | [] => None
  | b :: t => if decide (b = NUL) then Some []
              else match cstr t with
                   | Some s => Some (b :: s)
                   | None => None
                   end
  end.

(** ** The libc functions the program calls, on strings *)

(** [strtol] in base 10 on the digits, saturating at the range of
    [long]; [atoi] converts its result to [int]. *)
Fixpoint digits_val (acc : Z) (s : list byte) : Z :=
  match s with
  | b :: t => if isdigit b then digits_val (acc * 10 + (byte_val b - 48)) t
              else acc
  | [] => acc
  end.

Definition clamp_long (z : Z) : Z := Z.max (- 2 ^ 63) (Z.min z (2 ^ 63 - 1)).

Definition strtol (s : list byte) : Z :=
  match drop_while isspace s with
  | b :: t =>
      if decide (b = "-"%byte) then clamp_long (- digits_val 0 t)
      else if decide (b = "+"%byte) then clamp_long (digits_val 0 t)
      else clamp_long (digits_val 0 (b :: t))
  | [] => 0
  end.

Definition atoi (s : list byte) : Z := to_int (strtol s).

(** [sscanf(s, "%*s %s", out) == 1], with the token stored in [out]:
    a first blank-delimited token is skipped, the second is kept. *)
Definition sscanf_skip_s (s : list byte) : option (list byte) :=
  match drop_while isspace s with
  | [] => None
  | s1 =>
      match drop_while isspace (drop_while (notb isspace) s1) with
      | [] => None
      | s2 => Some (take_while (notb isspace) s2)
      end
  end.

(** [strncmp(a, b, n) == 0] on the memory the two pointers designate; a
    byte past the modelled object reads as NUL. *)
Fixpoint strncmp_eq (n : nat) (a b : list byte) : bool :=
  match n with
  | O => true
  | S n' =>
      if decide (hd NUL a = hd NUL b)
      then if decide (hd NUL a = NUL) then true
           else strncmp_eq n' (tl a) (tl b)
      else false
  end.

(** The macro [streq]. *)
Definition streq (a b : list byte) : bool := strncmp_eq SIZE a b.

(** [strcspn(s, "\r\n")]. *)
Definition strcspn_crlf (s : list byte) : nat :=
  length (take_while (fun b => negb (bool_decide (b ∈ [CR; LF]))) s).

(** [strncpy(dst, src, n)]: the [n] bytes written to [dst]. *)
Definition strncpy (n : nat) (src : list byte) : list byte :=
  take n (src ++ repeat NUL n).

(** The characters one [fgets] with room for [n] of them takes from the
    stream, and what remains of the stream. *)
Fixpoint fgets_chars (n : nat) (input : list byte) : list byte * list byte :=
  match n, input with
  | S n', c :: rest =>
      if decide (c = LF) then ([c], rest)
      else let '(l, r) := fgets_chars n' rest in (c :: l, r)
  | _, _ => ([], input)
  end.

(** Overwriting [mem] from offset [off] with [data]. *)
Definition overlay (mem : list byte) (off : nat) (data : list byte) : list byte :=
  take off mem ++ data ++ drop (off + length data) mem.

(** ** The world *)

Definition ADMIN_UID : Z := 0.
Definition USER_UID : Z := 1.

(** A block is named by its rank among the allocations. *)
Abbreviation block := nat (only parsing).

Record cell := Cell { c_live : bool; c_bytes : list byte }.

(** What the program prints: one entry per [puts] or [printf] call, with
    the arguments of the formatted ones. *)
Inductive out :=
| Puts (s : string)
| Printf (s : string)
| LoggedIn (name : string)
| EntryAdded (id : byte) (name : list byte)
| Row (id : byte) (name : list byte)
| Found (count : Z) (suffix : string).

Record World := mkWorld {
  uid : Z;                        (* static int uid *)
  db_file : list byte;            (* contents of database.db *)
  db_pos : nat;                   (* file offset of the descriptor db *)
  db_openable : bool;             (* whether open("database.db") succeeds *)
  pw_file : option (list byte);   (* password.txt, None when it cannot be opened *)
  wr : list (option nat);         (* what the next write() calls persist *)
  stdin : list byte;
  stdout : list out;
  heap : list cell;               (* block n is the n-th allocation *)
  frees : list block;             (* the free() calls so far *)
  junk : block -> nat -> byte;    (* indeterminate contents of fresh blocks *)
  stack_junk : nat -> byte        (* indeterminate contents of a fresh local array *)
}.

Definition set_uid (v : Z) (w : World) : World :=
  mkWorld v (db_file w) (db_pos w) (db_openable w) (pw_file w) (wr w)
          (stdin w) (stdout w) (heap w) (frees w) (junk w) (stack_junk w).
Definition set_db (f : list byte) (p : nat) (w : World) : World :=
  mkWorld (uid w) f p (db_openable w) (pw_file w) (wr w)
          (stdin w) (stdout w) (heap w) (frees w) (junk w) (stack_junk w).
Definition set_wr (s : list (option nat)) (w : World) : World :=
  mkWorld (uid w) (db_file w) (db_pos w) (db_openable w) (pw_file w) s
          (stdin w) (stdout w) (heap w) (frees w) (junk w) (stack_junk w).
Definition set_stdin (i : list byte) (w : World) : World :=
  mkWorld (uid w) (db_file w) (db_pos w) (db_openable w) (pw_file w) (wr w)
          i (stdout w) (heap w) (frees w) (junk w) (stack_junk w).
Definition set_stdout (o : list out) (w : World) : World :=
  mkWorld (uid w) (db_file w) (db_pos w) (db_openable w) (pw_file w) (wr w)
          (stdin w) o (heap w) (frees w) (junk w) (stack_junk w).
Definition set_heap (h : list cell) (w : World) : World :=
  mkWorld (uid w) (db_file w) (db_pos w) (db_openable w) (pw_file w) (wr w)
          (stdin w) (stdout w) h (frees w) (junk w) (stack_junk w).
Definition set_frees (l : list block) (w : World) : World :=
  mkWorld (uid w) (db_file w) (db_pos w) (db_openable w) (pw_file w) (wr w)
          (stdin w) (stdout w) (heap w) l (junk w) (stack_junk w).

(** ** Outcomes and the monad *)

Inductive fault :=
| DoubleFree (b : block)
| UseAfterFree (b : block)
| OutOfBounds (b : block)
| BadPointer (b : block).

Inductive result (A : Type) :=
| Ret (a : A) (w : World)
| Exit (code : Z) (w : World)
| Fault (f : fault) (w : World).
Arguments Ret {A} a w.
Arguments Exit {A} code w.
Arguments Fault {A} f w.

Definition M (A : Type) : Type := World -> result A.

Definition ret {A} (a : A) : M A := fun w => Ret a w.

Definition bind {A B} (m : M A) (k : A -> M B) : M B :=
  fun w => match m w with
           | Ret a w' => k a w'
           | Exit c w' => Exit c w'
           | Fault f w' => Fault f w'
           end.

Declare Scope prog_scope.
Delimit Scope prog_scope with prog.
Notation "x <- m ;; k" := (bind m (fun x => k))
  (at level 100, m at next level, right associativity) : prog_scope.
Notation "m ;; k" := (bind m (fun _ => k))
  (at level 100, right associativity) : prog_scope.
Open Scope prog_scope.

Definition exit {A} (code : Z) : M A := fun w => Exit code w.
Definition fail {A} (f : fault) : M A := fun w => Fault f w.

(** The world an outcome carries. *)
Definition world_of {A} (r : result A) : World :=
  match r with Ret _ w | Exit _ w | Fault _ w => w end.

(** ** Heap *)

(** [malloc(n)]: a new block of [n] indeterminate bytes.  The program
    never tests the result, and the model has no allocation failure. *)
Definition malloc (n : nat) : M block := fun w =>
  let b := length (heap w) in
  Ret b (set_heap (heap w ++ [Cell true (map (junk w b) (seq 0 n))]) w).

(** [free(p)]: every call is logged; only a live block may be released. *)
Definition free (b : block) : M unit := fun w =>
  let w1 := set_frees (frees w ++ [b]) w in
  match heap w !! b with
  | Some (Cell true bs) => Ret tt (set_heap (<[b := Cell false bs]> (heap w)) w1)
  | Some (Cell false _) => Fault (DoubleFree b) w1
  | None => Fault (BadPointer b) w1
  end.

Definition load (b : block) : M (list byte) := fun w =>
  match heap w !! b with
  | Some (Cell true bs) => Ret bs w
  | Some (Cell false _) => Fault (UseAfterFree b) w
  | None => Fault (BadPointer b) w
  end.

Definition store (b : block) (off : nat) (data : list byte) : M unit :=
  bs <- load b;;
  if decide (off + length data <= length bs)%nat
  then fun w => Ret tt (set_heap (<[b := Cell true (overlay bs off data)]> (heap w)) w)
  else fail (OutOfBounds b).

(** Reading the string at offset [off] of a block, as the string
    functions of libc do: the block must hold its terminator. *)
Definition load_cstr (b : block) (off : nat) : M (list byte) :=
  bs <- load b;;
  match cstr (drop off bs) with
  | Some s => ret s
  | None => fail (OutOfBounds b)
  end.

(** ** Console *)

Definition print (o : out) : M unit := fun w =>
  Ret tt (set_stdout (stdout w ++ [o]) w).

Definition puts (s : string) : M unit := print (Puts s).
Definition printf (s : string) : M unit := print (Printf s).

(** [fgets(p, SIZE, stdin)] into a heap block; at end of input nothing
    is stored. *)
Definition fgets (b : block) : M unit := fun w =>
  match fgets_chars (SIZE - 1) (stdin w) with
  | ([], _) => Ret tt w
  | (chars, rest) => store b 0 (chars ++ [NUL]) (set_stdin rest w)
  end.

(** [fgets(buf, SIZE, stdin)] into a local array holding [buf]. *)
Definition fgets_local (buf : list byte) : M (list byte) := fun w =>
  match fgets_chars (SIZE - 1) (stdin w) with
  | ([], _) => Ret buf w
  | (chars, rest) => Ret (overlay buf 0 (chars ++ [NUL])) (set_stdin rest w)
  end.

(** ** The record file behind [db] *)

Definition lseek_end : M Z := fun w =>
  Ret (Z.of_nat (length (db_file w)))
      (set_db (db_file w) (length (db_file w)) w).

Definition lseek_start : M unit := fun w =>
  Ret tt (set_db (db_file w) 0 w).

(** [write(db, data, n)] at the file offset.  The head of [wr] says what
    the system persists of it: [None] an error, [Some k] at most [k]
    bytes; with no entry left the write is complete. *)
Definition write_at (f : list byte) (pos : nat) (d : list byte) : list byte :=
  take pos (f ++ repeat NUL (pos - length f)) ++ d ++ drop (pos + length d) f.

Definition write_db (data : list byte) : M Z := fun w =>
  match wr w with
  | None :: s => Ret (-1) (set_wr s w)
  | Some k :: s =>
      let d := take k data in
      Ret (Z.of_nat (length d))
          (set_wr s (set_db (write_at (db_file w) (db_pos w) d)
                            (db_pos w + length d) w))
  | [] =>
      Ret (Z.of_nat (length data))
          (set_db (write_at (db_file w) (db_pos w) data)
                  (db_pos w + length data) w)
  end.

(** [read(db, p, n)]: the bytes obtained, at most [n]. *)
Definition read_db (n : nat) : M (list byte) := fun w =>
  let d := take n (drop (db_pos w) (db_file w)) in
  Ret d (set_db (db_file w) (db_pos w + length d) w).

(** [ftruncate(db, 0)]; the file offset stays. *)
Definition ftruncate0 : M unit := fun w =>
  Ret tt (set_db [] (db_pos w) w).

Definition get_uid : M Z := fun w => Ret (uid w) w.
Definition put_uid (v : Z) : M unit := fun w => Ret tt (set_uid v w).

(** The macro [IS_ADMIN]. *)
Definition IS_ADMIN : M bool := u <- get_uid;; ret (u =? ADMIN_UID).

(** ** The program *)

(** Fields of [DBEntry] in its 16 bytes: [id] at offset 0, [name] in the
    15 bytes from offset 1. *)
Definition sizeof_DBEntry : nat := 16.

Definition insert_into_db (line : block) : M unit :=
  s <- load_cstr line 0;;
  match sscanf_skip_s s with
  | None => puts "Invalid entry."
  | Some name =>
      entry <- malloc sizeof_DBEntry;;
      len <- lseek_end;;
      store entry 0 [to_uchar (len / Z.of_nat sizeof_DBEntry)];;
      store entry 1 (strncpy (SIZE - 1) name);;
      data <- load entry;;
      n <- write_db data;;
      (if n =? Z.of_nat sizeof_DBEntry
       then nm <- load_cstr entry 1;;
            print (EntryAdded (hd NUL data) nm)
       else puts "Error writing to database.");;
      free entry
  end.

Definition drop_db : M unit :=
  printf "Are you sure you want to wipe the database? (y/N): ";;
  junk0 <- (fun w => Ret (map (stack_junk w) (seq 0 SIZE)) w);;
  buf <- fgets_local junk0;;
  if decide (hd NUL buf = "y"%byte)
  then puts "Wiping database...";;
       ftruncate0;;
       puts "Database wiped!"
  else puts "Aborted.".

(** The loop of [select_from_db]: [n] records remain to be read. *)
Fixpoint scan (n : nat) (entry : block) (match_all : bool) (query : list byte)
    (count : Z) : M Z :=
  match n with
  | O => ret count
  | S n' =>
      d <- read_db sizeof_DBEntry;;
      store entry 0 d;;
      e <- load entry;;
      if match_all || streq (drop 1 e) query
      then nm <- load_cstr entry 1;;
           print (Row (hd NUL e) nm);;
           scan n' entry match_all query (to_int (count + 1))
      else scan n' entry match_all query count
  end.

Definition select_from_db (line : block) : M unit :=
  entry <- malloc sizeof_DBEntry;;
  s <- load_cstr line 0;;
  match sscanf_skip_s s with
  | None =>
      puts "Invalid query.";;
      free line;;
      free entry
  | Some query =>
      let match_all := streq query (bytes_of "*") in
      len <- lseek_end;;
      let num_entries := to_int (len / Z.of_nat sizeof_DBEntry) in
      lseek_start;;
      puts " id | name";;
      puts "----+----------------";;
      count <- scan (Z.to_nat num_entries) entry match_all query 0;;
      print (Found count (if count =? 1 then "y" else "ies"));;
      free entry
  end.

Definition change_user (line : block) : M unit :=
  username <- malloc SIZE;;
  s <- load_cstr line 0;;
  match sscanf_skip_s s with
  | None =>
      puts "Invalid username.";;
      free username
  | Some tok =>
      store username 0 (tok ++ [NUL]);;
      u <- load username;;
      if streq u (bytes_of "user") then
        put_uid USER_UID;;
        puts "Switched to user.";;
        free username
      else if negb (streq u (bytes_of "admin")) then
        puts "Invalid username.";;
        free username
      else
        password <- malloc SIZE;;
        fd <- (fun w => Ret (pw_file w) w);;
        match fd with
        | None =>
            puts "Error opening file";;
            exit 1
        | Some secret =>
            store password 0 (take SIZE secret);;
            printf "Enter password: ";;
            fgets line;;
            printf "\033[A\33[2K\r";;
            typed <- load_cstr line 0;;
            store line (strcspn_crlf typed) [NUL];;
            l <- load line;;
            p <- load password;;
            (if streq l p
             then put_uid ADMIN_UID;;
                  puts "Switched to admin."
             else puts "Incorrect password!");;
            store password 0 (repeat NUL SIZE);;
            store line 0 (repeat NUL SIZE);;
            free password;;
            free username
        end
  end.

Definition print_info : M unit :=
  a <- IS_ADMIN;;
  print (LoggedIn (if a then "admin" else "user"));;
  puts "1) Quit\n2) Change <user>\n3) Query <something|*>";;
  (if a then puts "4) Insert <entry> into database\n5) Wipe database"
   else ret tt);;
  printf "Enter your choice: ".

(** The start of [handle_choice]: the buffer of this iteration and the
    selector read into it. *)
Definition read_choice : M (block * Z) :=
  line <- malloc SIZE;;
  fgets line;;
  s <- load_cstr line 0;;
  ret (line, atoi s).

Definition dispatch (line : block) (choice : Z) : M unit :=
  if choice =? 1 then
    puts "Goodbye!";;
    exit 0
  else if choice =? 2 then change_user line
  else if choice =? 3 then select_from_db line
  else if choice =? 4 then
    a <- IS_ADMIN;; if a then insert_into_db line else ret tt
  else if choice =? 5 then
    a <- IS_ADMIN;; if a then drop_db else ret tt
  else ret tt.

Definition handle_choice : M unit :=
  p <- read_choice;;
  let '(line, choice) := p in
  dispatch line choice;;
  free line.

(** The [while (true)] of [main], cut after [n] iterations. *)
Fixpoint main_loop (n : nat) : M unit :=
  match n with
  | O => ret tt
  | S n' =>
      print_info;;
      handle_choice;;
      main_loop n'
  end.

Definition main (n : nat) : M unit := fun w =>
  if db_openable w
  then (puts "Welcome to database manager!";; main_loop n) w
  else (puts "Error opening database.";; exit 1) w.

(** The state the process starts from: [uid == USER_UID], nothing
    allocated, nothing printed. *)
Definition boot (file : list byte) (openable : bool)
    (secret : option (list byte)) (script : list (option nat))
    (input : list byte) (j : block -> nat -> byte) (sj : nat -> byte) : World :=
  mkWorld USER_UID file 0 openable secret script input [] [] [] j sj.

(** * Vocabulary of the statements *)

(** ** Predicates on computations *)

(** [keeps R m]: every outcome of [m] is in relation [R] with the state
    it started from. *)
Definition keeps (R : World -> World -> Prop) {A} (m : M A) : Prop :=
  forall w, R w (world_of (m w)).

(** [m] never calls [exit]. *)
Definition never_exits {A} (m : M A) : Prop :=
  forall w c w', m w <> Exit c w'.

(** What a computation guarantees about the states it returns in. *)
Definition returns {A} (P : World -> Prop) (m : M A) (Q : A -> World -> Prop) : Prop :=
  forall w, P w -> forall a w', m w = Ret a w' -> Q a w'.

(** The record file and the role are as before. *)
Definition same_store_and_role (w w' : World) : Prop :=
  db_file w' = db_file w /\ uid w' = uid w.

(** What the environment offers does not change during a run. *)
Definition same_environment (w w' : World) : Prop :=
  pw_file w' = pw_file w /\ db_openable w' = db_openable w.

(** The block [line] is live and was released [c] times so far. *)
Definition held (line c : nat) (w : World) : Prop :=
  (exists bs, heap w !! line = Some (Cell true bs)) /\
  count_occ Nat.eq_dec (frees w) line = c.

(** The block [line] has been released. *)
Definition gone (line : nat) (w : World) : Prop :=
  exists bs, heap w !! line = Some (Cell false bs).

Definition keeps_held (line c : nat) {A} (m : M A) : Prop :=
  returns (held line c) m (fun _ => held line c).

(** ** Texts in buffers *)

Definition not_nul (b : byte) : bool := negb (bool_decide (b = NUL)).

Definition not_crlf (b : byte) : bool := negb (bool_decide (b ∈ [CR; LF])).

(** The text a bounded comparison sees at a pointer: the bytes before the
    first NUL among the first [n]. *)
Definition cstrn (n : nat) (mem : list byte) : list byte :=
  take_while not_nul (take n mem).

(** The string of a line as [fgets] stored it. *)
Definition typed (chars : list byte) : list byte := take_while not_nul chars.

(** A [SIZE]-byte buffer after an [fgets] that obtained [chars]. *)
Definition after_fgets (bs chars : list byte) : list byte :=
  match chars with
  | [] => bs
  | _ => overlay bs 0 (chars ++ [NUL])
  end.

(** The text in the buffer once the prompt was answered:
    [line[strcspn(line, "\r\n")] = 0] cuts it at the first CR or LF. *)
Definition stripped (mem : list byte) : list byte :=
  take_while not_crlf (default [] (cstr mem)).

(** The contents of block [b] as [malloc] hands it out. *)
Definition fresh (w : World) (b : block) : list byte :=
  map (junk w b) (seq 0 SIZE).

(** The buffer of an iteration once [fgets] stored [chars] in it. *)
Definition line_buffer (w : World) (chars : list byte) : list byte :=
  overlay (map (junk w (length (heap w))) (seq 0 SIZE)) 0 (chars ++ [NUL]).

(** The [username] array once [sscanf] stored the token. *)
Definition username_bytes (w : World) (tok : list byte) : list byte :=
  overlay (fresh w (length (heap w))) 0 (tok ++ [NUL]).

(** The [password] array once [read] filled it from the file. *)
Definition password_bytes (w : World) (secret : list byte) : list byte :=
  overlay (fresh w (S (length (heap w)))) 0 (take SIZE secret).

(** The secret as the comparison reads it from that array. *)
Definition reference_secret (w : World) (secret : list byte) : list byte :=
  cstrn SIZE (password_bytes w secret).

(** The secret as typed: the buffer after the prompt's [fgets], cut at
    the first CR or LF. *)
Definition typed_secret (bs : list byte) (input : list byte) : list byte :=
  stripped (after_fgets bs (fst (fgets_chars (SIZE - 1) input))).

(** ** Console lines and output *)

(** A line as the console delivers it: fewer than [SIZE - 1] characters
    and the newline that ends it. *)
Definition is_line (l : list byte) : Prop :=
  exists body, l = body ++ [LF] /\ (LF ∉ body) /\ (length body < SIZE - 1)%nat.

(** What the dispatcher and the handlers parse from a line. *)
Definition selector (l : list byte) : Z := atoi (typed l).

Definition argument (l : list byte) : option (list byte) :=
  sscanf_skip_s (typed l).

Definition name_of (l : list byte) : list byte := default [] (argument l).

(** A console line that selects insert and carries an entry name. *)
Definition insert_line (l : list byte) : Prop :=
  is_line l /\ selector l = 4 /\ is_Some (argument l).

(** A console line that selects query and carries [q]. *)
Definition query_line (q : list byte) (l : list byte) : Prop :=
  is_line l /\ selector l = 3 /\ argument l = Some q.

(** What [print_info] prints. *)
Definition menu (admin : bool) : list out :=
  [LoggedIn (if admin then "admin" else "user");
   Puts "1) Quit\n2) Change <user>\n3) Query <something|*>"] ++
  (if admin then [Puts "4) Insert <entry> into database\n5) Wipe database"]
   else []) ++
  [Printf "Enter your choice: "].

(** The [Entry added] reports and the table rows among what was printed. *)
Definition added (o : list out) : list (byte * list byte) :=
  omap (fun e => match e with EntryAdded i n => Some (i, n) | _ => None end) o.

Definition rows (o : list out) : list (byte * list byte) :=
  omap (fun e => match e with Row i n => Some (i, n) | _ => None end) o.

(** The head of the table and the summary [select_from_db] prints. *)
Definition table_head : list out :=
  [Puts " id | name"; Puts "----+----------------"].

Definition found_line (n : Z) : out :=
  Found n (if n =? 1 then "y" else "ies").

(** ** Records of the store *)

(** The 16 bytes [insert_into_db] writes for [name] at file length [len]. *)
Definition record_of (len : nat) (name : list byte) : list byte :=
  to_uchar (Z.of_nat len / Z.of_nat sizeof_DBEntry) :: strncpy (SIZE - 1) name.

(** The next call of [write] persists all 16 bytes. *)
Definition writes_fully (script : list (option nat)) : bool :=
  match script with
  | [] => true
  | Some k :: _ => (sizeof_DBEntry <=? k)%nat
  | None :: _ => false
  end.

(** The next [n] calls of [write] persist all 16 bytes. *)
Fixpoint all_written (n : nat) (script : list (option nat)) : bool :=
  match n with
  | O => true
  | S n' => writes_fully script && all_written n' (tl script)
  end.

(** Ids and names reported when [lines] are inserted into a store of [m]
    records, the bytes appended, and the records they form. *)
Fixpoint reports (m : nat) (lines : list (list byte)) : list (byte * list byte) :=
  match lines with
  | [] => []
  | l :: t => (to_uchar (Z.of_nat m), name_of l) :: reports (S m) t
  end.

Fixpoint appended (m : nat) (lines : list (list byte)) : list byte :=
  match lines with
  | [] => []
  | l :: t => record_of (16 * m) (name_of l) ++ appended (S m) t
  end.

Fixpoint stored (m : nat) (lines : list (list byte)) : list (list byte) :=
  match lines with
  | [] => []
  | l :: t => record_of (16 * m) (name_of l) :: stored (S m) t
  end.

(** The text of a stored name: the bytes of the name field before its
    first NUL. *)
Definition name_text (r : list byte) : list byte := cstrn SIZE (drop 1 r).

(** The test of the scan on a record [r], and the row printed for it. *)
Definition selected (match_all : bool) (query : list byte) (r : list byte) : bool :=
  match_all || streq (drop 1 r) query.

Definition row_of (r : list byte) : byte * list byte :=
  (hd NUL r, default [] (cstr (drop 1 r))).

Definition row_event (r : list byte) : out :=
  Row (hd NUL r) (default [] (cstr (drop 1 r))).

(** A record the scan can handle: 16 bytes, with a terminated name when
    it is to be printed. *)
Definition scannable (match_all : bool) (query : list byte) (r : list byte) : Prop :=
  length r = sizeof_DBEntry /\
  (selected match_all query r = true -> is_Some (cstr (drop 1 r))).

(** ** States and inputs of the closed examples *)

Definition one_record : list byte := record_of 0 (bytes_of "alpha").

(** A session of the administrator, and one of the user, with the secret
    [secret] on file and zeroed fresh memory. *)
Definition admin_world (file : list byte) (input : list byte) : World :=
  mkWorld ADMIN_UID file 0 true (Some (bytes_of "secret")) [] input [] [] []
          (fun _ _ => NUL) (fun _ => NUL).

Definition user_world (file : list byte) (input : list byte) : World :=
  boot file true (Some (bytes_of "secret")) [] input (fun _ _ => NUL) (fun _ => NUL).

Definition two_inserts : list (list byte) :=
  [bytes_of "4 alpha" ++ [LF]; bytes_of "4 beta" ++ [LF]].

Definition yes_then_query : list byte :=
  bytes_of "yes" ++ [LF] ++ bytes_of "3 *" ++ [LF].

(** A state at end of input in which the array [buf] of [drop_db] lies
    over bytes that start with [y]. *)
Definition silent_world : World :=
  mkWorld ADMIN_UID one_record 0 true None [] [] [] [] []
          (fun _ _ => NUL) (fun _ => "y"%byte).

(** A state in which the buffer holds the command [2 admin], about to be
    handled by [change_user]. *)
Definition admin_request : list byte :=
  bytes_of "2 admin" ++ [LF; NUL] ++ repeat NUL 7.

Definition at_prompt (secret : option (list byte)) (input : list byte) : World :=
  mkWorld USER_UID one_record 0 true secret [] input [] [Cell true admin_request] []
          (fun _ _ => NUL) (fun _ => NUL).

(** A user asking for [admin] and typing [typed_line], fresh memory
    holding the letter [x]. *)
Definition login_world (typed_line : string) : World :=
  boot one_record true (Some (bytes_of "secret")) []
       (bytes_of "2 admin" ++ [LF] ++ bytes_of typed_line ++ [LF])
       (fun _ _ => "x"%byte) (fun _ => NUL).

Definition quit_world : World :=
  boot [] true None [] (bytes_of "1" ++ [LF]) (fun _ _ => NUL) (fun _ => NUL).

Definition beta_round_trip : list byte :=
  (bytes_of "4 beta" ++ [LF]) ++ (bytes_of "3 beta" ++ [LF]) ++ [].

Definition twice_a : list byte :=
  bytes_of "4 a" ++ [LF] ++ bytes_of "4 a" ++ [LF] ++ bytes_of "3 a" ++ [LF].

Definition a_then_star : list byte :=
  bytes_of "4 a" ++ [LF] ++ bytes_of "4 *" ++ [LF] ++ bytes_of "3 *" ++ [LF].

Definition bare_query : list byte := bytes_of "3" ++ [LF].

(** ** Further vocabulary *)

(** How many of the 16 bytes of a record the next [write] persists. *)
Definition persisted (script : list (option nat)) : nat :=
  match script with
  | [] => sizeof_DBEntry
  | Some k :: _ => Nat.min k sizeof_DBEntry
  | None :: _ => 0
  end.

(** What [insert_into_db] prints after its [write]. *)
Definition insert_report (script : list (option nat)) (len : nat)
    (name : list byte) : out :=
  if (persisted script =? sizeof_DBEntry)%nat
  then EntryAdded (to_uchar (Z.of_nat len / Z.of_nat sizeof_DBEntry)) name
  else Puts "Error writing to database.".

(** The heap consists of the blocks [h0], as they were, followed by
    blocks of which [k] are not released. *)
Definition owned (h0 : list cell) (k : nat) (w : World) : Prop :=
  exists new, heap w = h0 ++ new /\ length (List.filter c_live new) = k.

(** A console line that selects wipe, and an answer that confirms it. *)
Definition wipe_line (l : list byte) : Prop := is_line l /\ selector l = 5.

Definition yes_line (l : list byte) : Prop :=
  is_line l /\ hd NUL l = "y"%byte.

(** A session at end of input: nothing left to read, fresh memory
    starting with a NUL. *)
Definition eof_world (file : list byte) : World :=
  boot file true (Some (bytes_of "secret")) [] [] (fun _ _ => NUL) (fun _ => NUL).

Definition wipe_then_insert : list byte :=
  (bytes_of "5" ++ [LF]) ++ (bytes_of "y" ++ [LF]) ++ (bytes_of "4 gamma" ++ [LF]) ++ [].

Definition two_records : list (list byte) :=
  [record_of 0 (bytes_of "alpha"); record_of 16 (bytes_of "beta")].

(** The administrator has typed [4 beta]; the system will persist only
    five bytes of the next [write]. *)
Definition short_write_world : World :=
  world_of (read_choice
    (mkWorld ADMIN_UID one_record 0 true None [Some 5%nat]
             (bytes_of "4 beta" ++ [LF]) [] [] [] (fun _ _ => NUL) (fun _ => NUL))).


(** 257 inserts: one more than there are ids. *)
Definition many_inserts : list (list byte) :=
  replicate 257 (bytes_of "4 a" ++ [LF]).

(** A user asking for [admin] and typing the secret, which the file
    holds with its line end. *)
Definition saved_with_newline : World :=
  boot one_record true (Some (bytes_of "secret" ++ [LF])) []
       (bytes_of "2 admin" ++ [LF] ++ bytes_of "secret" ++ [LF])
       (fun _ _ => NUL) (fun _ => NUL).

(** A first insert of which [write] persists five bytes, then an insert
    and the query for its name. *)
Definition after_short_write : World :=
  mkWorld ADMIN_UID [] 0 true None [Some 5%nat]
          (bytes_of "4 alpha" ++ [LF] ++ bytes_of "4 beta" ++ [LF] ++
           bytes_of "3 beta" ++ [LF])
          [] [] [] (fun _ _ => NUL) (fun _ => NUL).

(** [2^31] inserts, and the query [*] after them. *)
Definition full_inserts : list (list byte) :=
  replicate (Z.to_nat (2 ^ 31)) (bytes_of "4 a" ++ [LF]).

Definition full_session : World :=
  admin_world [] (concat full_inserts ++ (bytes_of "3 *" ++ [LF]) ++ []).

(** Relations between the state before and after a step. *)
Definition same_store (w w' : World) : Prop := db_file w' = db_file w.
Definition same_role (w w' : World) : Prop := uid w' = uid w.

(** * Properties *)

(** [assert(sizeof(DBEntry) == SIZE)] in [main] holds. *)
Lemma sizeof_DBEntry_SIZE : sizeof_DBEntry = SIZE.
Proof. reflexivity. Qed.

(** ** Reasoning about runs *)

Lemma bind_ret {A B} (m : M A) (k : A -> M B) w a w1 :
  m w = Ret a w1 -> bind m k w = k a w1.
Proof. unfold bind. intros ->. reflexivity. Qed.

Lemma bind_exit {A B} (m : M A) (k : A -> M B) w c w1 :
  m w = Exit c w1 -> bind m k w = Exit c w1.
Proof. unfold bind. intros ->. reflexivity. Qed.

(** Inversion of a bind that returned or exited. *)
Lemma bind_Ret_inv {A B} (m : M A) (k : A -> M B) w b w2 :
  bind m k w = Ret b w2 -> exists a w1, m w = Ret a w1 /\ k a w1 = Ret b w2.
Proof. unfold bind. destruct (m w); intros H; try discriminate. eauto. Qed.

Lemma bind_Exit_inv {A B} (m : M A) (k : A -> M B) w c w2 :
  bind m k w = Exit c w2 ->
  m w = Exit c w2 \/ exists a w1, m w = Ret a w1 /\ k a w1 = Exit c w2.
Proof.
  unfold bind. destruct (m w) eqn:E; intros H; try discriminate.
  - right. eauto.
  - left. injection H as -> ->. reflexivity.
Qed.

(** *** Frame conditions: a relation every step of a computation keeps *)

Section Frames.
Variable R : World -> World -> Prop.
Hypothesis R_refl : forall w, R w w.
Hypothesis R_trans : forall a b c, R a b -> R b c -> R a c.

Lemma keeps_ret {A} (a : A) : keeps R (ret a).
Proof. intros w. apply R_refl. Qed.

Lemma keeps_exit {A} c : keeps R (@exit A c).
Proof. intros w. apply R_refl. Qed.

Lemma keeps_fail {A} f : keeps R (@fail A f).
Proof. intros w. apply R_refl. Qed.

Lemma keeps_bind {A B} (m : M A) (k : A -> M B) :
  keeps R m -> (forall a, keeps R (k a)) -> keeps R (bind m k).
Proof.
  intros Hm Hk w. unfold bind. specialize (Hm w).
  destruct (m w) as [a w1|c w1|f w1]; simpl in *; auto.
  eapply R_trans; [exact Hm | apply Hk].
Qed.

Lemma keeps_if {A} (b : bool) (m1 m2 : M A) :
  keeps R m1 -> keeps R m2 -> keeps R (if b then m1 else m2).
Proof. destruct b; auto. Qed.

Lemma keeps_sumbool {A} {P Q : Prop} (b : {P} + {Q}) (m1 m2 : M A) :
  keeps R m1 -> keeps R m2 -> keeps R (if b then m1 else m2).
Proof. destruct b; auto. Qed.
End Frames.

(** *** Computations that never call [exit] *)

Lemma never_exits_bind {A B} (m : M A) (k : A -> M B) :
  never_exits m -> (forall a, never_exits (k a)) -> never_exits (bind m k).
Proof.
  intros Hm Hk w c w' H. apply bind_Exit_inv in H as [H|(a & w1 & _ & H)].
  - exact (Hm _ _ _ H).
  - exact (Hk _ _ _ _ H).
Qed.

Lemma never_exits_ret {A} (a : A) : never_exits (ret a).
Proof. intros w c w' H. discriminate. Qed.

Lemma never_exits_fail {A} f : never_exits (@fail A f).
Proof. intros w c w' H. discriminate. Qed.

Lemma never_exits_if {A} (b : bool) (m1 m2 : M A) :
  never_exits m1 -> never_exits m2 -> never_exits (if b then m1 else m2).
Proof. destruct b; auto. Qed.

Lemma never_exits_sumbool {A} {P Q : Prop} (b : {P} + {Q}) (m1 m2 : M A) :
  never_exits m1 -> never_exits m2 -> never_exits (if b then m1 else m2).
Proof. destruct b; auto. Qed.

Lemma never_exits_malloc n : never_exits (malloc n).
Proof. intros w c w' H. discriminate. Qed.

Lemma never_exits_free b : never_exits (free b).
Proof.
  intros w c w'. unfold free.
  destruct (heap w !! b) as [[[] ?]|]; discriminate.
Qed.

Lemma never_exits_load b : never_exits (load b).
Proof.
  intros w c w'. unfold load.
  destruct (heap w !! b) as [[[] ?]|]; discriminate.
Qed.

Lemma never_exits_store b off d : never_exits (store b off d).
Proof.
  unfold store. apply never_exits_bind; [apply never_exits_load|].
  intros bs. apply never_exits_sumbool.
  - intros w c w' H. discriminate.
  - apply never_exits_fail.
Qed.

Lemma never_exits_load_cstr b off : never_exits (load_cstr b off).
Proof.
  unfold load_cstr. apply never_exits_bind; [apply never_exits_load|].
  intros bs. destruct (cstr _); [apply never_exits_ret | apply never_exits_fail].
Qed.

Lemma never_exits_print o : never_exits (print o).
Proof. intros w c w' H. discriminate. Qed.

Lemma never_exits_fgets b : never_exits (fgets b).
Proof.
  intros w c w'. unfold fgets.
  destruct (fgets_chars _ _) as [[|x l] r]; [discriminate|].
  apply never_exits_store.
Qed.

Lemma never_exits_fgets_local buf : never_exits (fgets_local buf).
Proof.
  intros w c w'. unfold fgets_local.
  destruct (fgets_chars _ _) as [[|x l] r]; discriminate.
Qed.

Lemma never_exits_write_db d : never_exits (write_db d).
Proof.
  intros w c w'. unfold write_db. destruct (wr w) as [|[k|] s]; discriminate.
Qed.

(** Relations that no heap, console or file-offset step can break are
    kept by every primitive that touches only those. *)
Section QuietSteps.
Variable R : World -> World -> Prop.
Hypothesis R_refl : forall w, R w w.
Hypothesis R_trans : forall a b c, R a b -> R b c -> R a c.
Hypothesis R_heap : forall w h, R w (set_heap h w).
Hypothesis R_frees : forall w l, R w (set_frees l w).
Hypothesis R_stdin : forall w i, R w (set_stdin i w).
Hypothesis R_stdout : forall w o, R w (set_stdout o w).
Hypothesis R_pos : forall w p, R w (set_db (db_file w) p w).

Lemma keeps_malloc n : keeps R (malloc n).
Proof. intros w. apply R_heap. Qed.

Lemma keeps_free b : keeps R (free b).
Proof.
  intros w. unfold free.
  destruct (heap w !! b) as [[[] bs]|]; simpl; auto.
  eapply R_trans; [apply R_frees | apply R_heap].
Qed.

Lemma keeps_load b : keeps R (load b).
Proof.
  intros w. unfold load. destruct (heap w !! b) as [[[] bs]|]; simpl; auto.
Qed.

Lemma keeps_store b off d : keeps R (store b off d).
Proof.
  unfold store. apply keeps_bind; [assumption | apply keeps_load | intros bs].
  apply keeps_sumbool; [intros w; apply R_heap | apply keeps_fail; assumption].
Qed.

Lemma keeps_load_cstr b off : keeps R (load_cstr b off).
Proof.
  unfold load_cstr. apply keeps_bind; [assumption | apply keeps_load | intros bs].
  destruct (cstr _); [apply keeps_ret | apply keeps_fail]; assumption.
Qed.

Lemma keeps_print o : keeps R (print o).
Proof. intros w. apply R_stdout. Qed.

Lemma keeps_fgets b : keeps R (fgets b).
Proof.
  intros w. unfold fgets.
  destruct (fgets_chars _ _) as [[|x l] r]; [apply R_refl|].
  eapply R_trans; [apply (R_stdin w r) | apply keeps_store].
Qed.

Lemma keeps_fgets_local buf : keeps R (fgets_local buf).
Proof.
  intros w. unfold fgets_local.
  destruct (fgets_chars _ _) as [[|x l] r]; simpl; auto.
Qed.

Lemma keeps_lseek_end : keeps R lseek_end.
Proof. intros w. apply R_pos. Qed.

Lemma keeps_lseek_start : keeps R lseek_start.
Proof. intros w. apply R_pos. Qed.

Lemma keeps_read_db n : keeps R (read_db n).
Proof. intros w. apply R_pos. Qed.

Lemma keeps_get_uid : keeps R get_uid.
Proof. intros w. apply R_refl. Qed.

Lemma keeps_IS_ADMIN : keeps R IS_ADMIN.
Proof.
  unfold IS_ADMIN. apply keeps_bind; [assumption | apply keeps_get_uid | intros u].
  apply keeps_ret; assumption.
Qed.

Ltac quiet_step lem :=
  apply keeps_bind; [assumption | apply lem | intros ?].

Lemma keeps_scan n entry match_all query count :
  keeps R (scan n entry match_all query count).
Proof.
  revert count. induction n as [|n IH]; intros count; simpl.
  - apply keeps_ret; assumption.
  - quiet_step keeps_read_db. quiet_step keeps_store. quiet_step keeps_load.
    apply keeps_if; [|apply IH].
    quiet_step keeps_load_cstr. quiet_step keeps_print. apply IH.
Qed.

Lemma keeps_select_from_db line : keeps R (select_from_db line).
Proof.
  unfold select_from_db.
  quiet_step keeps_malloc. quiet_step keeps_load_cstr.
  destruct (sscanf_skip_s _) as [query|].
  - quiet_step keeps_lseek_end. quiet_step keeps_lseek_start.
    quiet_step keeps_print. quiet_step keeps_print.
    quiet_step keeps_scan. quiet_step keeps_print. apply keeps_free.
  - quiet_step keeps_print. quiet_step keeps_free. apply keeps_free.
Qed.

Lemma keeps_read_choice : keeps R read_choice.
Proof.
  unfold read_choice.
  quiet_step keeps_malloc. quiet_step keeps_fgets.
  quiet_step keeps_load_cstr. apply keeps_ret; assumption.
Qed.
(** Relations that no step at all can break, such as the files the
    environment offers, are kept by the whole program. *)
Hypothesis R_db : forall w f p, R w (set_db f p w).
Hypothesis R_wr : forall w l, R w (set_wr l w).
Hypothesis R_uid : forall w v, R w (set_uid v w).

Lemma keeps_write_db d : keeps R (write_db d).
Proof.
  intros w. unfold write_db. destruct (wr w) as [|[k|] l]; simpl.
  - apply R_db.
  - eapply R_trans; [apply R_db | apply R_wr].
  - apply R_wr.
Qed.

Lemma keeps_ftruncate0 : keeps R ftruncate0.
Proof. intros w. apply R_db. Qed.

Lemma keeps_put_uid v : keeps R (put_uid v).
Proof. intros w. apply R_uid. Qed.

Lemma keeps_insert_into_db line : keeps R (insert_into_db line).
Proof.
  unfold insert_into_db. quiet_step keeps_load_cstr.
  destruct (sscanf_skip_s _) as [name|]; [|apply keeps_print].
  quiet_step keeps_malloc. quiet_step keeps_lseek_end.
  quiet_step keeps_store. quiet_step keeps_store. quiet_step keeps_load.
  quiet_step keeps_write_db.
  apply keeps_bind; [assumption| |intros ?; apply keeps_free].
  apply keeps_if; [|apply keeps_print].
  quiet_step keeps_load_cstr. apply keeps_print.
Qed.

Lemma keeps_drop_db : keeps R drop_db.
Proof.
  unfold drop_db. quiet_step keeps_print.
  apply keeps_bind; [assumption|intros w; apply R_refl|intros ?].
  quiet_step keeps_fgets_local.
  apply keeps_sumbool; [|apply keeps_print].
  quiet_step keeps_print. quiet_step keeps_ftruncate0. apply keeps_print.
Qed.

Lemma keeps_change_user line : keeps R (change_user line).
Proof.
  unfold change_user. quiet_step keeps_malloc. quiet_step keeps_load_cstr.
  destruct (sscanf_skip_s _) as [tok|].
  2:{ quiet_step keeps_print. apply keeps_free. }
  quiet_step keeps_store. quiet_step keeps_load.
  apply keeps_if.
  { quiet_step keeps_put_uid. quiet_step keeps_print. apply keeps_free. }
  apply keeps_if.
  { quiet_step keeps_print. apply keeps_free. }
  quiet_step keeps_malloc.
  apply keeps_bind; [assumption|intros w; apply R_refl|intros fd].
  destruct fd as [secret|].
  2:{ quiet_step keeps_print. apply keeps_exit. assumption. }
  quiet_step keeps_store. quiet_step keeps_print. quiet_step keeps_fgets.
  quiet_step keeps_print. quiet_step keeps_load_cstr. quiet_step keeps_store.
  quiet_step keeps_load. quiet_step keeps_load.
  apply keeps_bind; [assumption| |intros ?].
  { apply keeps_if; [|apply keeps_print].
    quiet_step keeps_put_uid. apply keeps_print. }
  quiet_step keeps_store. quiet_step keeps_store. quiet_step keeps_free.
  apply keeps_free.
Qed.

Lemma keeps_print_info : keeps R print_info.
Proof.
  unfold print_info. quiet_step keeps_IS_ADMIN. quiet_step keeps_print.
  quiet_step keeps_print.
  apply keeps_bind; [assumption| |intros ?; apply keeps_print].
  apply keeps_if; [apply keeps_print|apply keeps_ret; assumption].
Qed.

Lemma keeps_dispatch line choice : keeps R (dispatch line choice).
Proof.
  unfold dispatch.
  apply keeps_if; [quiet_step keeps_print; apply keeps_exit; assumption|].
  apply keeps_if; [apply keeps_change_user|].
  apply keeps_if; [apply keeps_select_from_db|].
  apply keeps_if.
  { quiet_step keeps_IS_ADMIN.
    apply keeps_if; [apply keeps_insert_into_db|apply keeps_ret; assumption]. }
  apply keeps_if; [|apply keeps_ret; assumption].
  quiet_step keeps_IS_ADMIN.
  apply keeps_if; [apply keeps_drop_db|apply keeps_ret; assumption].
Qed.

Lemma keeps_handle_choice : keeps R handle_choice.
Proof.
  unfold handle_choice. apply keeps_bind; [assumption|apply keeps_read_choice|].
  intros [line choice]. quiet_step keeps_dispatch. apply keeps_free.
Qed.

Lemma keeps_main_loop n : keeps R (main_loop n).
Proof.
  induction n as [|n IH]; simpl; [apply keeps_ret; assumption|].
  quiet_step keeps_print_info. quiet_step keeps_handle_choice. exact IH.
Qed.

Lemma keeps_main n : keeps R (main n).
Proof.
  intros w. unfold main. destruct (db_openable w).
  - apply (keeps_bind R R_trans); [apply keeps_print|intros ?; apply keeps_main_loop].
  - apply (keeps_bind R R_trans); [apply keeps_print|intros ?; apply keeps_exit; assumption].
Qed.
End QuietSteps.

(** C9: whatever line it is given and whatever the state, on every
    outcome, [select_from_db] leaves the contents (hence the length) of
    the record file and the role [uid] as they were. *)
Theorem select_from_db_reads_only (line : block) (w : World) :
  db_file (world_of (select_from_db line w)) = db_file w /\
  length (db_file (world_of (select_from_db line w))) = length (db_file w) /\
  uid (world_of (select_from_db line w)) = uid w.
Proof.
  assert (H : keeps same_store_and_role (select_from_db line)).
  { apply keeps_select_from_db; unfold same_store_and_role; simpl; auto.
    intros a b c [-> ->] [-> ->]. auto. }
  destruct (H w) as [Hf Hu]. rewrite Hf, Hu. auto.
Qed.

(** ** Facts about the string functions *)

Lemma not_nul_decide b :
  not_nul b = if decide (b = NUL) then false else true.
Proof.
  unfold not_nul. destruct (decide (b = NUL)).
  - rewrite bool_decide_eq_true_2; auto.
  - rewrite bool_decide_eq_false_2; auto.
Qed.

Lemma strncmp_eq_cstrn n a b :
  strncmp_eq n a b = bool_decide (cstrn n a = cstrn n b).
Proof.
  revert a b. induction n as [|n IH]; intros a b; [reflexivity|].
  destruct a as [|x a], b as [|y b];
    cbn [strncmp_eq hd tl]; unfold cstrn; cbn [take firstn take_while];
    rewrite ?not_nul_decide; repeat destruct (decide _); subst;
    try reflexivity; try congruence;
    try (symmetry; apply bool_decide_eq_false_2; congruence).
  rewrite IH. apply bool_decide_ext. unfold cstrn. split; congruence.
Qed.

Lemma take_while_app_stop {A} (p : A -> bool) l x r :
  Forall (fun a => p a = true) l -> p x = false ->
  take_while p (l ++ x :: r) = l.
Proof.
  intros Hl Hx. induction Hl as [|a l Ha Hl IH]; simpl.
  - rewrite Hx. reflexivity.
  - rewrite Ha, IH. reflexivity.
Qed.

Lemma take_while_all {A} (p : A -> bool) l :
  Forall (fun a => p a = true) l -> take_while p l = l.
Proof.
  intros Hl. induction Hl as [|a l Ha Hl IH]; simpl; [reflexivity|].
  rewrite Ha, IH. reflexivity.
Qed.

Lemma take_while_Forall {A} (p : A -> bool) l :
  Forall (fun a => p a = true) (take_while p l).
Proof.
  induction l as [|a l IH]; simpl; [constructor|].
  destruct (p a) eqn:E; constructor; assumption.
Qed.

Lemma take_while_length {A} (p : A -> bool) l :
  (length (take_while p l) <= length l)%nat.
Proof.
  induction l as [|a l IH]; simpl; [lia|]. destruct (p a); simpl; lia.
Qed.

Lemma drop_while_length {A} (p : A -> bool) l :
  (length (drop_while p l) <= length l)%nat.
Proof.
  induction l as [|a l IH]; simpl; [lia|]. destruct (p a); simpl; lia.
Qed.

Lemma drop_while_head {A} (p : A -> bool) l x r :
  drop_while p l = x :: r -> p x = false.
Proof.
  induction l as [|a l IH]; simpl; [discriminate|].
  destruct (p a) eqn:E; [assumption|]. intros [= -> _]. exact E.
Qed.

(** A string read from memory holds no NUL and is followed by one. *)
Lemma cstr_Some mem s :
  cstr mem = Some s ->
  Forall (fun b => not_nul b = true) s /\ exists r, mem = s ++ NUL :: r.
Proof.
  revert s. induction mem as [|b t IH]; intros s; simpl; [discriminate|].
  destruct (decide (b = NUL)) as [->|Hb].
  - intros [= <-]. split; [constructor|]. exists t. reflexivity.
  - destruct (cstr t) as [s'|]; [|discriminate]. intros [= <-].
    destruct (IH s' eq_refl) as (Hs & r & ->). split.
    + constructor; [|assumption]. unfold not_nul.
      rewrite bool_decide_eq_false_2; auto.
    + exists r. reflexivity.
Qed.

Lemma cstr_app s r :
  Forall (fun b => not_nul b = true) s -> cstr (s ++ NUL :: r) = Some s.
Proof.
  intros Hs. induction Hs as [|b s Hb Hs IH]; simpl.
  - destruct (decide (NUL = NUL)); [reflexivity|congruence].
  - unfold not_nul in Hb. apply negb_true_iff, bool_decide_eq_false_1 in Hb.
    destruct (decide (b = NUL)); [contradiction|]. rewrite IH. reflexivity.
Qed.

Lemma cstr_length mem s : cstr mem = Some s -> (length s < length mem)%nat.
Proof.
  intros H. apply cstr_Some in H as (_ & r & ->).
  rewrite length_app. simpl. lia.
Qed.

Lemma cstr_typed chars r : cstr (chars ++ NUL :: r) = Some (typed chars).
Proof.
  unfold typed. induction chars as [|b t IH]; simpl.
  - destruct (decide (NUL = NUL)); [reflexivity|congruence].
  - unfold not_nul at 1. destruct (decide (b = NUL)) as [->|Hb].
    + reflexivity.
    + rewrite bool_decide_eq_false_2 by assumption. simpl.
      rewrite IH. reflexivity.
Qed.

(** [fgets] on a stream that starts with a short line takes that line. *)
Lemma fgets_chars_line n body rest :
  LF ∉ body -> (length body < n)%nat ->
  fgets_chars n (body ++ LF :: rest) = (body ++ [LF], rest).
Proof.
  revert n. induction body as [|c body IH]; intros n Hnl Hlen; simpl in *.
  - destruct n; [lia|]. simpl.
    destruct (decide (LF = LF)); [reflexivity|congruence].
  - destruct n; [lia|]. simpl.
    apply not_elem_of_cons in Hnl as [Hc Hnl].
    destruct (decide (c = LF)); [congruence|].
    rewrite IH by (auto; lia). reflexivity.
Qed.

Lemma fgets_chars_nonempty n c rest :
  (0 < n)%nat -> fst (fgets_chars n (c :: rest)) <> [].
Proof.
  intros Hn. destruct n; [lia|]. simpl.
  destruct (decide (c = LF)); [discriminate|].
  destruct (fgets_chars n rest). discriminate.
Qed.

Lemma fgets_chars_head n c rest :
  (0 < n)%nat -> hd NUL (fst (fgets_chars n (c :: rest))) = c.
Proof.
  intros Hn. destruct n; [lia|]. simpl.
  destruct (decide (c = LF)); [reflexivity|].
  destruct (fgets_chars n rest). reflexivity.
Qed.

Lemma fgets_chars_length n input :
  (length (fst (fgets_chars n input)) <= n)%nat.
Proof.
  revert input. induction n as [|n IH]; intros [|c rest]; simpl; try lia.
  destruct (decide (c = LF)); simpl; [lia|].
  specialize (IH rest). destruct (fgets_chars n rest). simpl in *. lia.
Qed.

Lemma fgets_chars_split n input :
  fst (fgets_chars n input) ++ snd (fgets_chars n input) = input.
Proof.
  revert input. induction n as [|n IH]; intros [|c rest]; simpl; try reflexivity.
  destruct (decide (c = LF)); simpl; [reflexivity|].
  specialize (IH rest). destruct (fgets_chars n rest). simpl in *.
  rewrite IH. reflexivity.
Qed.

(** The token [sscanf] keeps is blank-free, not empty, and at least two
    bytes shorter than the string: it fits the 16-byte arrays it is
    stored to whenever the string comes from a 16-byte buffer. *)
Lemma sscanf_skip_s_Some s tok :
  sscanf_skip_s s = Some tok ->
  tok <> [] /\ Forall (fun b => isspace b = false) tok /\
  (length tok + 2 <= length s)%nat.
Proof.
  unfold sscanf_skip_s.
  destruct (drop_while isspace s) as [|c s1] eqn:E1; [discriminate|].
  pose proof (drop_while_head _ _ _ _ E1) as Hc.
  pose proof (drop_while_length isspace s) as L1. rewrite E1 in L1.
  remember (drop_while (notb isspace) (c :: s1)) as s1' eqn:E1'.
  destruct (drop_while isspace s1') as [|d s2] eqn:E2; [discriminate|].
  pose proof (drop_while_head _ _ _ _ E2) as Hd.
  pose proof (drop_while_length isspace s1') as L2. rewrite E2 in L2.
  intros [= <-].
  pose proof (take_while_length (notb isspace) (d :: s2)) as L3.
  pose proof (take_while_Forall (notb isspace) (d :: s2)) as F3.
  assert (L4 : (length s1' < length (c :: s1))%nat).
  { subst s1'. simpl. unfold notb at 1. rewrite Hc. simpl.
    pose proof (drop_while_length (notb isspace) s1). lia. }
  assert (L5 : s1' <> d :: s2).
  { intros ->. symmetry in E1'. apply drop_while_head in E1'.
    unfold notb in E1'. rewrite Hd in E1'. discriminate. }
  assert (L6 : (length (d :: s2) < length s1')%nat).
  { destruct s1' as [|e s3]; [discriminate|]. simpl in E2.
    destruct (isspace e) eqn:Ee.
    - pose proof (drop_while_length isspace s3) as L. rewrite E2 in L.
      simpl in *. lia.
    - congruence. }
  split; [|split].
  - simpl. unfold notb at 1. rewrite Hd. discriminate.
  - eapply Forall_impl; [exact F3|].
    intros b. unfold notb. apply negb_true_iff.
  - simpl in *. lia.
Qed.

Lemma drop_while_sub {A} (p : A -> bool) (P : A -> Prop) l :
  Forall P l -> Forall P (drop_while p l).
Proof.
  induction 1 as [|a l Ha Hl IH]; simpl; [constructor|].
  destruct (p a); [assumption|constructor; assumption].
Qed.

Lemma take_while_sub {A} (p : A -> bool) (P : A -> Prop) l :
  Forall P l -> Forall P (take_while p l).
Proof.
  induction 1 as [|a l Ha Hl IH]; simpl; [constructor|].
  destruct (p a); constructor; assumption.
Qed.

Lemma sscanf_skip_s_sub (P : byte -> Prop) s tok :
  Forall P s -> sscanf_skip_s s = Some tok -> Forall P tok.
Proof.
  unfold sscanf_skip_s. intros Hs.
  destruct (drop_while isspace s) as [|c s1] eqn:E1; [discriminate|].
  remember (drop_while (notb isspace) (c :: s1)) as s1' eqn:E1'.
  destruct (drop_while isspace s1') as [|d s2] eqn:E2; [discriminate|].
  intros [= <-]. apply (take_while_sub (notb isspace) P (d :: s2)).
  rewrite <- E2. apply drop_while_sub. subst s1'.
  apply drop_while_sub. rewrite <- E1. apply drop_while_sub, Hs.
Qed.

Lemma take_repeat {A} (x : A) n m :
  (m <= n)%nat -> take m (repeat x n) = repeat x m.
Proof.
  revert n. induction m as [|m IH]; intros [|n] H; simpl; try reflexivity; try lia.
  rewrite IH by lia. reflexivity.
Qed.

Lemma strncpy_short n src :
  (length src <= n)%nat -> strncpy n src = src ++ repeat NUL (n - length src).
Proof.
  intros H. unfold strncpy. rewrite take_app_ge by lia.
  rewrite take_repeat by lia. reflexivity.
Qed.

Lemma strncpy_length n src : length (strncpy n src) = n.
Proof.
  unfold strncpy. rewrite length_take, length_app, repeat_length. lia.
Qed.

Lemma write_at_end f d : write_at f (length f) d = f ++ d.
Proof.
  unfold write_at. rewrite Nat.sub_diag. simpl. rewrite app_nil_r.
  rewrite take_ge by lia. rewrite drop_ge by lia. rewrite app_nil_r.
  reflexivity.
Qed.

Lemma overlay_length mem off d :
  (off + length d <= length mem)%nat -> length (overlay mem off d) = length mem.
Proof.
  intros H. unfold overlay.
  rewrite !length_app, length_take, length_drop. lia.
Qed.

Lemma overlay_tail mem off d :
  (off + length d = length mem)%nat -> overlay mem off d = take off mem ++ d.
Proof.
  intros H. unfold overlay. rewrite drop_ge by lia.
  rewrite app_nil_r. reflexivity.
Qed.

Lemma overlay_all mem d : length d = length mem -> overlay mem 0 d = d.
Proof.
  intros H. rewrite overlay_tail by (simpl; lia). rewrite take_0. reflexivity.
Qed.

(** ** Running the heap primitives on a known heap *)

Lemma load_live w b bs :
  heap w !! b = Some (Cell true bs) -> load b w = Ret bs w.
Proof. unfold load. intros ->. reflexivity. Qed.

Lemma load_cstr_live w b bs off s :
  heap w !! b = Some (Cell true bs) -> cstr (drop off bs) = Some s ->
  load_cstr b off w = Ret s w.
Proof.
  intros Hb Hs. unfold load_cstr. rewrite (bind_ret _ _ _ _ _ (load_live _ _ _ Hb)).
  rewrite Hs. reflexivity.
Qed.

Lemma store_live w b bs off d :
  heap w !! b = Some (Cell true bs) -> (off + length d <= length bs)%nat ->
  store b off d w =
  Ret tt (set_heap (<[b := Cell true (overlay bs off d)]> (heap w)) w).
Proof.
  intros Hb Hlen. unfold store. rewrite (bind_ret _ _ _ _ _ (load_live _ _ _ Hb)).
  destruct (decide _); [reflexivity|lia].
Qed.

Lemma free_live w b bs :
  heap w !! b = Some (Cell true bs) ->
  free b w = Ret tt (set_heap (<[b := Cell false bs]> (heap w))
                              (set_frees (frees w ++ [b]) w)).
Proof. unfold free. intros ->. reflexivity. Qed.

Lemma free_dead w b bs :
  heap w !! b = Some (Cell false bs) ->
  free b w = Fault (DoubleFree b) (set_frees (frees w ++ [b]) w).
Proof. unfold free. intros ->. reflexivity. Qed.

Lemma lookup_last (h : list cell) c : (h ++ [c]) !! length h = Some c.
Proof. apply list_lookup_middle. reflexivity. Qed.

Lemma insert_last (h : list cell) c c' : <[length h := c']> (h ++ [c]) = h ++ [c'].
Proof.
  replace (length h) with (length h + 0)%nat by lia.
  rewrite insert_app_r. reflexivity.
Qed.

Lemma lookup_old (h : list cell) c b x :
  h !! b = Some x -> (h ++ [c]) !! b = Some x.
Proof. intros H. apply lookup_app_l_Some. exact H. Qed.

Lemma insert_old (h : list cell) c b x :
  (b < length h)%nat -> <[b := x]> (h ++ [c]) = <[b := x]> h ++ [c].
Proof. intros H. apply insert_app_l. exact H. Qed.

(** Projections of updated worlds, and nothing else, are reduced. *)
Ltac wsimpl :=
  cbn [heap uid db_file db_pos wr stdin stdout frees junk stack_junk pw_file
       db_openable set_heap set_db set_wr set_stdin set_stdout set_frees
       set_uid world_of].
Tactic Notation "wsimpl" "in" hyp(H) :=
  cbn [heap uid db_file db_pos wr stdin stdout frees junk stack_junk pw_file
       db_openable set_heap set_db set_wr set_stdin set_stdout set_frees
       set_uid world_of] in H.

(** ** [insert_into_db] on a line whose entry parses *)

Lemma record_of_length len name : length (record_of len name) = 16%nat.
Proof. unfold record_of. simpl. rewrite strncpy_length. reflexivity. Qed.

Lemma write_db_full w data :
  writes_fully (wr w) = true -> length data = sizeof_DBEntry ->
  db_pos w = length (db_file w) ->
  write_db data w =
  Ret (Z.of_nat sizeof_DBEntry)
      (set_wr (tl (wr w)) (set_db (db_file w ++ data) (length (db_file w) + 16) w)).
Proof.
  intros Hw Hd Hp. unfold write_db, writes_fully in *.
  destruct (wr w) as [|[k|] s] eqn:E; try discriminate.
  - rewrite Hp, write_at_end, Hd. destruct w; simpl in *; subst; reflexivity.
  - apply Nat.leb_le in Hw. rewrite take_ge by lia.
    rewrite Hp, write_at_end, Hd. reflexivity.
Qed.

Lemma cstr_strncpy name r :
  Forall (fun b => not_nul b = true) name -> (length name < SIZE - 1)%nat ->
  cstr (strncpy (SIZE - 1) name ++ r) = Some name.
Proof.
  intros Hn Hl. rewrite strncpy_short by lia.
  destruct (SIZE - 1 - length name)%nat as [|k] eqn:E; [lia|].
  simpl. rewrite <- app_assoc. simpl. apply cstr_app, Hn.
Qed.

Lemma insert_into_db_added w line bs s name :
  heap w !! line = Some (Cell true bs) -> length bs = SIZE ->
  cstr bs = Some s -> sscanf_skip_s s = Some name ->
  writes_fully (wr w) = true ->
  exists w',
    insert_into_db line w = Ret tt w' /\
    uid w' = uid w /\
    db_file w' = db_file w ++ record_of (length (db_file w)) name /\
    wr w' = tl (wr w) /\
    stdin w' = stdin w /\
    stdout w' = stdout w ++
      [EntryAdded (to_uchar (Z.of_nat (length (db_file w)) / 16)) name] /\
    pw_file w' = pw_file w /\
    heap w' = heap w ++ [Cell false (record_of (length (db_file w)) name)] /\
    frees w' = frees w ++ [length (heap w)].
Proof.
  intros Hline Hbs Hs Hname Hwr.
  destruct (sscanf_skip_s_Some _ _ Hname) as (Hne & Hsp & Hlen).
  pose proof (cstr_length _ _ Hs) as Hslen.
  destruct (cstr_Some _ _ Hs) as (Hnul & _).
  pose proof (sscanf_skip_s_sub _ _ _ Hnul Hname) as Hnn.
  assert (Hshort : (length name < SIZE - 1)%nat) by (unfold SIZE in *; lia).
  unfold insert_into_db.
  erewrite bind_ret by (eapply load_cstr_live; [exact Hline | exact Hs]).
  cbv beta. rewrite Hname.
  erewrite bind_ret by reflexivity. cbv beta.
  erewrite bind_ret by reflexivity. cbv beta.
  erewrite bind_ret.
  2:{ eapply store_live; [wsimpl; apply lookup_last|]. simpl. lia. }
  cbv beta.
  erewrite bind_ret.
  2:{ eapply store_live; [wsimpl; rewrite insert_last; apply lookup_last|].
      rewrite strncpy_length. simpl. lia. }
  cbv beta. wsimpl. rewrite !insert_last.
  assert (Hrec : overlay (overlay (map (junk w (length (heap w))) (seq 0 sizeof_DBEntry)) 0
              [to_uchar (Z.of_nat (length (db_file w)) / Z.of_nat sizeof_DBEntry)]) 1
              (strncpy (SIZE - 1) name) = record_of (length (db_file w)) name).
  { rewrite overlay_tail.
    - reflexivity.
    - rewrite strncpy_length. reflexivity. }
  rewrite Hrec.
  erewrite bind_ret.
  2:{ eapply load_live. wsimpl. apply lookup_last. }
  cbv beta.
  erewrite bind_ret.
  2:{ apply write_db_full; [exact Hwr | apply record_of_length | reflexivity]. }
  cbv beta. rewrite Z.eqb_refl.
  erewrite bind_ret.
  2:{ erewrite bind_ret.
      2:{ eapply load_cstr_live.
          - wsimpl. apply lookup_last.
          - unfold record_of. cbn [drop skipn].
            rewrite <- (app_nil_r (strncpy _ _)). apply cstr_strncpy; assumption. }
      reflexivity. }
  cbv beta.
  erewrite free_live.
  2:{ wsimpl. apply lookup_last. }
  eexists. split; [reflexivity|]. wsimpl.
  rewrite !insert_last. repeat split; reflexivity.
Qed.

(** ** One iteration of the dispatcher on a typed line *)

Lemma fgets_chars_is_line l rest :
  is_line l -> fgets_chars (SIZE - 1) (l ++ rest) = (l, rest).
Proof.
  intros (body & -> & Hnl & Hlen). rewrite <- app_assoc. cbn [app].
  apply fgets_chars_line; assumption.
Qed.

Lemma is_line_length l : is_line l -> (0 < length l <= SIZE - 1)%nat.
Proof.
  intros (body & -> & _ & Hlen). rewrite length_app. simpl in *. lia.
Qed.

Lemma line_buffer_length w chars :
  (length chars <= SIZE - 1)%nat -> length (line_buffer w chars) = SIZE.
Proof.
  intros H. unfold line_buffer. rewrite overlay_length.
  - rewrite length_map, length_seq. reflexivity.
  - rewrite length_map, length_seq, length_app. unfold SIZE in *. simpl in *. lia.
Qed.

Lemma line_buffer_cstr w chars : cstr (line_buffer w chars) = Some (typed chars).
Proof.
  unfold line_buffer, overlay. rewrite take_0. cbn [app].
  rewrite <- app_assoc. apply cstr_typed.
Qed.

Lemma read_choice_chars w chars rest :
  fgets_chars (SIZE - 1) (stdin w) = (chars, rest) -> chars <> [] ->
  read_choice w =
  Ret (length (heap w), selector chars)
      (set_heap (heap w ++ [Cell true (line_buffer w chars)]) (set_stdin rest w)).
Proof.
  intros Hf Hne. unfold read_choice.
  erewrite bind_ret by reflexivity. cbv beta.
  assert (Hlen : (length chars <= SIZE - 1)%nat).
  { pose proof (fgets_chars_length (SIZE - 1) (stdin w)) as H.
    rewrite Hf in H. exact H. }
  erewrite bind_ret.
  2:{ unfold fgets. wsimpl. rewrite Hf.
      destruct chars as [|c chars]; [congruence|].
      eapply store_live; [wsimpl; apply lookup_last|].
      rewrite length_map, length_seq, length_app. unfold SIZE in *. simpl in *. lia. }
  cbv beta. wsimpl. rewrite insert_last. fold (line_buffer w chars).
  erewrite bind_ret.
  2:{ eapply load_cstr_live; [wsimpl; apply lookup_last|].
      apply line_buffer_cstr. }
  reflexivity.
Qed.

Lemma read_choice_line w l rest :
  stdin w = l ++ rest -> is_line l ->
  read_choice w =
  Ret (length (heap w), selector l)
      (set_heap (heap w ++ [Cell true (line_buffer w l)]) (set_stdin rest w)).
Proof.
  intros Hin Hl. apply read_choice_chars.
  - rewrite Hin. apply fgets_chars_is_line, Hl.
  - apply is_line_length in Hl. destruct l; simpl in *; [lia|discriminate].
Qed.

Lemma handle_choice_insert w l rest name :
  uid w = ADMIN_UID -> stdin w = l ++ rest -> is_line l ->
  selector l = 4 -> argument l = Some name -> writes_fully (wr w) = true ->
  exists w',
    handle_choice w = Ret tt w' /\
    uid w' = uid w /\
    db_file w' = db_file w ++ record_of (length (db_file w)) name /\
    wr w' = tl (wr w) /\
    stdin w' = rest /\
    stdout w' = stdout w ++
      [EntryAdded (to_uchar (Z.of_nat (length (db_file w)) / 16)) name] /\
    pw_file w' = pw_file w.
Proof.
  intros Hu Hin Hl Hsel Harg Hwr.
  unfold handle_choice.
  rewrite (bind_ret _ _ _ _ _ (read_choice_line _ _ _ Hin Hl)). cbv beta iota.
  rewrite Hsel. unfold dispatch. cbn [Z.eqb Pos.eqb].
  set (w1 := set_heap _ _).
  assert (Hadm : IS_ADMIN w1 = Ret true w1).
  { unfold IS_ADMIN, get_uid, bind, ret. subst w1. wsimpl. rewrite Hu. reflexivity. }
  destruct (insert_into_db_added w1 (length (heap w)) (line_buffer w l)
              (typed l) name) as (w2 & Hrun & Hu2 & Hf2 & Hw2 & Hi2 & Ho2 & Hp2 & Hh2 & _).
  { subst w1. wsimpl. apply lookup_last. }
  { apply line_buffer_length. apply is_line_length in Hl. lia. }
  { apply line_buffer_cstr. }
  { exact Harg. }
  { exact Hwr. }
  erewrite bind_ret.
  2:{ rewrite (bind_ret _ _ _ _ _ Hadm). exact Hrun. }
  erewrite free_live.
  2:{ rewrite Hh2. subst w1. wsimpl. apply lookup_old, lookup_last. }
  eexists. split; [reflexivity|]. wsimpl.
  subst w1. wsimpl in Hu2. wsimpl in Hf2. wsimpl in Hw2. wsimpl in Hi2.
  wsimpl in Ho2. wsimpl in Hp2. auto 10.
Qed.

(** ** The menu and the loop *)

Lemma print_info_run w :
  print_info w = Ret tt (set_stdout (stdout w ++ menu (uid w =? ADMIN_UID)) w).
Proof.
  unfold print_info, IS_ADMIN, get_uid, puts, printf, print, bind, ret, menu.
  wsimpl. destruct (uid w =? ADMIN_UID); wsimpl;
    rewrite <- ?app_assoc; reflexivity.
Qed.

Lemma added_app a b : added (a ++ b) = added a ++ added b.
Proof. apply omap_app. Qed.

Lemma rows_app a b : rows (a ++ b) = rows a ++ rows b.
Proof. apply omap_app. Qed.

Lemma added_menu a : added (menu a) = [].
Proof. destruct a; reflexivity. Qed.

Lemma rows_menu a : rows (menu a) = [].
Proof. destruct a; reflexivity. Qed.

Lemma byte_val_to_uchar z : byte_val (to_uchar z) = z mod 256.
Proof.
  unfold byte_val, to_uchar.
  pose proof (Z.mod_pos_bound z 256 ltac:(lia)) as Hb.
  pose proof (Byte.to_of_N_option_map (Z.to_N (z mod 256))) as H.
  destruct (Byte.of_N (Z.to_N (z mod 256))) as [b|] eqn:E; simpl in H.
  - destruct (N.leb_spec (Z.to_N (z mod 256)) 255) as [_|Hgt]; [|discriminate].
    injection H as ->. lia.
  - destruct (N.leb_spec (Z.to_N (z mod 256)) 255) as [Hle|Hgt]; [discriminate|].
    lia.
Qed.

Lemma to_uchar_wrap z : to_uchar (z + Z.of_nat 256) = to_uchar z.
Proof.
  unfold to_uchar. change (Z.of_nat 256) with (1 * 256).
  rewrite Z.mod_add by lia. reflexivity.
Qed.

(** ** Sequences of inserts *)

Lemma appended_length m lines :
  length (appended m lines) = (16 * length lines)%nat.
Proof.
  revert m. induction lines as [|l t IH]; intros m; simpl; [reflexivity|].
  rewrite length_app, IH, strncpy_length. unfold SIZE. lia.
Qed.

Lemma reports_lookup m lines k l :
  lines !! k = Some l ->
  reports m lines !! k = Some (to_uchar (Z.of_nat (m + k)), name_of l).
Proof.
  revert m k. induction lines as [|l0 t IH]; intros m [|k] H; simpl in *;
    try discriminate.
  - injection H as ->. rewrite Nat.add_0_r. reflexivity.
  - rewrite (IH (S m) k H).
    replace (m + S k)%nat with (S m + k)%nat by lia. reflexivity.
Qed.

Lemma reports_length m lines : length (reports m lines) = length lines.
Proof.
  revert m. induction lines as [|l t IH]; intros m; simpl; [reflexivity|].
  rewrite IH. reflexivity.
Qed.

Lemma main_loop_inserts lines : forall w m rest,
  uid w = ADMIN_UID -> length (db_file w) = (16 * m)%nat ->
  stdin w = concat lines ++ rest ->
  Forall insert_line lines -> all_written (length lines) (wr w) = true ->
  exists w',
    main_loop (length lines) w = Ret tt w' /\
    uid w' = ADMIN_UID /\
    db_file w' = db_file w ++ appended m lines /\
    stdin w' = rest /\
    wr w' = drop (length lines) (wr w) /\
    pw_file w' = pw_file w /\
    added (stdout w') = added (stdout w) ++ reports m lines /\
    rows (stdout w') = rows (stdout w).
Proof.
  induction lines as [|l t IH]; intros w m rest Hu Hlen Hin Hall Hwr.
  - exists w. simpl in *. rewrite !app_nil_r. auto 10.
  - apply Forall_cons in Hall as [(Hl & Hsel & [name Hname]) Hall].
    simpl in Hwr. apply andb_true_iff in Hwr as [Hw1 Hwr].
    cbn [length main_loop].
    rewrite (bind_ret _ _ _ _ _ (print_info_run w)). cbv beta.
    set (w0 := set_stdout _ w).
    destruct (handle_choice_insert w0 l (concat t ++ rest) name)
      as (w1 & Hrun & Hu1 & Hf1 & Hw1' & Hi1 & Ho1 & Hp1); subst w0; wsimpl;
      try assumption.
    { rewrite Hin. simpl. rewrite <- app_assoc. reflexivity. }
    rewrite (bind_ret _ _ _ _ _ Hrun). cbv beta.
    wsimpl in Hu1. wsimpl in Hf1. wsimpl in Hw1'. wsimpl in Ho1. wsimpl in Hp1.
    destruct (IH w1 (S m) rest) as (w' & Hrun' & Hu' & Hf' & Hi' & Hw' & Hp' & Ha' & Hr').
    { congruence. }
    { rewrite Hf1, length_app, record_of_length. lia. }
    { exact Hi1. }
    { exact Hall. }
    { rewrite Hw1'. exact Hwr. }
    exists w'. split; [exact Hrun'|]. split; [exact Hu'|].
    split; [|split; [exact Hi'|split; [|split; [congruence|split]]]].
    + rewrite Hf', Hf1, <- app_assoc. simpl. unfold name_of. rewrite Hname.
      simpl. rewrite Hlen. reflexivity.
    + rewrite Hw', Hw1'. destruct (wr w); cbn [tail length]; rewrite ?drop_nil; reflexivity.
    + rewrite Ha', Ho1, !added_app, added_menu, app_nil_r, <- app_assoc.
      simpl. unfold name_of at 1. rewrite Hname. simpl.
      rewrite Hlen. replace (Z.of_nat (16 * m) / 16) with (Z.of_nat m); [reflexivity|].
      rewrite Nat2Z.inj_mul, Z.mul_comm, Z.div_mul; lia.
    + rewrite Hr', Ho1, !rows_app, rows_menu. simpl. rewrite !app_nil_r. reflexivity.
Qed.

Lemma appended_stored m lines : appended m lines = concat (stored m lines).
Proof.
  revert m. induction lines as [|l t IH]; intros m; [reflexivity|].
  cbn [appended stored concat]. rewrite IH. reflexivity.
Qed.

Lemma stored_lookup m lines k l :
  lines !! k = Some l ->
  stored m lines !! k = Some (record_of (16 * (m + k)) (name_of l)).
Proof.
  revert m k. induction lines as [|l0 t IH]; intros m [|k] H; simpl in H;
    try discriminate.
  - injection H as ->. cbn [stored lookup list_lookup]. rewrite Nat.add_0_r. reflexivity.
  - cbn [stored]. change ((?x :: ?t) !! S k) with (t !! k).
    rewrite (IH (S m) k H).
    replace (S m + k)%nat with (m + S k)%nat by lia. reflexivity.
Qed.

(** The [k]-th record of a file of whole records. *)
Lemma concat_record_at (recs : list (list byte)) k r :
  Forall (fun r => length r = sizeof_DBEntry) recs -> recs !! k = Some r ->
  take sizeof_DBEntry (drop (sizeof_DBEntry * k) (concat recs)) = r.
Proof.
  intros Hall. revert k. induction Hall as [|a t Ha Hall IH]; intros k Hk;
    [discriminate|].
  destruct k as [|k]; cbn [concat].
  - injection Hk as ->. rewrite Nat.mul_0_r, drop_0.
    apply take_app_length'. symmetry. exact Ha.
  - replace (sizeof_DBEntry * S k)%nat with (length a + sizeof_DBEntry * k)%nat
      by (rewrite Ha; lia).
    rewrite drop_app_add. apply IH. exact Hk.
Qed.

Lemma stored_whole m lines :
  Forall (fun r => length r = sizeof_DBEntry) (stored m lines).
Proof.
  revert m. induction lines as [|l t IH]; intros m; cbn [stored]; constructor.
  - apply record_of_length.
  - apply IH.
Qed.

Lemma record_head (f : list byte) i x t :
  take sizeof_DBEntry (drop i f) = x :: t -> f !! i = Some x.
Proof.
  intros H.
  assert (H0 : take sizeof_DBEntry (drop i f) !! 0%nat = Some x) by (rewrite H; reflexivity).
  rewrite lookup_take_lt in H0 by (unfold sizeof_DBEntry; lia).
  rewrite lookup_drop, Nat.add_0_r in H0. exact H0.
Qed.

(** C2: after [N] successful inserts into an empty store, the [k]-th
    record of the file (counting from 0 here, so the claim's [k-1]) is
    the id followed by the name padded with NULs, and the report of the
    insert shows the same id and name; the id is the record count
    before the append truncated to [unsigned char], that is [k mod 256].
    The record and the report 256 places later repeat the id, so the
    257th insert collides with the first. *)
Theorem insert_ids_wrap_at_256 (lines : list (list byte)) (w : World) :
  uid w = ADMIN_UID -> db_file w = [] -> stdin w = concat lines ->
  Forall insert_line lines -> all_written (length lines) (wr w) = true ->
  exists w' new,
    main_loop (length lines) w = Ret tt w' /\
    added (stdout w') = added (stdout w) ++ new /\
    length new = length lines /\
    length (db_file w') = (16 * length lines)%nat /\
    (forall k l, lines !! k = Some l ->
       exists id, new !! k = Some (id, name_of l) /\
                  take sizeof_DBEntry (drop (sizeof_DBEntry * k) (db_file w')) =
                    id :: strncpy (SIZE - 1) (name_of l) /\
                  id = to_uchar (Z.of_nat (16 * k) / Z.of_nat sizeof_DBEntry) /\
                  byte_val id = Z.of_nat k mod 256) /\
    (forall k, (256 + k < length lines)%nat ->
       fst <$> new !! (256 + k)%nat = fst <$> new !! k /\
       db_file w' !! (sizeof_DBEntry * (256 + k))%nat =
         db_file w' !! (sizeof_DBEntry * k)%nat /\
       is_Some (db_file w' !! (sizeof_DBEntry * k)%nat)).
Proof.
  intros Hu Hf Hin Hall Hwr.
  destruct (main_loop_inserts lines w 0 []) as
    (w' & Hrun & _ & Hf' & _ & _ & _ & Ha & _); try assumption.
  { rewrite Hf. reflexivity. }
  { rewrite app_nil_r. exact Hin. }
  rewrite Hf, app_nil_l in Hf'.
  assert (Hrec : forall k l, lines !! k = Some l ->
            take sizeof_DBEntry (drop (sizeof_DBEntry * k) (db_file w')) =
            to_uchar (Z.of_nat k) :: strncpy (SIZE - 1) (name_of l)).
  { intros k l Hk. rewrite Hf', appended_stored.
    rewrite (concat_record_at (stored 0 lines) k _ (stored_whole 0 lines)
               (stored_lookup 0 lines k l Hk)).
    unfold record_of. rewrite Nat.add_0_l. f_equal. f_equal.
    unfold sizeof_DBEntry.
    rewrite Nat2Z.inj_mul, Z.mul_comm, Z.div_mul; [reflexivity|lia]. }
  exists w', (reports 0 lines). split; [exact Hrun|]. split; [exact Ha|].
  split; [apply reports_length|]. split.
  { rewrite Hf'. apply appended_length. }
  split.
  - intros k l Hk. exists (to_uchar (Z.of_nat k)).
    rewrite (reports_lookup 0 lines k l Hk), Nat.add_0_l.
    split; [reflexivity|]. split; [apply Hrec, Hk|].
    split; [|apply byte_val_to_uchar].
    f_equal. unfold sizeof_DBEntry.
    rewrite Nat2Z.inj_mul, Z.mul_comm, Z.div_mul; [reflexivity|lia].
  - intros k Hk.
    destruct (lookup_lt_is_Some_2 lines (256 + k)) as [l1 H1]; [lia|].
    destruct (lookup_lt_is_Some_2 lines k) as [l0 H0]; [lia|].
    rewrite (reports_lookup 0 lines _ _ H1), (reports_lookup 0 lines _ _ H0).
    rewrite !Nat.add_0_l. cbn [fmap option_fmap option_map fst].
    rewrite (record_head _ _ _ _ (Hrec _ _ H1)), (record_head _ _ _ _ (Hrec _ _ H0)).
    assert (Hw : to_uchar (Z.of_nat (256 + k)) = to_uchar (Z.of_nat k)).
    { rewrite Nat2Z.inj_add, Z.add_comm. apply to_uchar_wrap. }
    rewrite Hw. split; [reflexivity|]. split; [reflexivity|eauto].
Qed.

Lemma insert_line_intro body name :
  LF ∉ body -> (length body < SIZE - 1)%nat ->
  selector (body ++ [LF]) = 4 -> argument (body ++ [LF]) = Some name ->
  insert_line (body ++ [LF]).
Proof.
  intros H1 H2 H3 H4. split; [|split; [exact H3|eexists; exact H4]].
  exists body. auto.
Defined.

Lemma insert_ids_wrap_at_256_witness :
  exists w' new,
    main_loop (length many_inserts) (admin_world [] (concat many_inserts)) = Ret tt w' /\
    added (stdout w') = added (stdout (admin_world [] (concat many_inserts))) ++ new /\
    length new = length many_inserts /\
    length (db_file w') = (16 * length many_inserts)%nat /\
    (forall k l, many_inserts !! k = Some l ->
       exists id, new !! k = Some (id, name_of l) /\
                  take sizeof_DBEntry (drop (sizeof_DBEntry * k) (db_file w')) =
                    id :: strncpy (SIZE - 1) (name_of l) /\
                  id = to_uchar (Z.of_nat (16 * k) / Z.of_nat sizeof_DBEntry) /\
                  byte_val id = Z.of_nat k mod 256) /\
    (forall k, (256 + k < length many_inserts)%nat ->
       fst <$> new !! (256 + k)%nat = fst <$> new !! k /\
       db_file w' !! (sizeof_DBEntry * (256 + k))%nat =
         db_file w' !! (sizeof_DBEntry * k)%nat /\
       is_Some (db_file w' !! (sizeof_DBEntry * k)%nat)).
Proof.
  apply (insert_ids_wrap_at_256 many_inserts (admin_world [] (concat many_inserts))).
  - reflexivity.
  - reflexivity.
  - reflexivity.
  - unfold many_inserts. apply Forall_replicate.
    apply (insert_line_intro _ (bytes_of "a"));
      [apply (bool_decide_unpack _); vm_compute; exact I
      |simpl; lia|reflexivity|reflexivity].
  - reflexivity.
Defined.

(** ** What [read_choice] leaves behind *)

Lemma store_Ret b off d w w' :
  store b off d w = Ret tt w' ->
  exists bs, heap w !! b = Some (Cell true bs) /\
             (off + length d <= length bs)%nat /\
             w' = set_heap (<[b := Cell true (overlay bs off d)]> (heap w)) w.
Proof.
  unfold store, bind, load.
  destruct (heap w !! b) as [[[] bs]|] eqn:E; try discriminate.
  destruct (decide _) as [Hle|]; [|discriminate].
  intros [= <-]. exists bs. auto.
Qed.

Lemma load_cstr_Ret b off s w w' :
  load_cstr b off w = Ret s w' ->
  w' = w /\ exists bs, heap w !! b = Some (Cell true bs) /\
                       cstr (drop off bs) = Some s.
Proof.
  unfold load_cstr, bind, load.
  destruct (heap w !! b) as [[[] bs]|] eqn:E; try discriminate.
  destruct (cstr (drop off bs)) as [s'|] eqn:Es; [|discriminate].
  intros [= <- <-]. split; [reflexivity|]. exists bs. auto.
Qed.

(** Whenever [read_choice] returns, the buffer is the block just
    allocated, it is live, holds [SIZE] bytes and a terminated string
    whose [atoi] is the selector; nothing else has changed but the
    console input. *)
Lemma read_choice_Ret w line c w1 :
  read_choice w = Ret (line, c) w1 ->
  line = length (heap w) /\
  exists bs s,
    heap w1 = heap w ++ [Cell true bs] /\ length bs = SIZE /\
    cstr bs = Some s /\ c = atoi s /\
    uid w1 = uid w /\ db_file w1 = db_file w /\ db_pos w1 = db_pos w /\
    stdout w1 = stdout w /\ frees w1 = frees w /\ pw_file w1 = pw_file w /\
    wr w1 = wr w /\ db_openable w1 = db_openable w /\
    stdin w1 = snd (fgets_chars (SIZE - 1) (stdin w)).
Proof.
  unfold read_choice. intros H.
  apply bind_Ret_inv in H as (b & wa & Hm & H). injection Hm as <- <-.
  apply bind_Ret_inv in H as ([] & wb & Hg & H).
  apply bind_Ret_inv in H as (s & wc & Hl & H). injection H as <- <- <-.
  apply load_cstr_Ret in Hl as (-> & bs & Hbs & Hs). rewrite drop_0 in Hs.
  split; [reflexivity|]. exists bs, s.
  unfold fgets in Hg. wsimpl in Hg.
  pose proof (fgets_chars_length (SIZE - 1) (stdin w)) as Hlen.
  destruct (fgets_chars (SIZE - 1) (stdin w)) as [[|x chars] rest] eqn:Ef.
  - injection Hg as <-. wsimpl in Hbs. rewrite lookup_last in Hbs.
    injection Hbs as <-. wsimpl.
    repeat split; try reflexivity; try assumption.
    pose proof (fgets_chars_split (SIZE - 1) (stdin w)) as Hsp.
    rewrite Ef in Hsp. symmetry. exact Hsp.
  - apply store_Ret in Hg as (bs0 & Hb0 & Hle & ->). wsimpl in Hb0.
    rewrite lookup_last in Hb0. injection Hb0 as <-.
    wsimpl in Hbs. rewrite insert_last, lookup_last in Hbs. injection Hbs as <-.
    wsimpl. rewrite insert_last, overlay_length by exact Hle.
    repeat split; try reflexivity; try assumption.
Qed.

(** ** Role gating *)

(** C4: when the role is not the administrator's and the selector read
    is insert (4) or wipe (5), the iteration returns without calling the
    handler: the record file, its offset, the role and the output are as
    before, whatever follows the selector on the line.  Read backwards,
    an iteration with one of these selectors that changes the file was
    run in the privileged role. *)
Theorem gated_selectors_change_nothing (w : World) (line : block) (c : Z) (w1 : World) :
  uid w <> ADMIN_UID ->
  read_choice w = Ret (line, c) w1 -> c = 4 \/ c = 5 ->
  exists w', handle_choice w = Ret tt w' /\
             db_file w' = db_file w /\ db_pos w' = db_pos w /\
             uid w' = uid w /\ stdout w' = stdout w /\ wr w' = wr w.
Proof.
  intros Hu Hr Hc.
  destruct (read_choice_Ret _ _ _ _ Hr) as
    (-> & bs & s & Hh & _ & _ & _ & Hu1 & Hf1 & Hp1 & Ho1 & _ & _ & Hw1 & _).
  unfold handle_choice. rewrite (bind_ret _ _ _ _ _ Hr). cbv beta iota.
  assert (Hd : dispatch (length (heap w)) c w1 = Ret tt w1).
  { unfold dispatch, IS_ADMIN, get_uid, bind, ret.
    assert (Hn : (uid w1 =? ADMIN_UID) = false) by (apply Z.eqb_neq; congruence).
    destruct Hc as [-> | ->]; cbn [Z.eqb Pos.eqb]; rewrite Hn; reflexivity. }
  rewrite (bind_ret _ _ _ _ _ Hd).
  erewrite free_live by (rewrite Hh; apply lookup_last).
  eexists. split; [reflexivity|]. wsimpl. auto 10.
Qed.

Lemma gated_selectors_change_nothing_witness :
  exists w', handle_choice (user_world one_record (bytes_of "4 beta" ++ [LF])) = Ret tt w' /\
             db_file w' = one_record /\ db_pos w' = 0%nat /\
             uid w' = USER_UID /\ stdout w' = [] /\ wr w' = [].
Proof.
  eapply (gated_selectors_change_nothing
            (user_world one_record (bytes_of "4 beta" ++ [LF])) 0%nat 4).
  - discriminate.
  - vm_compute. reflexivity.
  - left. reflexivity.
Defined.

(** ** Wipe confirmation *)

Lemma overlay_head mem d :
  d <> [] -> hd NUL (overlay mem 0 d) = hd NUL d.
Proof. destruct d; [congruence|]. reflexivity. Qed.

(** C5, as the code has it: [drop_db] takes one line from the console
    (up to [SIZE - 1] characters, through the newline) and looks at its
    first character only.  Whenever a character is read, the store is
    emptied if that character is [y] and is left as it was otherwise,
    an empty line included; role and file offset are kept. *)
Theorem drop_db_decides_on_first_character (w : World) (c : byte) (rest : list byte) :
  stdin w = c :: rest ->
  exists w',
    drop_db w = Ret tt w' /\
    stdin w' = snd (fgets_chars (SIZE - 1) (stdin w)) /\
    db_file w' = (if decide (c = "y"%byte) then [] else db_file w) /\
    db_pos w' = db_pos w /\ uid w' = uid w.
Proof.
  intros Hin. unfold drop_db.
  erewrite bind_ret by reflexivity. cbv beta.
  erewrite bind_ret by reflexivity. cbv beta.
  pose proof (fgets_chars_head (SIZE - 1) c rest ltac:(unfold SIZE; simpl; lia)) as Hhd.
  pose proof (fgets_chars_nonempty (SIZE - 1) c rest ltac:(unfold SIZE; simpl; lia)) as Hne.
  unfold bind at 1. unfold fgets_local, printf, print. wsimpl. rewrite Hin.
  destruct (fgets_chars (SIZE - 1) (c :: rest)) as [chars rest'] eqn:Ef.
  cbn [fst snd] in *.
  destruct chars as [|x chars]; [congruence|]. cbn [hd] in Hhd. subst x.
  rewrite overlay_head by discriminate. cbn [app hd].
  destruct (decide (c = "y"%byte)) as [->|Hc].
  - eexists. split; [reflexivity|]. wsimpl. auto.
  - eexists. split; [reflexivity|]. wsimpl. auto.
Qed.

Lemma drop_db_decides_on_first_character_witness :
  exists w',
    drop_db (admin_world one_record [LF]) = Ret tt w' /\
    stdin w' = [] /\ db_file w' = one_record /\
    db_pos w' = 0%nat /\ uid w' = ADMIN_UID.
Proof.
  apply (drop_db_decides_on_first_character (admin_world one_record [LF]) LF []).
  reflexivity.
Defined.

(** C5 as first stated fails twice.  The confirmation consumes the whole
    line [yes], four characters, not one; and with no input at all
    [fgets] stores nothing, the test reads the array as it was found,
    and here the store is emptied. *)
Lemma drop_db_reads_a_line_and_unset_buffer :
  (length (stdin (admin_world one_record yes_then_query)) -
   length (stdin (world_of (drop_db (admin_world one_record yes_then_query)))) = 4)%nat /\
  stdin silent_world = [] /\
  db_file silent_world <> [] /\
  db_file (world_of (drop_db silent_world)) = [].
Proof.
  split; [reflexivity|]. split; [reflexivity|]. split; [discriminate|reflexivity].
Qed.

(** ** Bounded comparison of stored strings *)

Lemma cstrn_terminated n x r :
  Forall (fun b => not_nul b = true) x -> (length x < n)%nat ->
  cstrn n (x ++ NUL :: r) = x.
Proof.
  intros Hx Hlen. unfold cstrn. rewrite take_app_ge by lia.
  destruct (n - length x)%nat as [|k] eqn:E; [lia|]. cbn [take firstn].
  apply take_while_app_stop; [exact Hx|reflexivity].
Qed.

Lemma cstrn_literal n x :
  Forall (fun b => not_nul b = true) x -> (length x <= n)%nat -> cstrn n x = x.
Proof.
  intros Hx Hlen. unfold cstrn. rewrite take_ge by lia.
  apply take_while_all, Hx.
Qed.

(** Comparing a stored token with a string literal is comparing the two
    texts. *)
Lemma streq_token mem tok lit :
  Forall (fun b => not_nul b = true) tok -> (length tok < SIZE)%nat ->
  Forall (fun b => not_nul b = true) lit -> (length lit <= SIZE)%nat ->
  (length tok + 1 <= length mem)%nat ->
  streq (overlay mem 0 (tok ++ [NUL])) lit = bool_decide (tok = lit).
Proof.
  intros Ht Hlt Hl Hll Hm. unfold streq. rewrite strncmp_eq_cstrn.
  unfold overlay. rewrite take_0. cbn [app]. rewrite <- app_assoc. cbn [app].
  rewrite cstrn_terminated, cstrn_literal by assumption. reflexivity.
Qed.

Lemma streq_tokens tok lit :
  Forall (fun b => not_nul b = true) tok -> (length tok < SIZE)%nat ->
  Forall (fun b => not_nul b = true) lit -> (length lit <= SIZE)%nat ->
  streq tok lit = bool_decide (tok = lit).
Proof.
  intros Ht Hlt Hl Hll. unfold streq. rewrite strncmp_eq_cstrn.
  rewrite !cstrn_literal by (assumption || lia). reflexivity.
Qed.

(** ** [fgets] into a live buffer *)

Lemma set_same w : set_heap (heap w) (set_stdin (stdin w) w) = w.
Proof. destruct w; reflexivity. Qed.

Lemma fgets_live w b bs :
  heap w !! b = Some (Cell true bs) -> length bs = SIZE ->
  fgets b w =
  Ret tt (set_heap (<[b := Cell true
                       (after_fgets bs (fst (fgets_chars (SIZE - 1) (stdin w))))]> (heap w))
                   (set_stdin (snd (fgets_chars (SIZE - 1) (stdin w))) w)).
Proof.
  intros Hb Hlen. unfold fgets.
  pose proof (fgets_chars_length (SIZE - 1) (stdin w)) as Hl.
  pose proof (fgets_chars_split (SIZE - 1) (stdin w)) as Hsp.
  destruct (fgets_chars (SIZE - 1) (stdin w)) as [[|c chars] rest];
    cbn [fst snd after_fgets app] in *.
  - rewrite list_insert_id by exact Hb. rewrite Hsp, set_same. reflexivity.
  - erewrite store_live; [reflexivity|wsimpl; exact Hb|].
    rewrite Hlen. unfold SIZE in *. simpl in *. rewrite length_app. simpl. lia.
Qed.

Lemma after_fgets_length bs chars :
  length bs = SIZE -> (length chars <= SIZE - 1)%nat ->
  length (after_fgets bs chars) = SIZE.
Proof.
  intros Hb Hc. destruct chars as [|c chars]; [exact Hb|].
  unfold after_fgets. rewrite overlay_length; [exact Hb|].
  rewrite length_app. unfold SIZE in *. simpl in *. lia.
Qed.

Lemma after_fgets_cstr bs chars s :
  cstr bs = Some s ->
  cstr (after_fgets bs chars) = Some (match chars with [] => s | _ => typed chars end).
Proof.
  intros Hs. destruct chars as [|c chars]; [exact Hs|].
  unfold after_fgets, overlay. rewrite take_0, app_nil_l, <- app_assoc.
  apply cstr_typed.
Qed.

Lemma take_while_take {A} (p : A -> bool) l :
  take (length (take_while p l)) l = take_while p l.
Proof.
  induction l as [|a l IH]; simpl; [reflexivity|].
  destruct (p a); simpl; [rewrite IH|]; reflexivity.
Qed.

Lemma cstrn_strip mem t :
  cstr mem = Some t -> length mem = SIZE ->
  cstrn SIZE (overlay mem (strcspn_crlf t) [NUL]) = stripped mem.
Proof.
  intros Ht Hlen. unfold stripped. rewrite Ht. cbn [default from_option id].
  pose proof (cstr_length _ _ Ht) as Hl.
  destruct (cstr_Some _ _ Ht) as (Hn & r & ->).
  unfold strcspn_crlf. fold not_crlf.
  pose proof (take_while_length not_crlf t) as Hk.
  unfold overlay. rewrite take_app_le by exact Hk.
  rewrite take_while_take. cbn [app].
  apply cstrn_terminated.
  - apply take_while_sub, Hn.
  - lia.
Qed.

(** ** Heaps with two blocks on top *)

Lemma top2_lookup_0 (h : list cell) x y n :
  n = length h -> (h ++ [x; y]) !! n = Some x.
Proof. intros ->. apply list_lookup_middle. reflexivity. Qed.

Lemma top2_lookup_1 (h : list cell) x y n :
  n = S (length h) -> (h ++ [x; y]) !! n = Some y.
Proof.
  intros ->. rewrite lookup_app_r by lia.
  replace (S (length h) - length h)%nat with 1%nat by lia. reflexivity.
Qed.

Lemma top2_lookup_old (h : list cell) x y b c :
  h !! b = Some c -> (h ++ [x; y]) !! b = Some c.
Proof. intros H. apply lookup_app_l_Some. exact H. Qed.

Lemma top2_insert_0 (h : list cell) x y x' n :
  n = length h -> <[n := x']> (h ++ [x; y]) = h ++ [x'; y].
Proof.
  intros ->. replace (length h) with (length h + 0)%nat by lia.
  rewrite insert_app_r. reflexivity.
Qed.

Lemma top2_insert_1 (h : list cell) x y y' n :
  n = S (length h) -> <[n := y']> (h ++ [x; y]) = h ++ [x; y'].
Proof.
  intros ->. replace (S (length h)) with (length h + 1)%nat by lia.
  rewrite insert_app_r. reflexivity.
Qed.

Lemma top2_insert_old (h : list cell) x y b c :
  (b < length h)%nat -> <[b := c]> (h ++ [x; y]) = <[b := c]> h ++ [x; y].
Proof. intros H. apply insert_app_l. exact H. Qed.

(** ** [change_user], path by path *)

Lemma fresh_length w b : length (fresh w b) = SIZE.
Proof. unfold fresh. rewrite length_map, length_seq. reflexivity. Qed.

Section ChangeUser.
Variables (w : World) (line : block) (bs s : list byte).
Hypothesis Hline : heap w !! line = Some (Cell true bs).
Hypothesis Hsize : length bs = SIZE.
Hypothesis Hs : cstr bs = Some s.

Lemma line_below : (line < length (heap w))%nat.
Proof. eapply lookup_lt_Some, Hline. Qed.

Lemma token_facts tok :
  sscanf_skip_s s = Some tok ->
  Forall (fun b => not_nul b = true) tok /\ (length tok + 2 < SIZE)%nat.
Proof.
  intros Ht. destruct (sscanf_skip_s_Some _ _ Ht) as (_ & _ & Hl).
  destruct (cstr_Some _ _ Hs) as (Hn & _).
  pose proof (cstr_length _ _ Hs). split.
  - eapply sscanf_skip_s_sub; eassumption.
  - lia.
Qed.

(** No name on the line: rejected, the array released. *)
Lemma change_user_no_name :
  sscanf_skip_s s = None ->
  change_user line w =
  Ret tt (set_frees (frees w ++ [length (heap w)])
           (set_heap (heap w ++ [Cell false (fresh w (length (heap w)))])
             (set_stdout (stdout w ++ [Puts "Invalid username."]) w))).
Proof.
  intros Hn. unfold change_user.
  erewrite bind_ret by reflexivity. cbv beta.
  erewrite bind_ret.
  2:{ eapply load_cstr_live; [wsimpl; apply lookup_old, Hline | exact Hs]. }
  cbv beta. rewrite Hn.
  erewrite bind_ret by reflexivity. cbv beta.
  erewrite free_live by (wsimpl; apply lookup_last).
  wsimpl. rewrite insert_last. reflexivity.
Qed.

(** The run up to the comparison of the name. *)
Lemma change_user_named tok :
  sscanf_skip_s s = Some tok ->
  change_user line w =
  (if bool_decide (tok = bytes_of "user") then
     put_uid USER_UID;; puts "Switched to user.";; free (length (heap w))
   else if negb (bool_decide (tok = bytes_of "admin")) then
     puts "Invalid username.";; free (length (heap w))
   else
     password <- malloc SIZE;;
     fd <- (fun w => Ret (pw_file w) w);;
     match fd with
     | None => puts "Error opening file";; exit 1
     | Some secret =>
         store password 0 (take SIZE secret);;
         printf "Enter password: ";;
         fgets line;;
         printf "\033[A\33[2K\r";;
         typed <- load_cstr line 0;;
         store line (strcspn_crlf typed) [NUL];;
         l <- load line;;
         p <- load password;;
         (if streq l p
          then put_uid ADMIN_UID;; puts "Switched to admin."
          else puts "Incorrect password!");;
         store password 0 (repeat NUL SIZE);;
         store line 0 (repeat NUL SIZE);;
         free password;;
         free (length (heap w))
     end)
    (set_heap (heap w ++ [Cell true (username_bytes w tok)]) w).
Proof.
  intros Ht. destruct (token_facts tok Ht) as (Hnul & Hlen).
  unfold change_user.
  erewrite bind_ret by reflexivity. cbv beta.
  erewrite bind_ret.
  2:{ eapply load_cstr_live; [wsimpl; apply lookup_old, Hline | exact Hs]. }
  cbv beta. rewrite Ht.
  erewrite bind_ret.
  2:{ eapply store_live; [wsimpl; apply lookup_last|].
      rewrite length_map, length_seq, length_app. unfold SIZE in *. simpl. lia. }
  cbv beta. wsimpl. rewrite insert_last. fold (fresh w (length (heap w))).
  fold (username_bytes w tok).
  erewrite bind_ret by (eapply load_live; wsimpl; apply lookup_last).
  cbv beta.
  unfold username_bytes.
  assert (Hroom : (length tok + 1 <= length (fresh w (length (heap w))))%nat).
  { rewrite fresh_length. unfold SIZE in *. lia. }
  assert (Hlit : forall lit : string, Forall (fun b => not_nul b = true) (bytes_of lit) ->
            (length (bytes_of lit) <= SIZE)%nat ->
            streq (overlay (fresh w (length (heap w))) 0 (tok ++ [NUL])) (bytes_of lit)
            = bool_decide (tok = bytes_of lit)).
  { intros lit H1 H2. apply streq_token; try assumption. unfold SIZE in *. lia. }
  rewrite !Hlit; [reflexivity| | | |]; try (repeat constructor); unfold SIZE; simpl; lia.
Qed.
End ChangeUser.

Section ChangeUserPaths.
Variables (w : World) (line : block) (bs s tok : list byte).
Hypothesis Hline : heap w !! line = Some (Cell true bs).
Hypothesis Hsize : length bs = SIZE.
Hypothesis Hs : cstr bs = Some s.
Hypothesis Htok : sscanf_skip_s s = Some tok.

(** The name [user]: the role becomes the user's, whatever it was. *)
Lemma change_user_user :
  tok = bytes_of "user" ->
  change_user line w =
  Ret tt (set_frees (frees w ++ [length (heap w)])
           (set_heap (heap w ++ [Cell false (username_bytes w tok)])
             (set_stdout (stdout w ++ [Puts "Switched to user."])
               (set_uid USER_UID w)))).
Proof.
  intros Hu. rewrite (change_user_named w line bs s Hline Hsize Hs tok Htok).
  rewrite bool_decide_eq_true_2 by exact Hu.
  erewrite bind_ret by reflexivity. cbv beta.
  erewrite bind_ret by reflexivity. cbv beta.
  erewrite free_live by (wsimpl; apply lookup_last).
  wsimpl. rewrite insert_last. reflexivity.
Qed.

(** Any other name but [admin]: rejected, nothing but the output changes. *)
Lemma change_user_other :
  tok <> bytes_of "user" -> tok <> bytes_of "admin" ->
  change_user line w =
  Ret tt (set_frees (frees w ++ [length (heap w)])
           (set_heap (heap w ++ [Cell false (username_bytes w tok)])
             (set_stdout (stdout w ++ [Puts "Invalid username."]) w))).
Proof.
  intros Hu Ha. rewrite (change_user_named w line bs s Hline Hsize Hs tok Htok).
  rewrite !bool_decide_eq_false_2 by assumption. cbn [negb].
  erewrite bind_ret by reflexivity. cbv beta.
  erewrite free_live by (wsimpl; apply lookup_last).
  wsimpl. rewrite insert_last. reflexivity.
Qed.

(** The name [admin] when the secret file cannot be opened: the process
    exits with status 1, both arrays still allocated. *)
Lemma change_user_no_file :
  tok = bytes_of "admin" -> pw_file w = None ->
  change_user line w =
  Exit 1 (set_stdout (stdout w ++ [Puts "Error opening file"])
           (set_heap (heap w ++ [Cell true (username_bytes w tok);
                                 Cell true (fresh w (S (length (heap w))))]) w)).
Proof.
  intros Ha Hp. rewrite (change_user_named w line bs s Hline Hsize Hs tok Htok).
  rewrite bool_decide_eq_false_2 by (rewrite Ha; discriminate).
  rewrite bool_decide_eq_true_2 by exact Ha. cbn [negb].
  erewrite bind_ret by reflexivity. cbv beta.
  erewrite bind_ret by reflexivity. cbv beta.
  wsimpl. rewrite Hp. unfold bind, puts, print, exit. wsimpl.
  rewrite <- app_assoc. cbn [app]. unfold fresh.
  rewrite length_app. cbn [length]. rewrite Nat.add_1_r. reflexivity.
Qed.

(** The name [admin] with the secret file at hand: the prompt is
    answered from the console, the role becomes the administrator's when
    the typed text equals the reference text and stays otherwise; both
    arrays are overwritten with zeros, then [password] and [username]
    are released, in this order, and the line buffer is left live. *)
Lemma change_user_admin secret :
  tok = bytes_of "admin" -> pw_file w = Some secret ->
  exists w',
    change_user line w = Ret tt w' /\
    uid w' = (if decide (typed_secret bs (stdin w) = reference_secret w secret)
              then ADMIN_UID else uid w) /\
    heap w' = <[line := Cell true (repeat NUL SIZE)]> (heap w) ++
              [Cell false (username_bytes w tok); Cell false (repeat NUL SIZE)] /\
    frees w' = frees w ++ [S (length (heap w)); length (heap w)] /\
    stdin w' = snd (fgets_chars (SIZE - 1) (stdin w)) /\
    db_file w' = db_file w /\ db_pos w' = db_pos w /\ wr w' = wr w /\
    pw_file w' = pw_file w.
Proof.
  intros Ha Hp. rewrite (change_user_named w line bs s Hline Hsize Hs tok Htok).
  rewrite bool_decide_eq_false_2 by (rewrite Ha; discriminate).
  rewrite bool_decide_eq_true_2 by exact Ha. cbn [negb].
  pose proof (line_below w line bs Hline) as Hlt.
  set (U := username_bytes w tok).
  (* password = malloc(SIZE) *)
  erewrite bind_ret by reflexivity. cbv beta.
  erewrite bind_ret by reflexivity. cbv beta.
  wsimpl. rewrite Hp. rewrite <- app_assoc. cbn [app].
  rewrite length_app. cbn [length]. rewrite Nat.add_1_r.
  fold (fresh w (S (length (heap w)))).
  (* read(fd, password, SIZE) *)
  erewrite bind_ret.
  2:{ eapply store_live; [wsimpl; apply top2_lookup_1; reflexivity|].
      rewrite fresh_length, length_take. unfold SIZE. lia. }
  cbv beta. wsimpl. rewrite top2_insert_1 by reflexivity.
  fold (password_bytes w secret). set (P := password_bytes w secret).
  erewrite bind_ret by reflexivity. cbv beta.
  (* fgets(line, SIZE, stdin) *)
  erewrite bind_ret.
  2:{ eapply fgets_live; [wsimpl; apply top2_lookup_old, Hline | exact Hsize]. }
  cbv beta. wsimpl. rewrite top2_insert_old by exact Hlt.
  set (L1 := after_fgets bs _).
  assert (HL1 : length L1 = SIZE).
  { apply after_fgets_length; [exact Hsize|apply fgets_chars_length]. }
  assert (Ht1 : exists t1, cstr L1 = Some t1)
    by (eexists; apply after_fgets_cstr, Hs).
  destruct Ht1 as [t1 Ht1].
  erewrite bind_ret by reflexivity. cbv beta.
  (* line[strcspn(line, "\r\n")] = 0 *)
  erewrite bind_ret.
  2:{ eapply load_cstr_live.
      - wsimpl. apply top2_lookup_old, list_lookup_insert_eq, Hlt.
      - rewrite drop_0. exact Ht1. }
  cbv beta.
  pose proof (cstr_length _ _ Ht1) as Hlt1.
  assert (Hk : (strcspn_crlf t1 <= length t1)%nat) by apply take_while_length.
  erewrite bind_ret.
  2:{ eapply store_live.
      - wsimpl. apply top2_lookup_old, list_lookup_insert_eq, Hlt.
      - simpl. lia. }
  cbv beta. wsimpl.
  rewrite top2_insert_old by (rewrite length_insert; exact Hlt).
  rewrite list_insert_insert_eq.
  set (L2 := overlay L1 _ _).
  assert (HL2 : length L2 = SIZE).
  { unfold L2. rewrite overlay_length; [exact HL1|]. simpl. lia. }
  (* streq(line, password) *)
  erewrite bind_ret.
  2:{ eapply load_live. wsimpl. apply top2_lookup_old, list_lookup_insert_eq, Hlt. }
  cbv beta.
  erewrite bind_ret.
  2:{ eapply load_live. wsimpl. apply top2_lookup_1.
      rewrite length_insert. reflexivity. }
  cbv beta.
  assert (Hcmp : streq L2 P = bool_decide (typed_secret bs (stdin w) = reference_secret w secret)).
  { unfold streq. rewrite strncmp_eq_cstrn. unfold L2.
    rewrite (cstrn_strip L1 t1 Ht1 HL1). reflexivity. }
  rewrite Hcmp.
  assert (Hlenp : length P = SIZE).
  { unfold P, password_bytes. rewrite overlay_length; [apply fresh_length|].
    rewrite fresh_length, length_take. unfold SIZE. lia. }
  (* both outcomes end alike *)
  assert (Hend : forall w0 : World,
    heap w0 = <[line := Cell true L2]> (heap w) ++ [Cell true U; Cell true P] ->
    exists w',
      (store (S (length (heap w))) 0 (repeat NUL SIZE);;
       store line 0 (repeat NUL SIZE);;
       free (S (length (heap w)));;
       free (length (heap w))) w0 = Ret tt w' /\
      uid w' = uid w0 /\
      heap w' = <[line := Cell true (repeat NUL SIZE)]> (heap w) ++
                [Cell false U; Cell false (repeat NUL SIZE)] /\
      frees w' = frees w0 ++ [S (length (heap w)); length (heap w)] /\
      stdin w' = stdin w0 /\ db_file w' = db_file w0 /\
      db_pos w' = db_pos w0 /\ wr w' = wr w0 /\ pw_file w' = pw_file w0).
  { intros w0 Hh.
    erewrite bind_ret.
    2:{ eapply store_live.
        - rewrite Hh. apply top2_lookup_1. rewrite length_insert. reflexivity.
        - rewrite Hlenp, repeat_length. lia. }
    cbv beta. rewrite Hh, top2_insert_1 by (rewrite length_insert; reflexivity).
    rewrite overlay_all by (rewrite repeat_length, Hlenp; reflexivity).
    erewrite bind_ret.
    2:{ eapply store_live.
        - wsimpl. apply top2_lookup_old, list_lookup_insert_eq, Hlt.
        - rewrite HL2, repeat_length. lia. }
    cbv beta. wsimpl.
    rewrite top2_insert_old by (rewrite length_insert; exact Hlt).
    rewrite list_insert_insert_eq.
    rewrite overlay_all by (rewrite repeat_length, HL2; reflexivity).
    erewrite bind_ret.
    2:{ eapply free_live. wsimpl. apply top2_lookup_1.
        rewrite length_insert. reflexivity. }
    cbv beta. wsimpl.
    rewrite top2_insert_1 by (rewrite length_insert; reflexivity).
    erewrite free_live.
    2:{ wsimpl. apply top2_lookup_0. rewrite length_insert. reflexivity. }
    wsimpl. rewrite top2_insert_0 by (rewrite length_insert; reflexivity).
    eexists. split; [reflexivity|]. wsimpl.
    rewrite <- app_assoc. auto 10. }
  destruct (decide (typed_secret bs (stdin w) = reference_secret w secret)) as [Heq|Hne].
  - rewrite bool_decide_eq_true_2 by exact Heq.
    erewrite bind_ret by reflexivity. cbv beta.
    edestruct Hend as (w' & Hrun & Hu & Hh & Hf & Hi & Hd & Hpos & Hw & Hpw);
      [|rewrite Hrun; eexists; split; [reflexivity|]].
    + wsimpl. reflexivity.
    + wsimpl in Hu. wsimpl in Hf. wsimpl in Hi. wsimpl in Hd. wsimpl in Hpos.
      wsimpl in Hw. wsimpl in Hpw. repeat split; try assumption; congruence.
  - rewrite bool_decide_eq_false_2 by exact Hne.
    erewrite bind_ret by reflexivity. cbv beta.
    edestruct Hend as (w' & Hrun & Hu & Hh & Hf & Hi & Hd & Hpos & Hw & Hpw);
      [|rewrite Hrun; eexists; split; [reflexivity|]].
    + wsimpl. reflexivity.
    + wsimpl in Hu. wsimpl in Hf. wsimpl in Hi. wsimpl in Hd. wsimpl in Hpos.
      wsimpl in Hw. wsimpl in Hpw. repeat split; try assumption; congruence.
Qed.
End ChangeUserPaths.

(** When the file holds the secret followed by a NUL, that secret is the
    reference text; a typed line without NUL or CR is the typed text. *)
Lemma reference_secret_terminated w ref more :
  Forall (fun b => not_nul b = true) ref -> (length ref < SIZE)%nat ->
  reference_secret w (ref ++ NUL :: more) = ref.
Proof.
  intros Hn Hl. unfold reference_secret, password_bytes, overlay.
  rewrite take_0, app_nil_l, take_app_ge by lia.
  destruct (SIZE - length ref)%nat as [|k] eqn:E; [lia|].
  cbn [take firstn]. rewrite <- app_assoc. cbn [app].
  apply cstrn_terminated; assumption.
Qed.

Lemma after_fgets_cstr_chars bs chars :
  chars <> [] -> cstr (after_fgets bs chars) = Some (typed chars).
Proof.
  intros Hne. destruct chars as [|c chars]; [congruence|].
  unfold after_fgets, overlay. rewrite take_0, app_nil_l, <- app_assoc.
  apply cstr_typed.
Qed.

Lemma typed_secret_line bs body rest :
  Forall (fun b => not_nul b = true) body ->
  Forall (fun b => not_crlf b = true) body ->
  (length body < SIZE - 1)%nat ->
  typed_secret bs (body ++ LF :: rest) = body.
Proof.
  intros Hn Hc Hl. unfold typed_secret.
  assert (Hlf : LF ∉ body).
  { intros Hin. rewrite Forall_forall in Hc. specialize (Hc _ Hin).
    discriminate. }
  rewrite fgets_chars_line by assumption. cbn [fst].
  unfold stripped.
  rewrite after_fgets_cstr_chars by (destruct body; discriminate).
  cbn [default from_option id].
  unfold typed. rewrite (take_while_all not_nul).
  - apply take_while_app_stop; [exact Hc|reflexivity].
  - apply Forall_app. split; [exact Hn|]. repeat constructor.
Qed.

(** X14.  With a secret file that holds the secret and its terminator, and a
    prompt answered by a plain line, the role is the administrator's
    exactly when the line is the secret. *)
Lemma change_user_admin_login w line bs s ref more body rest :
  heap w !! line = Some (Cell true bs) -> length bs = SIZE -> cstr bs = Some s ->
  sscanf_skip_s s = Some (bytes_of "admin") ->
  pw_file w = Some (ref ++ NUL :: more) ->
  Forall (fun b => not_nul b = true) ref -> (length ref < SIZE)%nat ->
  stdin w = body ++ LF :: rest ->
  Forall (fun b => not_nul b = true) body ->
  Forall (fun b => not_crlf b = true) body -> (length body < SIZE - 1)%nat ->
  exists w',
    change_user line w = Ret tt w' /\
    uid w' = (if decide (body = ref) then ADMIN_UID else uid w) /\
    stdin w' = rest.
Proof.
  intros Hline Hsize Hs Htok Hp Hr Hrl Hin Hb Hc Hbl.
  destruct (change_user_admin w line bs s _ Hline Hsize Hs Htok _ eq_refl Hp)
    as (w' & Hrun & Hu & _ & _ & Hi & _).
  exists w'. split; [exact Hrun|].
  rewrite Hin, typed_secret_line, reference_secret_terminated in Hu by assumption.
  split; [exact Hu|].
  assert (Hlf : LF ∉ body).
  { intros Hl. rewrite Forall_forall in Hc. specialize (Hc _ Hl). discriminate. }
  rewrite Hi, Hin, fgets_chars_line by assumption. reflexivity.
Qed.

(** C3, as the code has it: [change_user] on a live, terminated line
    buffer.  The name [user] always succeeds and sets the role to the
    user's.  For the name [admin], with a secret file that holds the
    secret (fewer than [SIZE] bytes, none of them NUL) followed by a
    NUL, and the prompt answered by a line of fewer than [SIZE - 1]
    characters (no NUL, no CR): the role becomes the administrator's
    when the line is the secret and stays as it was when it is not; the
    answer line is consumed either way, and the process ends with
    status 1 when the secret file cannot be opened.  Any other name, or
    none, changes neither the role nor the pending input.  The record
    file is never touched. *)
Theorem change_user_role_transitions (w : World) (line : block) (bs s : list byte) :
  heap w !! line = Some (Cell true bs) -> length bs = SIZE -> cstr bs = Some s ->
  match sscanf_skip_s s with
  | Some tok =>
      if decide (tok = bytes_of "user") then
        exists w', change_user line w = Ret tt w' /\ uid w' = USER_UID /\
                   db_file w' = db_file w
      else if decide (tok = bytes_of "admin") then
        (pw_file w = None ->
         exists w', change_user line w = Exit 1 w' /\ uid w' = uid w /\
                    db_file w' = db_file w) /\
        (forall ref more body rest,
           pw_file w = Some (ref ++ NUL :: more) ->
           Forall (fun b => not_nul b = true) ref -> (length ref < SIZE)%nat ->
           stdin w = body ++ LF :: rest ->
           Forall (fun b => not_nul b = true) body ->
           Forall (fun b => not_crlf b = true) body ->
           (length body < SIZE - 1)%nat ->
           exists w', change_user line w = Ret tt w' /\
                      uid w' = (if decide (body = ref) then ADMIN_UID else uid w) /\
                      stdin w' = rest /\ db_file w' = db_file w)
      else
        exists w', change_user line w = Ret tt w' /\ uid w' = uid w /\
                   stdin w' = stdin w /\ db_file w' = db_file w
  | None =>
      exists w', change_user line w = Ret tt w' /\ uid w' = uid w /\
                 stdin w' = stdin w /\ db_file w' = db_file w
  end.
Proof.
  intros Hline Hsize Hs.
  destruct (sscanf_skip_s s) as [tok|] eqn:Htok.
  - destruct (decide (tok = bytes_of "user")) as [Hu|Hu].
    + eexists. split; [eapply change_user_user; eassumption|]. split; reflexivity.
    + destruct (decide (tok = bytes_of "admin")) as [Ha|Ha].
      * split.
        -- intros Hp. eexists.
           split; [eapply change_user_no_file; eassumption|]. split; reflexivity.
        -- intros ref more body rest Hp Hr Hrl Hin Hb Hc Hbl.
           destruct (change_user_admin w line bs s tok Hline Hsize Hs Htok _ Ha Hp)
             as (w' & Hrun & Huid & _ & _ & Hi & Hd & _).
           exists w'. split; [exact Hrun|].
           rewrite Hin, typed_secret_line, reference_secret_terminated in Huid
             by assumption.
           split; [exact Huid|]. split; [|exact Hd].
           assert (Hlf : LF ∉ body).
           { intros Hl. rewrite Forall_forall in Hc. specialize (Hc _ Hl).
             discriminate. }
           rewrite Hi, Hin, fgets_chars_line by assumption. reflexivity.
      * eexists. split; [eapply change_user_other; eassumption|].
        repeat split; reflexivity.
  - eexists. split; [eapply change_user_no_name; eassumption|].
    repeat split; reflexivity.
Qed.

Lemma change_user_role_transitions_witness :
  exists w',
    change_user 0%nat
      (at_prompt (Some (bytes_of "secret" ++ [NUL])) (bytes_of "secret" ++ [LF]))
      = Ret tt w' /\
    uid w' = ADMIN_UID /\ stdin w' = [] /\ db_file w' = one_record.
Proof.
  pose proof (change_user_role_transitions
                (at_prompt (Some (bytes_of "secret" ++ [NUL])) (bytes_of "secret" ++ [LF]))
                0%nat admin_request (bytes_of "2 admin" ++ [LF])
                eq_refl eq_refl eq_refl) as H.
  assert (Hs : sscanf_skip_s (bytes_of "2 admin" ++ [LF]) = Some (bytes_of "admin"))
    by reflexivity.
  rewrite Hs in H.
  destruct (decide (bytes_of "admin" = bytes_of "user")) as [E|_]; [discriminate E|].
  destruct (decide (bytes_of "admin" = bytes_of "admin")) as [_|E]; [|congruence].
  destruct H as [_ H].
  assert (Hn : Forall (fun b => not_nul b = true) (bytes_of "secret"))
    by (repeat constructor).
  assert (Hc : Forall (fun b => not_crlf b = true) (bytes_of "secret"))
    by (repeat constructor).
  assert (H1 : (length (bytes_of "secret") < SIZE)%nat) by (vm_compute; lia).
  assert (H2 : (length (bytes_of "secret") < SIZE - 1)%nat) by (vm_compute; lia).
  exact (H (bytes_of "secret") [] (bytes_of "secret") [] eq_refl Hn H1 eq_refl Hn Hc H2).
Defined.

(** C3 as first stated fails: the secret on file, typed at the prompt,
    is not always accepted.  The comparison reads the [password] array
    as [read] left it: with a file that holds the secret and nothing
    after it, the bytes after the secret are what [malloc] delivered
    (here the letter [x]); with a file saved with its line end, the
    newline is part of what is compared.  Either way the answer is
    refused and the role stays the user's. *)
Lemma typing_the_secret_may_be_refused :
  (pw_file (login_world "secret") = Some (bytes_of "secret") /\
   exists w', handle_choice (login_world "secret") = Ret tt w' /\
              uid w' = USER_UID /\
              last (stdout w') = Some (Puts "Incorrect password!")) /\
  (pw_file saved_with_newline = Some (bytes_of "secret" ++ [LF]) /\
   exists w', handle_choice saved_with_newline = Ret tt w' /\
              uid w' = USER_UID /\
              last (stdout w') = Some (Puts "Incorrect password!")).
Proof.
  split; (split; [reflexivity|]); eexists;
    (split; [vm_compute; reflexivity|]); split; reflexivity.
Qed.

(** ** Zeroing of the secrets *)

(** C7: on the [admin] path with the secret file at hand, whatever is
    typed, the iteration returns with the [password] array and the line
    buffer both released and both holding [SIZE] zero bytes.  A released
    block keeps the bytes it held at its [free] and can no longer be
    written, so both were zeroed before their release; the releases are
    [password], [username], then the line buffer. *)
Theorem secrets_zeroed_before_release
    (w : World) (line : block) (w1 : World) (bs s secret : list byte) :
  read_choice w = Ret (line, 2) w1 ->
  heap w1 !! line = Some (Cell true bs) -> cstr bs = Some s ->
  sscanf_skip_s s = Some (bytes_of "admin") ->
  pw_file w = Some secret ->
  exists w',
    handle_choice w = Ret tt w' /\
    heap w' !! line = Some (Cell false (repeat NUL SIZE)) /\
    heap w' !! S (S line) = Some (Cell false (repeat NUL SIZE)) /\
    frees w' = frees w ++ [S (S line); S line; line].
Proof.
  intros Hr Hb Hs Htok Hp.
  destruct (read_choice_Ret _ _ _ _ Hr) as
    (-> & bs' & s' & Hh & Hlen & _ & _ & _ & _ & _ & _ & Hf1 & Hp1 & _).
  assert (bs' = bs) as ->.
  { rewrite Hh, lookup_last in Hb. congruence. }
  destruct (change_user_admin w1 (length (heap w)) bs s (bytes_of "admin")
              Hb Hlen Hs Htok secret eq_refl ltac:(congruence))
    as (w2 & Hrun & _ & Hh2 & Hf2 & _).
  unfold handle_choice. rewrite (bind_ret _ _ _ _ _ Hr). cbv beta iota.
  unfold dispatch. cbn [Z.eqb Pos.eqb].
  rewrite (bind_ret _ _ _ _ _ Hrun).
  assert (Hlt : (length (heap w) < length (heap w1))%nat).
  { rewrite Hh, length_app. simpl. lia. }
  erewrite free_live.
  2:{ rewrite Hh2. apply top2_lookup_old, list_lookup_insert_eq, Hlt. }
  eexists. split; [reflexivity|]. wsimpl. rewrite Hh2, Hf2, Hf1.
  rewrite top2_insert_old by (rewrite length_insert; exact Hlt).
  rewrite list_insert_insert_eq.
  split; [|split].
  - apply top2_lookup_old, list_lookup_insert_eq, Hlt.
  - apply top2_lookup_1. rewrite length_insert, Hh, length_app. simpl. lia.
  - rewrite Hh, length_app, <- app_assoc. simpl.
    rewrite Nat.add_1_r. reflexivity.
Qed.

Lemma secrets_zeroed_before_release_witness :
  exists w',
    handle_choice (login_world "guess") = Ret tt w' /\
    heap w' !! 0%nat = Some (Cell false (repeat NUL SIZE)) /\
    heap w' !! 2%nat = Some (Cell false (repeat NUL SIZE)) /\
    frees w' = [] ++ [2; 1; 0]%nat.
Proof.
  eapply (secrets_zeroed_before_release (login_world "guess") 0%nat).
  - vm_compute. reflexivity.
  - vm_compute. reflexivity.
  - vm_compute. reflexivity.
  - vm_compute. reflexivity.
  - reflexivity.
Defined.

(** ** Which blocks [change_user] releases *)

(** C10, as the code has it: on a live, terminated line buffer
    [change_user] either returns or, on the [admin] path without a
    secret file, exits with status 1.  Whenever it returns it has
    released [username] (the block it allocated first) exactly once,
    after [password] (the second block) exactly once when that one was
    allocated; the line buffer is not among its releases and is still
    live.  When it exits it has released nothing. *)
Theorem change_user_releases_its_arrays (w : World) (line : block) (bs s : list byte) :
  heap w !! line = Some (Cell true bs) -> length bs = SIZE -> cstr bs = Some s ->
  (exists w' fs,
     change_user line w = Ret tt w' /\
     frees w' = frees w ++ fs /\
     (fs = [length (heap w)] /\ length (heap w') = S (length (heap w)) \/
      fs = [S (length (heap w)); length (heap w)] /\
      length (heap w') = S (S (length (heap w)))) /\
     (forall b c, heap w' !! b = Some c ->
        c_live c = false <->
        ((b ∈ fs) \/ exists c0, heap w !! b = Some c0 /\ c_live c0 = false)) /\
     (line ∉ fs) /\
     exists bs', heap w' !! line = Some (Cell true bs')) \/
  (exists w',
     change_user line w = Exit 1 w' /\ pw_file w = None /\
     sscanf_skip_s s = Some (bytes_of "admin") /\
     frees w' = frees w /\ length (heap w') = S (S (length (heap w)))).
Proof.
  intros Hline Hsize Hs.
  pose proof (line_below w line bs Hline) as Hlt.
  assert (Hne1 : line ∉ [length (heap w)]).
  { rewrite list_elem_of_singleton. lia. }
  assert (Hne2 : line ∉ [S (length (heap w)); length (heap w)]).
  { rewrite !not_elem_of_cons. repeat split; try lia. apply not_elem_of_nil. }
  assert (Hone : forall (x : cell) fs, fs = [length (heap w)] ->
    forall b c, (heap w ++ [Cell false (c_bytes x)]) !! b = Some c ->
      c_live c = false <->
      ((b ∈ fs) \/ exists c0, heap w !! b = Some c0 /\ c_live c0 = false)).
  { intros x fs -> b c Hb. rewrite list_elem_of_singleton.
    destruct (decide (b < length (heap w))%nat) as [Hin|Hout].
    - rewrite lookup_app_l in Hb by exact Hin. split.
      + intros Hc. right. eauto.
      + intros [->|(c0 & Hc0 & Hd)]; [lia|congruence].
    - apply lookup_lt_Some in Hb as Hlen. rewrite length_app in Hlen. simpl in Hlen.
      assert (b = length (heap w)) as -> by lia.
      rewrite lookup_last in Hb. injection Hb as <-. simpl. split; auto. }
  destruct (sscanf_skip_s s) as [tok|] eqn:Htok.
  - destruct (decide (tok = bytes_of "user")) as [Hu|Hu];
      [|destruct (decide (tok = bytes_of "admin")) as [Ha|Ha]].
    + left. eexists _, [length (heap w)].
      split; [eapply change_user_user; eassumption|]. wsimpl.
      split; [reflexivity|]. split; [left; split; [reflexivity|]|split; [|split]].
      * rewrite length_app. simpl. lia.
      * apply (Hone (Cell false (username_bytes w tok))). reflexivity.
      * exact Hne1.
      * exists bs. apply lookup_old, Hline.
    + destruct (pw_file w) as [secret|] eqn:Hp.
      * left.
        destruct (change_user_admin w line bs s tok Hline Hsize Hs Htok secret Ha Hp)
          as (w' & Hrun & _ & Hh & Hf & _).
        exists w', [S (length (heap w)); length (heap w)].
        split; [exact Hrun|]. split; [exact Hf|].
        split; [right; split; [reflexivity|]|split; [|split]].
        -- rewrite Hh, length_app, length_insert. simpl. lia.
        -- intros b c Hb. rewrite Hh in Hb.
           rewrite !elem_of_cons, elem_of_nil.
           destruct (decide (b < length (heap w))%nat) as [Hin|Hout].
           ++ rewrite lookup_app_l in Hb by (rewrite length_insert; exact Hin).
              destruct (decide (b = line)) as [->|Hbl].
              ** rewrite list_lookup_insert_eq in Hb by exact Hlt.
                 injection Hb as <-. simpl. split; [discriminate|].
                 intros [[?|[?|[]]]|(c0 & Hc0 & Hd)]; try lia.
                 exfalso. rewrite Hline in Hc0. injection Hc0 as <-. discriminate Hd.
              ** rewrite list_lookup_insert_ne in Hb by congruence. split.
                 --- intros Hc. right. eauto.
                 --- intros [[?|[?|[]]]|(c0 & Hc0 & Hd)]; try lia. congruence.
           ++ apply lookup_lt_Some in Hb as Hlen.
              rewrite length_app, length_insert in Hlen. simpl in Hlen.
              assert (b = length (heap w) \/ b = S (length (heap w))) as [->| ->] by lia.
              ** rewrite top2_lookup_0 in Hb by (rewrite length_insert; reflexivity).
                 injection Hb as <-. simpl. split; auto.
              ** rewrite top2_lookup_1 in Hb by (rewrite length_insert; reflexivity).
                 injection Hb as <-. simpl. split; auto.
        -- exact Hne2.
        -- exists (repeat NUL SIZE). rewrite Hh.
           apply top2_lookup_old, list_lookup_insert_eq, Hlt.
      * right. eexists. split; [eapply change_user_no_file; eassumption|].
        wsimpl. split; [reflexivity|]. split; [congruence|].
        split; [reflexivity|]. rewrite length_app. simpl. lia.
    + left. eexists _, [length (heap w)].
      split; [eapply change_user_other; eassumption|]. wsimpl.
      split; [reflexivity|]. split; [left; split; [reflexivity|]|split; [|split]].
      * rewrite length_app. simpl. lia.
      * apply (Hone (Cell false (username_bytes w tok))). reflexivity.
      * exact Hne1.
      * exists bs. apply lookup_old, Hline.
  - left. eexists _, [length (heap w)].
    split; [eapply change_user_no_name; eassumption|]. wsimpl.
    split; [reflexivity|]. split; [left; split; [reflexivity|]|split; [|split]].
    * rewrite length_app. simpl. lia.
    * apply (Hone (Cell false (fresh w (length (heap w))))). reflexivity.
    * exact Hne1.
    * exists bs. apply lookup_old, Hline.
Qed.

Lemma change_user_releases_its_arrays_witness :
  (exists w' fs,
     change_user 0%nat (at_prompt (Some (bytes_of "secret")) (bytes_of "guess" ++ [LF]))
       = Ret tt w' /\
     frees w' = [] ++ fs /\
     (fs = [1%nat] /\ length (heap w') = 2%nat \/
      fs = [2%nat; 1%nat] /\ length (heap w') = 3%nat) /\
     (forall b c, heap w' !! b = Some c ->
        c_live c = false <->
        ((b ∈ fs) \/ exists c0, [Cell true admin_request] !! b = Some c0 /\ c_live c0 = false)) /\
     (0%nat ∉ fs) /\
     exists bs', heap w' !! 0%nat = Some (Cell true bs')) \/
  (exists w',
     change_user 0%nat (at_prompt (Some (bytes_of "secret")) (bytes_of "guess" ++ [LF]))
       = Exit 1 w' /\
     Some (bytes_of "secret") = None /\
     sscanf_skip_s (bytes_of "2 admin" ++ [LF]) = Some (bytes_of "admin") /\
     frees w' = [] /\ length (heap w') = 3%nat).
Proof.
  apply (change_user_releases_its_arrays
           (at_prompt (Some (bytes_of "secret")) (bytes_of "guess" ++ [LF]))
           0%nat admin_request (bytes_of "2 admin" ++ [LF])); reflexivity.
Defined.

(** C10 as first stated fails on one control path: asked for [admin]
    when the secret file cannot be opened, [change_user] has allocated
    [username] (block 1) and [password] (block 2) and leaves through
    [exit(1)] with both still live and no [free] made. *)
Lemma change_user_exit_releases_nothing :
  exists w',
    change_user 0%nat (at_prompt None []) = Exit 1 w' /\
    frees w' = [] /\
    c_live <$> heap w' = [true; true; true].
Proof. eexists. split; [reflexivity|]. split; reflexivity. Qed.

(** ** Exit paths *)

Ltac no_exit_step :=
  first
    [ apply never_exits_ret | apply never_exits_fail | apply never_exits_malloc
    | apply never_exits_free | apply never_exits_load | apply never_exits_store
    | apply never_exits_load_cstr | apply never_exits_print
    | apply never_exits_fgets | apply never_exits_fgets_local
    | apply never_exits_write_db
    | apply never_exits_bind; [|intros ?]
    | apply never_exits_if | apply never_exits_sumbool
    | solve [intros ? ? ? ?; discriminate] ].

Lemma never_exits_scan n entry match_all query count :
  never_exits (scan n entry match_all query count).
Proof.
  revert count. induction n as [|n IH]; intros count; simpl.
  - apply never_exits_ret.
  - repeat first [apply IH | no_exit_step].
Qed.

Lemma never_exits_select_from_db line : never_exits (select_from_db line).
Proof.
  unfold select_from_db, puts, lseek_end, lseek_start.
  apply never_exits_bind; [no_exit_step|intros entry].
  apply never_exits_bind; [no_exit_step|intros s].
  destruct (sscanf_skip_s s); repeat first [apply never_exits_scan | no_exit_step].
Qed.

Lemma never_exits_insert_into_db line : never_exits (insert_into_db line).
Proof.
  unfold insert_into_db, puts, lseek_end.
  apply never_exits_bind; [no_exit_step|intros s].
  destruct (sscanf_skip_s s); repeat no_exit_step.
Qed.

Lemma never_exits_drop_db : never_exits drop_db.
Proof. unfold drop_db, puts, printf, ftruncate0. repeat no_exit_step. Qed.

Lemma never_exits_read_choice : never_exits read_choice.
Proof. unfold read_choice. repeat no_exit_step. Qed.

Lemma never_exits_print_info : never_exits print_info.
Proof.
  unfold print_info, IS_ADMIN, get_uid, puts, printf. repeat no_exit_step.
Qed.

Lemma never_exits_IS_ADMIN : never_exits IS_ADMIN.
Proof. unfold IS_ADMIN, get_uid. repeat no_exit_step. Qed.

(** [change_user] leaves the process only with status 1 and only when
    the secret file cannot be opened. *)
Lemma change_user_Exit line w c w' :
  change_user line w = Exit c w' -> c = 1 /\ pw_file w' = None.
Proof.
  unfold change_user. intros H.
  apply bind_Exit_inv in H as [H|(username & w1 & _ & H)]; [discriminate|].
  apply bind_Exit_inv in H as [H|(s & w2 & _ & H)];
    [exfalso; exact (never_exits_load_cstr _ _ _ _ _ H)|].
  destruct (sscanf_skip_s s) as [tok|].
  2:{ exfalso. revert H. unfold puts. repeat no_exit_step. }
  apply bind_Exit_inv in H as [H|([] & w3 & _ & H)];
    [exfalso; exact (never_exits_store _ _ _ _ _ _ H)|].
  apply bind_Exit_inv in H as [H|(u & w4 & _ & H)];
    [exfalso; exact (never_exits_load _ _ _ _ H)|].
  destruct (streq u (bytes_of "user")).
  { exfalso. revert H. unfold puts, put_uid. repeat no_exit_step. }
  destruct (negb (streq u (bytes_of "admin"))).
  { exfalso. revert H. unfold puts. repeat no_exit_step. }
  apply bind_Exit_inv in H as [H|(password & w5 & _ & H)]; [discriminate|].
  unfold bind at 1 in H.
  destruct (pw_file w5) as [secret|] eqn:Hp.
  - exfalso. revert H. unfold puts, printf, put_uid. repeat no_exit_step.
  - unfold bind, puts, print, exit in H. injection H as <- <-.
    split; [reflexivity|exact Hp].
Qed.

Lemma dispatch_Exit line choice w c w' :
  dispatch line choice w = Exit c w' ->
  (choice = 1 /\ c = 0) \/ (choice = 2 /\ c = 1 /\ pw_file w' = None).
Proof.
  unfold dispatch. intros H.
  destruct (choice =? 1) eqn:E1.
  { apply Z.eqb_eq in E1. unfold bind, puts, print, exit in H.
    injection H as <- _. auto. }
  destruct (choice =? 2) eqn:E2.
  { apply Z.eqb_eq in E2. apply change_user_Exit in H. auto. }
  exfalso. revert H.
  destruct (choice =? 3); [apply never_exits_select_from_db|].
  destruct (choice =? 4).
  { apply never_exits_bind; [apply never_exits_IS_ADMIN|intros a].
    apply never_exits_if; [apply never_exits_insert_into_db|apply never_exits_ret]. }
  destruct (choice =? 5); [|apply never_exits_ret].
  apply never_exits_bind; [apply never_exits_IS_ADMIN|intros a].
  apply never_exits_if; [apply never_exits_drop_db|apply never_exits_ret].
Qed.

Lemma handle_choice_Exit w c w' :
  handle_choice w = Exit c w' ->
  exists line sel w1,
    read_choice w = Ret (line, sel) w1 /\
    ((sel = 1 /\ c = 0) \/ (sel = 2 /\ c = 1 /\ pw_file w' = None)).
Proof.
  unfold handle_choice. intros H.
  apply bind_Exit_inv in H as [H|([line sel] & w1 & Hr & H)];
    [exfalso; exact (never_exits_read_choice _ _ _ H)|].
  apply bind_Exit_inv in H as [H|([] & w2 & _ & H)];
    [|exfalso; exact (never_exits_free _ _ _ _ H)].
  exists line, sel, w1. split; [exact Hr|]. eapply dispatch_Exit, H.
Qed.

Lemma main_loop_Exit n w c w' :
  main_loop n w = Exit c w' ->
  exists wk, handle_choice wk = Exit c w'.
Proof.
  revert w. induction n as [|n IH]; intros w H; simpl in H; [discriminate|].
  apply bind_Exit_inv in H as [H|([] & w1 & _ & H)];
    [exfalso; exact (never_exits_print_info _ _ _ H)|].
  apply bind_Exit_inv in H as [H|([] & w2 & _ & H)]; [eauto|].
  eapply IH, H.
Qed.

Lemma main_same_environment n w : same_environment w (world_of (main n w)).
Proof.
  apply keeps_main; unfold same_environment; simpl; auto.
  intros a b c [-> ->] [-> ->]. auto.
Qed.

(** C8: the exit statuses of [main].  A run that exits does so with
    status 1 because the record file could not be opened, or from an
    iteration whose selector is 1 (quit) with status 0, or from an
    iteration whose selector is 2 (change identity) with status 1 while
    the secret file cannot be opened; there is no other exit.
    Conversely selector 1 always exits with status 0, an unopenable
    record file exits with status 1 at startup, and a request for
    [admin] with no secret file exits with status 1. *)
Theorem exit_statuses :
  (forall n w c w',
     main n w = Exit c w' ->
     (c = 1 /\ db_openable w = false) \/
     (db_openable w = true /\
      exists wk line sel w1,
        read_choice wk = Ret (line, sel) w1 /\ handle_choice wk = Exit c w' /\
        ((sel = 1 /\ c = 0) \/ (sel = 2 /\ c = 1 /\ pw_file w = None)))) /\
  (forall w line w1,
     read_choice w = Ret (line, 1) w1 -> exists w', handle_choice w = Exit 0 w') /\
  (forall n w, db_openable w = false -> exists w', main n w = Exit 1 w') /\
  (forall w line w1 bs s,
     read_choice w = Ret (line, 2) w1 ->
     heap w1 !! line = Some (Cell true bs) -> cstr bs = Some s ->
     sscanf_skip_s s = Some (bytes_of "admin") -> pw_file w = None ->
     exists w', handle_choice w = Exit 1 w').
Proof.
  split; [|split; [|split]].
  - intros n w c w' H.
    pose proof (main_same_environment n w) as [Hpw _]. rewrite H in Hpw.
    simpl in Hpw. unfold main in H.
    destruct (db_openable w) eqn:Ho.
    + right. split; [reflexivity|].
      apply bind_Exit_inv in H as [H|([] & w0 & _ & H)]; [discriminate|].
      apply main_loop_Exit in H as [wk Hk].
      destruct (handle_choice_Exit _ _ _ Hk) as (line & sel & w1 & Hr & Hc).
      exists wk, line, sel, w1. split; [exact Hr|]. split; [exact Hk|].
      rewrite <- Hpw. exact Hc.
    + left. unfold bind, puts, print, exit in H. injection H as <- _. auto.
  - intros w line w1 Hr. unfold handle_choice.
    rewrite (bind_ret _ _ _ _ _ Hr). cbv beta iota.
    unfold dispatch. cbn [Z.eqb Pos.eqb]. eexists. reflexivity.
  - intros n w Ho. unfold main. rewrite Ho. eexists. reflexivity.
  - intros w line w1 bs s Hr Hb Hs Htok Hp.
    destruct (read_choice_Ret _ _ _ _ Hr) as
      (-> & bs' & s' & Hh & Hlen & _ & _ & _ & _ & _ & _ & _ & Hp1 & _).
    assert (bs' = bs) as ->.
    { rewrite Hh, lookup_last in Hb. congruence. }
    unfold handle_choice. rewrite (bind_ret _ _ _ _ _ Hr). cbv beta iota.
    unfold dispatch. cbn [Z.eqb Pos.eqb].
    erewrite bind_exit; [eexists; reflexivity|].
    eapply change_user_no_file; try eassumption; [reflexivity|congruence].
Qed.

Lemma exit_statuses_witness :
  (0 = 1 /\ db_openable quit_world = false) \/
  (db_openable quit_world = true /\
   exists wk line sel w1,
     read_choice wk = Ret (line, sel) w1 /\
     handle_choice wk = Exit 0 (world_of (main 1 quit_world)) /\
     ((sel = 1 /\ 0 = 0) \/ (sel = 2 /\ 0 = 1 /\ pw_file quit_world = None))).
Proof.
  destruct exit_statuses as (Hmain & _).
  exact (Hmain 1%nat quit_world 0 (world_of (main 1 quit_world)) eq_refl).
Defined.

(** ** Scanning the store *)

Lemma to_int_small z : - 2 ^ 31 <= z < 2 ^ 31 -> to_int z = z.
Proof.
  intros H. unfold to_int. rewrite Z.mod_small by lia. lia.
Qed.

Lemma scan_run entry match_all query recs :
  forall w pre count ebytes,
    db_file w = pre ++ concat recs -> db_pos w = length pre ->
    heap w !! entry = Some (Cell true ebytes) -> length ebytes = sizeof_DBEntry ->
    Forall (scannable match_all query) recs ->
    0 <= count -> count + Z.of_nat (length recs) < 2 ^ 31 ->
    exists w' eb',
      scan (length recs) entry match_all query count w =
        Ret (count + Z.of_nat (length (List.filter (selected match_all query) recs))) w' /\
      stdout w' = stdout w ++ map row_event (List.filter (selected match_all query) recs) /\
      heap w' = <[entry := Cell true eb']> (heap w) /\
      db_file w' = db_file w /\ uid w' = uid w /\ stdin w' = stdin w /\
      wr w' = wr w /\ pw_file w' = pw_file w /\ frees w' = frees w.
Proof.
  induction recs as [|r recs IH]; intros w pre count ebytes Hf Hp He Hel Hall Hc0 Hc1.
  - exists w, ebytes. cbn [length scan List.filter map]. unfold ret.
    rewrite Z.add_0_r, app_nil_r, list_insert_id by exact He. auto 10.
  - apply Forall_cons in Hall as [[Hr Hsel] Hall].
    cbn [length scan]. cbn [concat] in Hf.
    assert (Hread : read_db sizeof_DBEntry w =
              Ret r (set_db (db_file w) (length (pre ++ r)) w)).
    { unfold read_db. rewrite Hf, Hp, drop_app_length.
      rewrite take_app_length' by (symmetry; exact Hr).
      rewrite length_app, Hr. reflexivity. }
    rewrite (bind_ret _ _ _ _ _ Hread). cbv beta.
    erewrite bind_ret.
    2:{ eapply store_live; [wsimpl; exact He|]. rewrite Hr, Hel. simpl. lia. }
    cbv beta. wsimpl.
    rewrite overlay_all by (rewrite Hr, Hel; reflexivity).
    assert (Hlt : (entry < length (heap w))%nat) by (eapply lookup_lt_Some, He).
    erewrite bind_ret.
    2:{ eapply load_live. wsimpl. apply list_lookup_insert_eq, Hlt. }
    cbv beta. fold (selected match_all query r).
    cbn [List.filter].
    destruct (selected match_all query r) eqn:Es.
    + destruct (Hsel eq_refl) as [nm Hnm].
      erewrite bind_ret.
      2:{ eapply load_cstr_live; [wsimpl; apply list_lookup_insert_eq, Hlt|exact Hnm]. }
      cbv beta.
      erewrite bind_ret by reflexivity. cbv beta.
      rewrite to_int_small by (cbn [length] in Hc1; lia).
      match goal with |- context [scan _ _ _ _ _ ?W] =>
        destruct (IH W (pre ++ r) (count + 1) r)
          as (w' & eb' & Hrun & Ho & Hh & Hd & Hu & Hi & Hw & Hpw & Hfr)
      end.
      { wsimpl. rewrite Hf, app_assoc. reflexivity. }
      { wsimpl. reflexivity. }
      { wsimpl. apply list_lookup_insert_eq, Hlt. }
      { exact Hr. }
      { exact Hall. }
      { lia. }
      { cbn [length] in Hc1. lia. }
      exists w', eb'. rewrite Hrun. wsimpl in Ho. wsimpl in Hh. wsimpl in Hd.
      wsimpl in Hu. wsimpl in Hi. wsimpl in Hw. wsimpl in Hpw. wsimpl in Hfr.
      rewrite list_insert_insert_eq in Hh.
      split; [|split; [|auto 10]].
      * f_equal. cbn [length]. lia.
      * rewrite Ho, <- app_assoc. cbn [map app]. unfold row_event at 2.
        rewrite Hnm. reflexivity.
    + match goal with |- context [scan _ _ _ _ _ ?W] =>
        destruct (IH W (pre ++ r) count r)
          as (w' & eb' & Hrun & Ho & Hh & Hd & Hu & Hi & Hw & Hpw & Hfr)
      end.
      { wsimpl. rewrite Hf, app_assoc. reflexivity. }
      { wsimpl. reflexivity. }
      { wsimpl. apply list_lookup_insert_eq, Hlt. }
      { exact Hr. }
      { exact Hall. }
      { lia. }
      { cbn [length] in Hc1. lia. }
      exists w', eb'. rewrite Hrun. wsimpl in Ho. wsimpl in Hh. wsimpl in Hd.
      wsimpl in Hu. wsimpl in Hi. wsimpl in Hw. wsimpl in Hpw. wsimpl in Hfr.
      rewrite list_insert_insert_eq in Hh. auto 10.
Qed.

Lemma concat_records_length (P : list byte -> Prop) recs :
  (forall r, P r -> length r = sizeof_DBEntry) -> Forall P recs ->
  length (concat recs) = (16 * length recs)%nat.
Proof.
  intros HP Hall. induction Hall as [|r recs Hr Hall IH]; [reflexivity|].
  cbn [concat length]. rewrite length_app, IH, (HP r Hr).
  unfold sizeof_DBEntry. lia.
Qed.

(** [select_from_db] on a line whose query parses, over a store of fewer
    than [2^31] records. *)
Lemma select_from_db_rows w line bs s query recs :
  heap w !! line = Some (Cell true bs) -> cstr bs = Some s ->
  sscanf_skip_s s = Some query ->
  db_file w = concat recs ->
  Forall (scannable (streq query (bytes_of "*")) query) recs ->
  Z.of_nat (length recs) < 2 ^ 31 ->
  exists w',
    select_from_db line w = Ret tt w' /\
    stdout w' = stdout w ++ table_head ++
      map row_event (List.filter (selected (streq query (bytes_of "*")) query) recs) ++
      [found_line (Z.of_nat (length
         (List.filter (selected (streq query (bytes_of "*")) query) recs)))] /\
    heap w' !! line = Some (Cell true bs) /\
    db_file w' = db_file w /\ uid w' = uid w /\ stdin w' = stdin w /\
    wr w' = wr w /\ pw_file w' = pw_file w /\
    frees w' = frees w ++ [length (heap w)].
Proof.
  intros Hline Hs Hq Hf Hall Hn.
  assert (Hlen : length (db_file w) = (16 * length recs)%nat).
  { rewrite Hf. eapply concat_records_length; [|exact Hall]. intros r [Hr _]. exact Hr. }
  unfold select_from_db.
  erewrite bind_ret by reflexivity. cbv beta.
  erewrite bind_ret.
  2:{ eapply load_cstr_live; [wsimpl; apply lookup_old, Hline | exact Hs]. }
  cbv beta. rewrite Hq.
  erewrite bind_ret by reflexivity. cbv beta.
  erewrite bind_ret by reflexivity. cbv beta.
  erewrite bind_ret by reflexivity. cbv beta.
  erewrite bind_ret by reflexivity. cbv beta.
  wsimpl. rewrite Hlen.
  replace (Z.of_nat (16 * length recs) / Z.of_nat sizeof_DBEntry)
    with (Z.of_nat (length recs)).
  2:{ unfold sizeof_DBEntry. rewrite Nat2Z.inj_mul, Z.mul_comm, Z.div_mul; lia. }
  rewrite to_int_small by lia. rewrite Nat2Z.id.
  match goal with |- context [bind (scan _ _ _ _ _) _ ?W] =>
    destruct (scan_run (length (heap w)) (streq query (bytes_of "*")) query recs
                W [] 0 (map (junk w (length (heap w))) (seq 0 sizeof_DBEntry)))
      as (w1 & eb & Hrun & Ho & Hh & Hd & Hu & Hi & Hw & Hpw & Hfr)
  end.
  { wsimpl. exact Hf. }
  { wsimpl. reflexivity. }
  { wsimpl. apply lookup_last. }
  { rewrite length_map, length_seq. reflexivity. }
  { exact Hall. }
  { lia. }
  { lia. }
  rewrite (bind_ret _ _ _ _ _ Hrun). cbv beta.
  erewrite bind_ret by reflexivity. cbv beta.
  wsimpl in Ho. wsimpl in Hh. wsimpl in Hd. wsimpl in Hu. wsimpl in Hi.
  wsimpl in Hw. wsimpl in Hpw. wsimpl in Hfr. rewrite insert_last in Hh.
  erewrite free_live by (wsimpl; rewrite Hh; apply lookup_last).
  eexists. split; [reflexivity|]. wsimpl. rewrite Hh, insert_last, Ho, Hfr.
  rewrite Z.add_0_l. unfold found_line, table_head.
  split; [rewrite <- !app_assoc; reflexivity|].
  split; [apply lookup_old, Hline|]. auto 10.
Qed.

Lemma handle_choice_select w l rest q recs :
  stdin w = l ++ rest -> query_line q l ->
  db_file w = concat recs ->
  Forall (scannable (streq q (bytes_of "*")) q) recs ->
  Z.of_nat (length recs) < 2 ^ 31 ->
  exists w',
    handle_choice w = Ret tt w' /\
    stdout w' = stdout w ++ table_head ++
      map row_event (List.filter (selected (streq q (bytes_of "*")) q) recs) ++
      [found_line (Z.of_nat (length
         (List.filter (selected (streq q (bytes_of "*")) q) recs)))] /\
    db_file w' = db_file w /\ uid w' = uid w /\ stdin w' = rest /\
    wr w' = wr w /\ pw_file w' = pw_file w.
Proof.
  intros Hin (Hl & Hsel & Harg) Hf Hall Hn.
  unfold handle_choice.
  rewrite (bind_ret _ _ _ _ _ (read_choice_line _ _ _ Hin Hl)). cbv beta iota.
  rewrite Hsel. unfold dispatch. cbn [Z.eqb Pos.eqb].
  match goal with |- context [bind (select_from_db ?b) _ ?W] =>
    destruct (select_from_db_rows W b (line_buffer w l) (typed l) q recs)
      as (w1 & Hrun & Ho & Hh & Hd & Hu & Hi & Hw & Hpw & Hfr)
  end.
  { wsimpl. apply lookup_last. }
  { apply line_buffer_cstr. }
  { exact Harg. }
  { wsimpl. exact Hf. }
  { exact Hall. }
  { exact Hn. }
  rewrite (bind_ret _ _ _ _ _ Hrun).
  erewrite free_live by exact Hh.
  eexists. split; [reflexivity|]. wsimpl.
  wsimpl in Ho. wsimpl in Hd. wsimpl in Hu. wsimpl in Hi. wsimpl in Hw.
  wsimpl in Hpw. auto 10.
Qed.

(** ** Insert, then query *)

Lemma main_loop_app n m : forall w w1,
  main_loop n w = Ret tt w1 -> main_loop (n + m) w = main_loop m w1.
Proof.
  induction n as [|n IH]; intros w w1 H.
  - injection H as <-. reflexivity.
  - cbn [main_loop] in H.
    apply bind_Ret_inv in H as ([] & wa & Ha & H).
    apply bind_Ret_inv in H as ([] & wb & Hb & H).
    cbn [Nat.add main_loop].
    rewrite (bind_ret _ _ _ _ _ Ha), (bind_ret _ _ _ _ _ Hb).
    apply IH, H.
Qed.

Lemma typed_not_nul chars : Forall (fun b => not_nul b = true) (typed chars).
Proof. apply take_while_Forall. Qed.

Lemma argument_name l name :
  is_line l -> argument l = Some name ->
  Forall (fun b => not_nul b = true) name /\ (length name < SIZE - 1)%nat.
Proof.
  intros Hl Ha. unfold argument in Ha.
  destruct (sscanf_skip_s_Some _ _ Ha) as (_ & _ & Hlen).
  pose proof (take_while_length not_nul l) as Ht. fold (typed l) in Ht.
  apply is_line_length in Hl. split.
  - eapply sscanf_skip_s_sub; [apply typed_not_nul|exact Ha].
  - lia.
Qed.

Lemma record_of_row len name :
  Forall (fun b => not_nul b = true) name -> (length name < SIZE - 1)%nat ->
  cstr (drop 1 (record_of len name)) = Some name.
Proof.
  intros Hn Hl. unfold record_of. cbn [drop skipn].
  rewrite <- (app_nil_r (strncpy _ _)). apply cstr_strncpy; assumption.
Qed.

Lemma record_of_name_text len name :
  Forall (fun b => not_nul b = true) name -> (length name < SIZE - 1)%nat ->
  cstrn SIZE (drop 1 (record_of len name)) = name.
Proof.
  intros Hn Hl. unfold record_of. cbn [drop skipn].
  rewrite strncpy_short by lia.
  destruct (SIZE - 1 - length name)%nat as [|k] eqn:E; [lia|].
  cbn [repeat]. apply cstrn_terminated; [exact Hn|unfold SIZE in *; lia].
Qed.

Lemma stored_length m lines : length (stored m lines) = length lines.
Proof.
  revert m. induction lines as [|l t IH]; intros m; [reflexivity|].
  cbn [stored length]. rewrite IH. reflexivity.
Qed.

Lemma stored_rows m lines :
  Forall insert_line lines ->
  Forall (fun r => length r = sizeof_DBEntry /\ is_Some (cstr (drop 1 r))) (stored m lines) /\
  map row_of (stored m lines) = reports m lines.
Proof.
  intros Hall. revert m. induction Hall as [|l t (Hl & _ & [name Hname]) Hall IH];
    intros m; [split; [constructor|reflexivity]|].
  destruct (IH (S m)) as [IH1 IH2].
  destruct (argument_name l name Hl Hname) as [Hn Hlen].
  assert (Hnm : name_of l = name) by (unfold name_of; rewrite Hname; reflexivity).
  cbn [stored reports map]. rewrite Hnm. split.
  - constructor; [|exact IH1]. split; [apply record_of_length|].
    rewrite record_of_row by assumption. eauto.
  - rewrite IH2. f_equal. unfold row_of.
    rewrite record_of_row by assumption. cbn [default from_option id].
    unfold record_of. cbn [hd]. f_equal. f_equal.
    unfold sizeof_DBEntry. rewrite Nat2Z.inj_mul, Z.mul_comm, Z.div_mul; lia.
Qed.

Lemma filter_all {A} (p : A -> bool) l :
  (forall x, p x = true) -> List.filter p l = l.
Proof.
  intros Hp. induction l as [|a l IH]; [reflexivity|].
  cbn [List.filter]. rewrite Hp, IH. reflexivity.
Qed.

Lemma filter_none {A} (p : A -> bool) l :
  Forall (fun x => p x = false) l -> List.filter p l = [].
Proof.
  induction 1 as [|a l Ha Hl IH]; [reflexivity|].
  cbn [List.filter]. rewrite Ha. exact IH.
Qed.

Lemma rows_row_events recs : rows (map row_event recs) = map row_of recs.
Proof.
  induction recs as [|r recs IH]; [reflexivity|].
  cbn [map].
  change (rows (row_event r :: map row_event recs))
    with (row_of r :: rows (map row_event recs)).
  rewrite IH. reflexivity.
Qed.

Lemma added_row_events recs : added (map row_event recs) = [].
Proof.
  induction recs as [|r recs IH]; [reflexivity|].
  cbn [map].
  change (added (row_event r :: map row_event recs))
    with (added (map row_event recs)).
  exact IH.
Qed.

(** One pass of the loop on a query line. *)
Lemma main_loop_query w l rest q recs :
  stdin w = l ++ rest -> query_line q l ->
  db_file w = concat recs ->
  Forall (scannable (streq q (bytes_of "*")) q) recs ->
  Z.of_nat (length recs) < 2 ^ 31 ->
  exists w',
    main_loop 1 w = Ret tt w' /\
    rows (stdout w') = rows (stdout w) ++
      map row_of (List.filter (selected (streq q (bytes_of "*")) q) recs) /\
    added (stdout w') = added (stdout w) /\
    last (stdout w') = Some (found_line (Z.of_nat (length
      (List.filter (selected (streq q (bytes_of "*")) q) recs)))) /\
    db_file w' = db_file w /\ uid w' = uid w /\ stdin w' = rest.
Proof.
  intros Hin Hq Hf Hall Hn. cbn [main_loop].
  rewrite (bind_ret _ _ _ _ _ (print_info_run w)). cbv beta.
  match goal with |- context [bind handle_choice _ ?W] =>
    destruct (handle_choice_select W l rest q recs)
      as (w' & Hrun & Ho & Hd & Hu & Hi & _)
  end; try assumption.
  rewrite (bind_ret _ _ _ _ _ Hrun). wsimpl in Ho. wsimpl in Hd. wsimpl in Hu.
  exists w'. split; [reflexivity|]. rewrite Ho.
  split; [|split; [|split]].
  - rewrite !rows_app, rows_menu, rows_row_events. cbn [rows omap table_head found_line].
    rewrite !app_nil_r. reflexivity.
  - rewrite !added_app, added_menu, added_row_events. cbn [added omap table_head found_line].
    rewrite !app_nil_r. reflexivity.
  - rewrite !app_assoc. apply last_snoc.
  - auto.
Qed.

Lemma records_div n : Z.of_nat (16 * n) / Z.of_nat sizeof_DBEntry = Z.of_nat n.
Proof.
  unfold sizeof_DBEntry. rewrite Nat2Z.inj_mul, Z.mul_comm, Z.div_mul; lia.
Qed.

Lemma selected_exact name r :
  Forall (fun b => not_nul b = true) name -> (length name < SIZE - 1)%nat ->
  name <> bytes_of "*" ->
  selected (streq name (bytes_of "*")) name r = bool_decide (name_text r = name).
Proof.
  intros Hn Hl Hstar. unfold selected.
  rewrite (streq_tokens name (bytes_of "*")); try assumption; try (unfold SIZE in *; simpl; lia).
  2:{ repeat constructor. }
  rewrite bool_decide_eq_false_2 by exact Hstar. cbn [orb].
  unfold streq. rewrite strncmp_eq_cstrn. fold (name_text r).
  rewrite (cstrn_literal SIZE name) by (assumption || unfold SIZE in *; lia).
  reflexivity.
Qed.

(** C6, as the code has it.  First part: in a store of 16-byte records
    none of which carries the name, inserting a record whose name is not
    [*] and then querying that name prints exactly one row, with the id
    and the name the insert reported, and the summary for one entry.
    Second part: after [N] successful inserts into an empty store the
    query [*] prints [N] rows, those the inserts reported, in insertion
    order.  Stores stay below [2^31] records, the range of the [int]
    counters of the scan. *)
Theorem insert_then_query_round_trip :
  (forall w recs l1 l2 rest name,
     uid w = ADMIN_UID -> db_file w = concat recs ->
     Forall (fun r => length r = sizeof_DBEntry /\ name_text r <> name) recs ->
     Z.of_nat (length recs) + 1 < 2 ^ 31 ->
     stdin w = l1 ++ l2 ++ rest ->
     insert_line l1 -> argument l1 = Some name -> query_line name l2 ->
     name <> bytes_of "*" -> writes_fully (wr w) = true ->
     exists w' id,
       main_loop 2 w = Ret tt w' /\
       added (stdout w') = added (stdout w) ++ [(id, name)] /\
       rows (stdout w') = rows (stdout w) ++ [(id, name)] /\
       last (stdout w') = Some (Found 1 "y")) /\
  (forall w lines l rest,
     uid w = ADMIN_UID -> db_file w = [] ->
     stdin w = concat lines ++ l ++ rest ->
     Forall insert_line lines -> query_line (bytes_of "*") l ->
     all_written (length lines) (wr w) = true ->
     Z.of_nat (length lines) < 2 ^ 31 ->
     exists w' new,
       main_loop (length lines + 1) w = Ret tt w' /\
       added (stdout w') = added (stdout w) ++ new /\
       rows (stdout w') = rows (stdout w) ++ new /\
       length new = length lines /\
       last (stdout w') = Some (found_line (Z.of_nat (length lines)))).
Proof.
  split.
  - intros w recs l1 l2 rest name Hu Hf Hrecs Hn Hin Hl1 Ha1 Hq Hstar Hwr.
    destruct (argument_name l1 name (proj1 Hl1) Ha1) as [Hnn Hlen].
    assert (Hnm : name_of l1 = name) by (unfold name_of; rewrite Ha1; reflexivity).
    assert (Hflen : length (db_file w) = (16 * length recs)%nat).
    { rewrite Hf. eapply concat_records_length; [|exact Hrecs]. intros r [Hr _]. exact Hr. }
    destruct (main_loop_inserts [l1] w (length recs) (l2 ++ rest))
      as (w1 & Hrun1 & Hu1 & Hf1 & Hi1 & _ & _ & Had1 & Hro1); try assumption.
    { cbn [concat]. rewrite app_nil_r. exact Hin. }
    { constructor; [exact Hl1|constructor]. }
    { cbn [length all_written]. rewrite Hwr. reflexivity. }
    cbn [length] in Hrun1. cbn [appended reports] in Hf1, Had1.
    rewrite Hnm, app_nil_r in Hf1. rewrite Hnm in Had1.
    set (rec := record_of (16 * length recs) name) in *.
    destruct (main_loop_query w1 l2 rest name (recs ++ [rec]))
      as (w2 & Hrun2 & Hro2 & Had2 & Hlast & _); try assumption.
    { rewrite Hf1, Hf, concat_app. cbn [concat]. rewrite app_nil_r. reflexivity. }
    { apply Forall_app. split.
      - eapply Forall_impl; [exact Hrecs|]. intros r [Hr Hne]. split; [exact Hr|].
        rewrite selected_exact by assumption.
        rewrite bool_decide_eq_false_2 by exact Hne. discriminate.
      - constructor; [|constructor]. split; [apply record_of_length|].
        intros _. unfold rec. rewrite record_of_row by assumption. eauto. }
    { rewrite length_app. cbn [length]. lia. }
    assert (Hfilter : List.filter (selected (streq name (bytes_of "*")) name) (recs ++ [rec])
                      = [rec]).
    { rewrite List.filter_app, filter_none.
      - cbn [List.filter app]. rewrite selected_exact by assumption.
        unfold name_text, rec. rewrite record_of_name_text by assumption.
        rewrite bool_decide_eq_true_2; reflexivity.
      - eapply Forall_impl; [exact Hrecs|]. intros r [_ Hne].
        rewrite selected_exact by assumption.
        apply bool_decide_eq_false_2, Hne. }
    rewrite Hfilter in Hro2, Hlast.
    exists w2, (to_uchar (Z.of_nat (length recs))).
    split; [|split; [|split]].
    + change 2%nat with (1 + 1)%nat. rewrite (main_loop_app 1 1 w w1 Hrun1). exact Hrun2.
    + rewrite Had2, Had1. reflexivity.
    + rewrite Hro2, Hro1. cbn [map]. unfold row_of, rec.
      rewrite record_of_row by assumption. cbn [default from_option id].
      unfold record_of. cbn [hd]. rewrite records_div. reflexivity.
    + exact Hlast.
  - intros w lines l rest Hu Hf Hin Hall Hq Hwr Hn.
    destruct (main_loop_inserts lines w 0 (l ++ rest))
      as (w1 & Hrun1 & Hu1 & Hf1 & Hi1 & _ & _ & Had1 & Hro1); try assumption.
    { rewrite Hf. reflexivity. }
    rewrite Hf, app_nil_l, appended_stored in Hf1.
    destruct (stored_rows 0 lines Hall) as [Hst Hrows].
    destruct (main_loop_query w1 l rest (bytes_of "*") (stored 0 lines))
      as (w2 & Hrun2 & Hro2 & Had2 & Hlast & _); try assumption.
    { eapply Forall_impl; [exact Hst|]. intros r [Hr Hc]. split; auto. }
    { rewrite stored_length. exact Hn. }
    rewrite filter_all in Hro2, Hlast by reflexivity.
    rewrite stored_length in Hlast.
    exists w2, (reports 0 lines).
    split; [|split; [|split; [|split]]].
    + rewrite (main_loop_app _ 1 w w1 Hrun1). exact Hrun2.
    + rewrite Had2, Had1. reflexivity.
    + rewrite Hro2, Hro1, Hrows. reflexivity.
    + apply reports_length.
    + exact Hlast.
Qed.

Lemma query_line_intro q body :
  (LF ∉ body) -> (length body < SIZE - 1)%nat ->
  selector (body ++ [LF]) = 3 -> argument (body ++ [LF]) = Some q ->
  query_line q (body ++ [LF]).
Proof.
  intros H1 H2 H3 H4. split; [|split; assumption]. exists body. auto.
Defined.

Lemma insert_then_query_round_trip_witness :
  exists w' id,
    main_loop 2 (admin_world one_record beta_round_trip) = Ret tt w' /\
    added (stdout w') = [] ++ [(id, bytes_of "beta")] /\
    rows (stdout w') = [] ++ [(id, bytes_of "beta")] /\
    last (stdout w') = Some (Found 1 "y").
Proof.
  destruct insert_then_query_round_trip as [Hone _].
  apply (Hone (admin_world one_record beta_round_trip) [one_record]
              (bytes_of "4 beta" ++ [LF]) (bytes_of "3 beta" ++ [LF]) []
              (bytes_of "beta")).
  - reflexivity.
  - reflexivity.
  - constructor; [|constructor]. split; [reflexivity|].
    intros H. vm_compute in H. discriminate H.
  - vm_compute. reflexivity.
  - reflexivity.
  - apply (insert_line_intro _ (bytes_of "beta"));
      [apply (bool_decide_unpack _); vm_compute; exact I
      |simpl; lia|reflexivity|reflexivity].
  - reflexivity.
  - apply query_line_intro;
      [apply (bool_decide_unpack _); vm_compute; exact I
      |simpl; lia|reflexivity|reflexivity].
  - intros H. vm_compute in H. discriminate H.
  - reflexivity.
Defined.

Lemma all_written_nil n : all_written n [] = true.
Proof. induction n as [|n IH]; [reflexivity|]. cbn [all_written writes_fully tl andb]. exact IH. Qed.

(** With [2^31] records or more the record count no longer fits the
    [int] that receives it: at [2^31] records it reads as a negative
    number and the scan visits no record. *)
Lemma select_from_db_wrapped w line bs s q :
  heap w !! line = Some (Cell true bs) -> cstr bs = Some s ->
  sscanf_skip_s s = Some q ->
  Z.of_nat (length (db_file w)) = 16 * 2 ^ 31 ->
  exists w',
    select_from_db line w = Ret tt w' /\
    stdout w' = stdout w ++ table_head ++ [Found 0 "ies"] /\
    heap w' !! line = Some (Cell true bs).
Proof.
  intros Hline Hs Hq Hlen.
  unfold select_from_db.
  erewrite bind_ret by reflexivity. cbv beta.
  erewrite bind_ret.
  2:{ eapply load_cstr_live; [wsimpl; apply lookup_old, Hline | exact Hs]. }
  cbv beta. rewrite Hq.
  erewrite bind_ret by reflexivity. cbv beta.
  erewrite bind_ret by reflexivity. cbv beta.
  erewrite bind_ret by reflexivity. cbv beta.
  erewrite bind_ret by reflexivity. cbv beta.
  wsimpl. rewrite Hlen.
  replace (16 * 2 ^ 31 / Z.of_nat sizeof_DBEntry) with (2 ^ 31)
    by (unfold sizeof_DBEntry; change (Z.of_nat 16) with 16;
        rewrite Z.mul_comm, Z.div_mul; lia).
  replace (Z.to_nat (to_int (2 ^ 31))) with 0%nat by (vm_compute; reflexivity).
  cbn [scan]. erewrite bind_ret by reflexivity. cbv beta.
  erewrite bind_ret by reflexivity. cbv beta.
  erewrite free_live by (wsimpl; apply lookup_last).
  eexists. split; [reflexivity|]. wsimpl. rewrite insert_last. split.
  - unfold table_head. rewrite <- !app_assoc. reflexivity.
  - apply lookup_old, Hline.
Qed.

Lemma handle_choice_select_wrapped w l rest q :
  stdin w = l ++ rest -> query_line q l ->
  Z.of_nat (length (db_file w)) = 16 * 2 ^ 31 ->
  exists w',
    handle_choice w = Ret tt w' /\
    stdout w' = stdout w ++ table_head ++ [Found 0 "ies"].
Proof.
  intros Hin (Hl & Hsel & Harg) Hlen.
  unfold handle_choice.
  rewrite (bind_ret _ _ _ _ _ (read_choice_line _ _ _ Hin Hl)). cbv beta iota.
  rewrite Hsel. unfold dispatch. cbn [Z.eqb Pos.eqb].
  match goal with |- context [bind (select_from_db ?b) _ ?W] =>
    destruct (select_from_db_wrapped W b (line_buffer w l) (typed l) q)
      as (w1 & Hrun & Ho & Hh)
  end.
  { wsimpl. apply lookup_last. }
  { apply line_buffer_cstr. }
  { exact Harg. }
  { wsimpl. exact Hlen. }
  rewrite (bind_ret _ _ _ _ _ Hrun).
  erewrite free_live by exact Hh.
  eexists. split; [reflexivity|]. wsimpl. wsimpl in Ho. exact Ho.
Qed.

(** C6 as first stated fails, and each condition of the amended text is
    needed.  A name inserted twice is matched twice by its query.  A
    record named [*] is not the only row of the query for its name,
    since that query matches every record.  After a [write] that
    persisted five bytes of a record the file is no sequence of whole
    records: the next insert is reported with id 0 and the query for its
    name finds nothing.  After [2^31] inserts the query [*] prints no
    row and reports 0 entries. *)
Lemma query_after_insert_may_match_more :
  rows (stdout (world_of (main_loop 3 (admin_world [] twice_a)))) =
    [("000"%byte, bytes_of "a"); ("001"%byte, bytes_of "a")] /\
  rows (stdout (world_of (main_loop 3 (admin_world [] a_then_star)))) =
    [("000"%byte, bytes_of "a"); ("001"%byte, bytes_of "*")] /\
  (exists w', main_loop 3 after_short_write = Ret tt w' /\
              length (db_file w') = 21%nat /\
              added (stdout w') = [("000"%byte, bytes_of "beta")] /\
              rows (stdout w') = [] /\
              last (stdout w') = Some (Found 0 "ies")) /\
  (Z.of_nat (length full_inserts) = 2 ^ 31 /\
   exists w', main_loop (length full_inserts + 1) full_session = Ret tt w' /\
              length (added (stdout w')) = length full_inserts /\
              rows (stdout w') = [] /\
              last (stdout w') = Some (Found 0 "ies")).
Proof.
  split; [vm_compute; reflexivity|].
  split; [vm_compute; reflexivity|].
  split.
  { eexists. split; [vm_compute; reflexivity|]. repeat split; reflexivity. }
  assert (Hn : Z.of_nat (length full_inserts) = 2 ^ 31).
  { unfold full_inserts. rewrite length_replicate. apply Z2Nat.id. lia. }
  split; [exact Hn|].
  assert (Hline : insert_line (bytes_of "4 a" ++ [LF])).
  { apply (insert_line_intro _ (bytes_of "a"));
      [apply (bool_decide_unpack _); vm_compute; exact I
      |simpl; lia|reflexivity|reflexivity]. }
  assert (Hq : query_line (bytes_of "*") (bytes_of "3 *" ++ [LF])).
  { apply query_line_intro;
      [apply (bool_decide_unpack _); vm_compute; exact I
      |simpl; lia|reflexivity|reflexivity]. }
  destruct (main_loop_inserts full_inserts full_session 0
              ((bytes_of "3 *" ++ [LF]) ++ []))
    as (w1 & Hrun1 & _ & Hf1 & Hi1 & _ & _ & Had1 & Hro1).
  { reflexivity. }
  { reflexivity. }
  { reflexivity. }
  { unfold full_inserts. apply Forall_replicate. exact Hline. }
  { apply all_written_nil. }
  destruct (handle_choice_select_wrapped
              (set_stdout (stdout w1 ++ menu (uid w1 =? ADMIN_UID)) w1)
              (bytes_of "3 *" ++ [LF]) [] (bytes_of "*"))
    as (w2 & Hrun2 & Ho2).
  { wsimpl. exact Hi1. }
  { exact Hq. }
  { wsimpl. rewrite Hf1. change (db_file full_session) with (@nil byte).
    rewrite app_nil_l, appended_length, Nat2Z.inj_mul, Hn. reflexivity. }
  exists w2. split.
  { rewrite (main_loop_app _ 1 _ _ Hrun1). cbn [main_loop].
    rewrite (bind_ret _ _ _ _ _ (print_info_run w1)). cbv beta.
    rewrite (bind_ret _ _ _ _ _ Hrun2). reflexivity. }
  wsimpl in Ho2. rewrite Ho2.
  split; [|split].
  - rewrite !added_app, added_menu, Had1. cbn [added omap table_head].
    rewrite !app_nil_r. change (stdout full_session) with (@nil out).
    cbn [added omap app]. apply reports_length.
  - rewrite !rows_app, rows_menu, Hro1. reflexivity.
  - rewrite !app_assoc. apply last_snoc.
Qed.

(** ** The release of the line buffer *)

(** [select_from_db] on a line without a query: the early return, after
    releasing the line buffer and [entry]. *)
Lemma select_from_db_no_query w line bs s :
  heap w !! line = Some (Cell true bs) -> cstr bs = Some s ->
  sscanf_skip_s s = None ->
  select_from_db line w =
  Ret tt (set_frees (frees w ++ [line; length (heap w)])
           (set_heap (<[line := Cell false bs]> (heap w) ++
                      [Cell false (fresh w (length (heap w)))])
             (set_stdout (stdout w ++ [Puts "Invalid query."]) w))).
Proof.
  intros Hline Hs Hq. pose proof (line_below w line bs Hline) as Hlt.
  unfold select_from_db.
  erewrite bind_ret by reflexivity. cbv beta.
  erewrite bind_ret.
  2:{ eapply load_cstr_live; [wsimpl; apply lookup_old, Hline | exact Hs]. }
  cbv beta. rewrite Hq.
  erewrite bind_ret by reflexivity. cbv beta.
  erewrite bind_ret.
  2:{ eapply free_live. wsimpl. apply lookup_old, Hline. }
  cbv beta. wsimpl. rewrite insert_old by exact Hlt.
  erewrite free_live.
  2:{ wsimpl. apply list_lookup_middle. rewrite length_insert. reflexivity. }
  wsimpl.
  replace (length (heap w)) with (length (<[line := Cell false bs]> (heap w))) at 1
    by apply length_insert.
  rewrite insert_last, <- app_assoc. reflexivity.
Qed.

(** C1, at the branch that breaks it: on a line that selects query (3)
    and carries no query, [select_from_db] releases the line buffer
    itself (the [free(line)] before its early return), then releases
    [entry], and the [free(line)] of [handle_choice] releases the buffer
    a second time: the iteration ends in a double free, the buffer
    appearing twice among the releases. *)
Theorem select_invalid_query_double_free (w : World) (l rest : list byte) :
  stdin w = l ++ rest -> is_line l -> selector l = 3 -> argument l = None ->
  exists w',
    handle_choice w = Fault (DoubleFree (length (heap w))) w' /\
    frees w' = frees w ++ [length (heap w); S (length (heap w)); length (heap w)] /\
    stdout w' = stdout w ++ [Puts "Invalid query."].
Proof.
  intros Hin Hl Hsel Harg.
  unfold handle_choice.
  rewrite (bind_ret _ _ _ _ _ (read_choice_line _ _ _ Hin Hl)). cbv beta iota.
  rewrite Hsel. unfold dispatch. cbn [Z.eqb Pos.eqb].
  erewrite bind_ret.
  2:{ eapply select_from_db_no_query;
        [wsimpl; apply lookup_last | apply line_buffer_cstr | exact Harg]. }
  wsimpl. rewrite insert_last.
  erewrite free_dead.
  2:{ wsimpl. apply lookup_old, lookup_last. }
  eexists. split; [reflexivity|]. wsimpl.
  rewrite length_app, <- !app_assoc. cbn [length app]. rewrite Nat.add_1_r.
  split; reflexivity.
Qed.

Lemma select_invalid_query_double_free_witness :
  exists w',
    handle_choice (user_world one_record bare_query) = Fault (DoubleFree 0%nat) w' /\
    frees w' = [] ++ [0; 1; 0]%nat /\
    stdout w' = [] ++ [Puts "Invalid query."].
Proof.
  apply (select_invalid_query_double_free (user_world one_record bare_query)
           bare_query []).
  - reflexivity.
  - exists (bytes_of "3"). split; [reflexivity|]. split; [|simpl; lia].
    apply (bool_decide_unpack _). vm_compute. exact I.
  - reflexivity.
  - reflexivity.
Defined.

(** ** Iterations that return release the buffer once *)

Lemma returns_bind {A B} P (m : M A) Q (k : A -> M B) R :
  returns P m Q -> (forall a, returns (Q a) (k a) R) -> returns P (bind m k) R.
Proof.
  intros Hm Hk w HP b w' H.
  apply bind_Ret_inv in H as (a & w1 & H1 & H2).
  eapply Hk; [eapply Hm; eassumption|exact H2].
Qed.

Lemma returns_weaken {A} (P P' : World -> Prop) (m : M A) (Q Q' : A -> World -> Prop) :
  returns P' m Q' -> (forall w, P w -> P' w) -> (forall a w, Q' a w -> Q a w) ->
  returns P m Q.
Proof. intros Hm HP HQ w Hw a w' H. eapply HQ, Hm; eauto. Qed.

Lemma returns_if {A} P (b : bool) (m1 m2 : M A) Q :
  returns P m1 Q -> returns P m2 Q -> returns P (if b then m1 else m2) Q.
Proof. destruct b; auto. Qed.

Lemma returns_sumbool {A} {X Y : Prop} P (b : {X} + {Y}) (m1 m2 : M A) Q :
  returns P m1 Q -> returns P m2 Q -> returns P (if b then m1 else m2) Q.
Proof. destruct b; auto. Qed.

Lemma returns_ret {A} (P : World -> Prop) (a : A) : returns P (ret a) (fun _ => P).
Proof. intros w HP a' w' [= <- <-]. exact HP. Qed.

Lemma returns_never {A} P (m : M A) Q :
  (forall w a w', m w <> Ret a w') -> returns P m Q.
Proof. intros Hm w _ a w' H. destruct (Hm _ _ _ H). Qed.

Section Borrowed.
Variables (line : nat) (c : nat).

Lemma held_print o : keeps_held line c (print o).
Proof. intros w H [] w' [= <-]. exact H. Qed.

Lemma held_load b : returns (held line c) (load b) (fun _ => held line c).
Proof.
  intros w H bs w'. unfold load.
  destruct (heap w !! b) as [[[] ?]|]; intros [= <- <-] || discriminate. exact H.
Qed.

Lemma held_load_cstr b off : returns (held line c) (load_cstr b off) (fun _ => held line c).
Proof.
  intros w H s w' Hr. apply load_cstr_Ret in Hr as [-> _]. exact H.
Qed.

Lemma held_store b off d : keeps_held line c (store b off d).
Proof.
  intros w [[bs Hl] Hc] [] w' Hr.
  apply store_Ret in Hr as (bs0 & Hb & _ & ->). split; [|exact Hc]. wsimpl.
  destruct (decide (b = line)) as [->|Hne].
  - eexists. apply list_lookup_insert_eq. eapply lookup_lt_Some, Hl.
  - exists bs. rewrite list_lookup_insert_ne by exact Hne. exact Hl.
Qed.

Lemma held_fgets b : keeps_held line c (fgets b).
Proof.
  intros w H [] w'. unfold fgets.
  destruct (fgets_chars _ _) as [[|x chars] rest].
  - intros [= <-]. exact H.
  - apply held_store. exact H.
Qed.

Lemma held_malloc n :
  returns (held line c) (malloc n) (fun b w => held line c w /\ b <> line).
Proof.
  intros w [[bs Hl] Hc] b w' [= <- <-]. wsimpl.
  pose proof (lookup_lt_Some _ _ _ Hl) as Hlt. split; [split|lia].
  - exists bs. apply lookup_old, Hl.
  - exact Hc.
Qed.

Lemma held_free b : b <> line -> keeps_held line c (free b).
Proof.
  intros Hne w [[bs Hl] Hc] [] w'. unfold free.
  destruct (heap w !! b) as [[[] bs0]|]; intros [= <-] || discriminate.
  split; wsimpl.
  - exists bs. rewrite list_lookup_insert_ne by exact Hne. exact Hl.
  - rewrite count_occ_app, Hc. cbn [count_occ].
    destruct (Nat.eq_dec b line); [contradiction|lia].
Qed.

Lemma held_write_db d : returns (held line c) (write_db d) (fun _ => held line c).
Proof.
  intros w H n w'. unfold write_db.
  destruct (wr w) as [|[k|] s]; intros [= <- <-]; exact H.
Qed.

Lemma held_lseek_end : returns (held line c) lseek_end (fun _ => held line c).
Proof. intros w H n w' [= <- <-]. exact H. Qed.

Lemma held_lseek_start : keeps_held line c lseek_start.
Proof. intros w H [] w' [= <-]. exact H. Qed.

Lemma held_read_db n : returns (held line c) (read_db n) (fun _ => held line c).
Proof. intros w H d w' [= <- <-]. exact H. Qed.

Lemma held_ftruncate0 : keeps_held line c ftruncate0.
Proof. intros w H [] w' [= <-]. exact H. Qed.

Lemma held_fgets_local buf : returns (held line c) (fgets_local buf) (fun _ => held line c).
Proof.
  intros w H b w'. unfold fgets_local.
  destruct (fgets_chars _ _) as [[|x chars] rest]; intros [= <- <-]; exact H.
Qed.

Lemma held_put_uid v : keeps_held line c (put_uid v).
Proof. intros w H [] w' [= <-]. exact H. Qed.

Lemma held_pure {A} (f : World -> A) :
  returns (held line c) (fun w => Ret (f w) w) (fun _ => held line c).
Proof. intros w H a w' [= <- <-]. exact H. Qed.

Ltac held_step :=
  first
    [ eapply returns_bind; [apply held_print|intros ?]
    | eapply returns_bind; [apply held_load|intros ?]
    | eapply returns_bind; [apply held_load_cstr|intros ?]
    | eapply returns_bind; [apply held_store|intros ?]
    | eapply returns_bind; [apply held_fgets|intros ?]
    | eapply returns_bind; [apply held_fgets_local|intros ?]
    | eapply returns_bind; [apply held_write_db|intros ?]
    | eapply returns_bind; [apply held_lseek_end|intros ?]
    | eapply returns_bind; [apply held_lseek_start|intros ?]
    | eapply returns_bind; [apply held_read_db|intros ?]
    | eapply returns_bind; [apply held_ftruncate0|intros ?]
    | eapply returns_bind; [apply held_put_uid|intros ?]
    | eapply returns_bind; [apply held_pure|intros ?]
    | apply held_print
    | apply returns_if | apply returns_sumbool ].

Lemma held_insert_into_db : keeps_held line c (insert_into_db line).
Proof.
  unfold keeps_held, insert_into_db, puts. held_step.
  destruct (sscanf_skip_s _) as [name|]; [|apply held_print].
  eapply returns_bind; [apply held_malloc|intros entry].
  intros w [Hw Hne]. revert w Hw.
  repeat held_step.
  eapply returns_bind; [|intros ?; apply held_free, Hne].
  apply returns_if; repeat held_step.
Qed.

Lemma held_drop_db : keeps_held line c drop_db.
Proof. unfold keeps_held, drop_db, puts, printf. repeat held_step. Qed.

Lemma held_change_user : keeps_held line c (change_user line).
Proof.
  unfold keeps_held, change_user, puts, printf.
  eapply returns_bind; [apply held_malloc|intros username].
  intros w [Hw Hu]. revert w Hw.
  held_step.
  destruct (sscanf_skip_s _) as [tok|].
  2:{ held_step. apply held_free, Hu. }
  repeat held_step.
  { apply held_free, Hu. }
  { apply held_free, Hu. }
  eapply returns_bind; [apply held_malloc|intros password].
  intros w [Hw Hp]. revert w Hw.
  held_step.
  match goal with |- returns _ (match ?fd with _ => _ end) _ => destruct fd as [secret|] end.
  2:{ held_step. apply returns_never. intros ? ? ? H. discriminate. }
  repeat held_step.
  eapply returns_bind.
  { apply returns_if; [|apply held_print]. held_step. apply held_print. }
  intros ?. repeat held_step.
  eapply returns_bind; [apply held_free, Hp|intros ?]. apply held_free, Hu.
Qed.

Lemma held_scan n entry match_all query count :
  returns (held line c) (scan n entry match_all query count) (fun _ => held line c).
Proof.
  revert count. induction n as [|n IH]; intros count; cbn [scan].
  - apply returns_ret.
  - repeat held_step; apply IH.
Qed.

(** [select_from_db] returns with the buffer still held, or released by
    the handler itself. *)
Lemma held_select_from_db :
  returns (held line c) (select_from_db line) (fun _ w => held line c w \/ gone line w).
Proof.
  unfold select_from_db, puts.
  eapply returns_bind; [apply held_malloc|intros entry].
  intros w [Hw Hne]. revert w Hw.
  held_step.
  destruct (sscanf_skip_s _) as [query|].
  - eapply returns_weaken with (P' := (held line c)) (Q' := fun _ => held line c); [|auto|auto].
    repeat held_step.
    eapply returns_bind; [apply held_scan|intros count].
    held_step. apply held_free, Hne.
  - held_step. intros w [[bs Hl] Hc] [] w' H.
    apply bind_Ret_inv in H as ([] & w1 & H1 & H2). right.
    unfold free in H1. rewrite Hl in H1. injection H1 as <-.
    unfold free in H2. wsimpl in H2.
    destruct (_ !! entry) as [[[] bs0]|] eqn:E; try discriminate.
    injection H2 as <-. exists bs. wsimpl.
    rewrite list_lookup_insert_ne by exact Hne.
    apply list_lookup_insert_eq. eapply lookup_lt_Some, Hl.
Qed.

Lemma held_dispatch choice :
  returns (held line c) (dispatch line choice) (fun _ w => held line c w \/ gone line w).
Proof.
  unfold dispatch, puts, IS_ADMIN, get_uid.
  apply returns_if.
  { held_step. apply returns_never. intros ? ? ? H. discriminate. }
  apply returns_if.
  { eapply returns_weaken; [apply held_change_user|auto|auto]. }
  apply returns_if; [apply held_select_from_db|].
  eapply returns_weaken with (P' := (held line c)) (Q' := fun _ => held line c); [|auto|auto].
  apply returns_if.
  { eapply returns_bind.
    { eapply returns_bind; [apply (held_pure uid)|intros u]. apply returns_ret. }
    intros a. apply returns_if; [apply held_insert_into_db|apply returns_ret]. }
  apply returns_if; [|apply returns_ret].
  eapply returns_bind.
  { eapply returns_bind; [apply (held_pure uid)|intros u]. apply returns_ret. }
  intros a. apply returns_if; [apply held_drop_db|apply returns_ret].
Qed.
End Borrowed.

(** X1.  Every iteration of [handle_choice] that returns has released its
    buffer exactly once, and that release is the last one made, the
    dispatcher's own: no handler released it, and the buffer is then a
    released block. *)
Lemma returning_iteration_releases_once w w' :
  handle_choice w = Ret tt w' ->
  exists w2,
    frees w' = frees w2 ++ [length (heap w)] /\
    count_occ Nat.eq_dec (frees w2) (length (heap w)) =
      count_occ Nat.eq_dec (frees w) (length (heap w)) /\
    count_occ Nat.eq_dec (frees w') (length (heap w)) =
      S (count_occ Nat.eq_dec (frees w) (length (heap w))) /\
    exists bs, heap w' !! length (heap w) = Some (Cell false bs).
Proof.
  unfold handle_choice. intros H.
  apply bind_Ret_inv in H as ([line sel] & w1 & Hr & H).
  destruct (read_choice_Ret _ _ _ _ Hr) as
    (-> & bs & s & Hh & _ & _ & _ & _ & _ & _ & _ & Hf1 & _).
  apply bind_Ret_inv in H as ([] & w2 & Hd & H).
  assert (H1 : held (length (heap w))
                 (count_occ Nat.eq_dec (frees w) (length (heap w))) w1).
  { split; [exists bs; rewrite Hh; apply lookup_last|rewrite Hf1; reflexivity]. }
  destruct (held_dispatch _ _ sel w1 H1 tt w2 Hd) as [[[bs2 Hl] Hc]|[bs2 Hg]].
  - rewrite (free_live _ _ _ Hl) in H. injection H as <-.
    exists w2. wsimpl. split; [reflexivity|]. split; [exact Hc|]. split.
    + rewrite count_occ_app, Hc. cbn [count_occ].
      destruct (Nat.eq_dec _ _); [lia|contradiction].
    + exists bs2. apply list_lookup_insert_eq. eapply lookup_lt_Some, Hl.
  - rewrite (free_dead _ _ _ Hg) in H. discriminate.
Qed.

(** * Further properties of the program *)

(** ** What an iteration can change *)

Lemma world_of_bind {A B} (m : M A) (k : A -> M B) w :
  world_of (bind m k w) =
  match m w with
  | Ret a w1 => world_of (k a w1)
  | Exit _ w1 | Fault _ w1 => w1
  end.
Proof. unfold bind. destruct (m w); reflexivity. Qed.

Lemma same_store_trans a b c : same_store a b -> same_store b c -> same_store a c.
Proof. unfold same_store. congruence. Qed.

Lemma same_role_trans a b c : same_role a b -> same_role b c -> same_role a c.
Proof. unfold same_role. congruence. Qed.

Lemma read_choice_same_store_and_role : keeps same_store_and_role read_choice.
Proof.
  apply keeps_read_choice; unfold same_store_and_role; simpl; auto.
  intros a b c [-> ->] [-> ->]. auto.
Qed.

(** X3.  In the user's role no iteration changes the record file, whatever
    the console delivers and however the iteration ends. *)
Theorem user_iteration_keeps_store (w : World) :
  uid w <> ADMIN_UID -> db_file (world_of (handle_choice w)) = db_file w.
Proof.
  intros Hu. unfold handle_choice. rewrite world_of_bind.
  pose proof (read_choice_same_store_and_role w) as [Hf Hr].
  destruct (read_choice w) as [[line c] w1|code w1|f w1]; simpl in Hf, Hr;
    [|exact Hf|exact Hf].
  rewrite <- Hf. rewrite world_of_bind.
  assert (Hd : db_file (world_of (dispatch line c w1)) = db_file w1).
  { unfold dispatch.
    destruct (c =? 1); [reflexivity|].
    destruct (c =? 2).
    { apply (keeps_change_user same_store); unfold same_store; simpl; auto.
      intros x y z. apply same_store_trans. }
    destruct (c =? 3).
    { apply (keeps_select_from_db same_store); unfold same_store; simpl; auto.
      intros x y z. apply same_store_trans. }
    assert (Hn : IS_ADMIN w1 = Ret false w1).
    { unfold IS_ADMIN, get_uid, bind, ret.
      replace (uid w1 =? ADMIN_UID) with false; [reflexivity|].
      symmetry. apply Z.eqb_neq. congruence. }
    destruct (c =? 4); [rewrite (bind_ret _ _ _ _ _ Hn); reflexivity|].
    destruct (c =? 5); [rewrite (bind_ret _ _ _ _ _ Hn); reflexivity|].
    reflexivity. }
  destruct (dispatch line c w1) as [[] w2|code w2|f w2]; simpl in Hd;
    [|exact Hd|exact Hd].
  rewrite <- Hd.
  apply (keeps_free same_store); unfold same_store; simpl; auto.
  intros x y z. apply same_store_trans.
Qed.

Lemma user_iteration_keeps_store_witness :
  db_file (world_of (handle_choice (user_world one_record (bytes_of "5" ++ [LF]))))
  = one_record.
Proof.
  apply (user_iteration_keeps_store (user_world one_record (bytes_of "5" ++ [LF]))).
  discriminate.
Defined.

(** X4.  Only the change-identity selector can change the role: under any
    other selector the role at the end of the iteration, however it
    ends, is the role at its start. *)
Theorem role_changes_only_under_selector_2 (w : World) (line : block) (c : Z) (w1 : World) :
  read_choice w = Ret (line, c) w1 -> c <> 2 ->
  uid (world_of (handle_choice w)) = uid w.
Proof.
  intros Hr Hc. unfold handle_choice. rewrite world_of_bind, Hr.
  pose proof (read_choice_same_store_and_role w) as [_ Hu]. rewrite Hr in Hu.
  simpl in Hu. rewrite <- Hu. rewrite world_of_bind.
  assert (Htr : forall x y z, same_role x y -> same_role y z -> same_role x z)
    by (intros x y z; apply same_role_trans).
  assert (Hd : uid (world_of (dispatch line c w1)) = uid w1).
  { unfold dispatch.
    destruct (c =? 1); [reflexivity|].
    destruct (c =? 2) eqn:E2; [apply Z.eqb_eq in E2; contradiction|].
    destruct (c =? 3).
    { apply (keeps_select_from_db same_role); unfold same_role; simpl; auto. }
    destruct (c =? 4).
    { rewrite world_of_bind. unfold IS_ADMIN, get_uid, bind, ret.
      destruct (uid w1 =? ADMIN_UID); [|reflexivity].
      apply (keeps_insert_into_db same_role); unfold same_role; simpl; auto. }
    destruct (c =? 5); [|reflexivity].
    rewrite world_of_bind. unfold IS_ADMIN, get_uid, bind, ret.
    destruct (uid w1 =? ADMIN_UID); [|reflexivity].
    apply (keeps_drop_db same_role); unfold same_role; simpl; auto. }
  destruct (dispatch line c w1) as [[] w2|code w2|f w2]; simpl in Hd;
    [|exact Hd|exact Hd].
  rewrite <- Hd.
  apply (keeps_free same_role); unfold same_role; simpl; auto.
Qed.

Lemma role_changes_only_under_selector_2_witness :
  uid (world_of (handle_choice (admin_world one_record (bytes_of "4 beta" ++ [LF]))))
  = ADMIN_UID.
Proof.
  eapply (role_changes_only_under_selector_2
            (admin_world one_record (bytes_of "4 beta" ++ [LF])) 0%nat 4).
  - vm_compute. reflexivity.
  - discriminate.
Defined.



(** ** [insert_into_db] under every outcome of [write] *)

Lemma write_db_at_end w data :
  length data = sizeof_DBEntry -> db_pos w = length (db_file w) ->
  exists n w',
    write_db data w = Ret n w' /\
    (n =? Z.of_nat sizeof_DBEntry) = (persisted (wr w) =? sizeof_DBEntry)%nat /\
    db_file w' = db_file w ++ take (persisted (wr w)) data /\
    wr w' = tl (wr w) /\
    uid w' = uid w /\ stdin w' = stdin w /\ stdout w' = stdout w /\
    heap w' = heap w /\ frees w' = frees w /\ junk w' = junk w.
Proof.
  intros Hd Hp. unfold write_db, persisted.
  destruct (wr w) as [|[k|] s] eqn:E.
  - do 2 eexists. split; [reflexivity|]. wsimpl.
    rewrite Hp, write_at_end, Hd, take_ge by lia.
    rewrite Z.eqb_refl, Nat.eqb_refl. auto 10.
  - do 2 eexists. split; [reflexivity|]. wsimpl.
    assert (Ht : take k data = take (k `min` sizeof_DBEntry) data).
    { destruct (Nat.le_gt_cases k sizeof_DBEntry).
      - rewrite Nat.min_l by assumption. reflexivity.
      - rewrite Nat.min_r, !take_ge by lia. reflexivity. }
    rewrite Hp, write_at_end, length_take, Hd, <- Ht.
    split; [|auto 10].
    destruct (Nat.eqb_spec (k `min` sizeof_DBEntry) sizeof_DBEntry) as [e|e].
    + rewrite e. apply Z.eqb_refl.
    + apply Z.eqb_neq. lia.
  - do 2 eexists. split; [reflexivity|]. wsimpl.
    rewrite take_0, app_nil_r. auto 10.
Qed.

(** X7.  [insert_into_db] on a line that carries a name always returns, and
    never rewrites the file: it appends as many leading bytes of the new
    record as [write] persists, reports the entry when these are all 16
    and the write error otherwise, without undoing a partial write; the
    record it allocated is released and the line is left alone. *)
Theorem insert_into_db_appends_what_write_persists
    (w : World) (line : block) (bs s name : list byte) :
  heap w !! line = Some (Cell true bs) -> length bs = SIZE ->
  cstr bs = Some s -> sscanf_skip_s s = Some name ->
  exists w',
    insert_into_db line w = Ret tt w' /\
    db_file w' = db_file w ++
      take (persisted (wr w)) (record_of (length (db_file w)) name) /\
    stdout w' = stdout w ++ [insert_report (wr w) (length (db_file w)) name] /\
    uid w' = uid w /\ stdin w' = stdin w /\
    frees w' = frees w ++ [length (heap w)] /\
    heap w' !! line = Some (Cell true bs).
Proof.
  intros Hline Hbs Hs Hname.
  destruct (sscanf_skip_s_Some _ _ Hname) as (Hne & Hsp & Hlen).
  pose proof (cstr_length _ _ Hs) as Hslen.
  destruct (cstr_Some _ _ Hs) as (Hnul & _).
  pose proof (sscanf_skip_s_sub _ _ _ Hnul Hname) as Hnn.
  assert (Hshort : (length name < SIZE - 1)%nat) by (unfold SIZE in *; lia).
  pose proof (lookup_lt_Some _ _ _ Hline) as Hlt.
  unfold insert_into_db.
  erewrite bind_ret by (eapply load_cstr_live; [exact Hline | exact Hs]).
  cbv beta. rewrite Hname.
  erewrite bind_ret by reflexivity. cbv beta.
  erewrite bind_ret by reflexivity. cbv beta.
  erewrite bind_ret.
  2:{ eapply store_live; [wsimpl; apply lookup_last|]. simpl. lia. }
  cbv beta.
  erewrite bind_ret.
  2:{ eapply store_live; [wsimpl; rewrite insert_last; apply lookup_last|].
      rewrite strncpy_length. simpl. lia. }
  cbv beta. wsimpl. rewrite !insert_last.
  assert (Hrec : overlay (overlay (map (junk w (length (heap w))) (seq 0 sizeof_DBEntry)) 0
              [to_uchar (Z.of_nat (length (db_file w)) / Z.of_nat sizeof_DBEntry)]) 1
              (strncpy (SIZE - 1) name) = record_of (length (db_file w)) name).
  { rewrite overlay_tail.
    - reflexivity.
    - rewrite strncpy_length. reflexivity. }
  rewrite Hrec.
  erewrite bind_ret.
  2:{ eapply load_live. wsimpl. apply lookup_last. }
  cbv beta.
  match goal with
  | |- context [bind (write_db _) _ ?W] =>
      destruct (write_db_at_end W (record_of (length (db_file w)) name))
        as (n & w2 & Hw & Hn & Hf2 & _ & Hu2 & Hi2 & Ho2 & Hh2 & Hfr2 & _);
        [apply record_of_length | reflexivity |]
  end.
  wsimpl in Hn. wsimpl in Hf2. wsimpl in Hu2. wsimpl in Hi2. wsimpl in Ho2.
  wsimpl in Hh2. wsimpl in Hfr2.
  rewrite (bind_ret _ _ _ _ _ Hw). cbv beta. rewrite Hn.
  assert (Hlast : heap w2 !! length (heap w) =
                  Some (Cell true (record_of (length (db_file w)) name)))
    by (rewrite Hh2; apply lookup_last).
  unfold insert_report.
  destruct (persisted (wr w) =? sizeof_DBEntry)%nat.
  - erewrite bind_ret.
    2:{ erewrite bind_ret.
        2:{ eapply load_cstr_live; [exact Hlast|].
            unfold record_of. cbn [drop skipn].
            rewrite <- (app_nil_r (strncpy _ _)). apply cstr_strncpy; assumption. }
        reflexivity. }
    cbv beta. erewrite free_live by (wsimpl; exact Hlast).
    eexists. split; [reflexivity|]. wsimpl.
    rewrite Hf2, Ho2, Hu2, Hi2, Hfr2, Hh2, insert_last.
    unfold record_of at 3. cbn [hd].
    rewrite (lookup_old _ _ _ _ Hline). auto 10.
  - erewrite bind_ret by reflexivity.
    cbv beta. erewrite free_live by (wsimpl; exact Hlast).
    eexists. split; [reflexivity|]. wsimpl.
    rewrite Hf2, Ho2, Hu2, Hi2, Hfr2, Hh2, insert_last.
    rewrite (lookup_old _ _ _ _ Hline). auto 10.
Qed.

Lemma insert_into_db_appends_what_write_persists_witness :
  exists w',
    insert_into_db 0%nat short_write_world = Ret tt w' /\
    db_file w' = one_record ++ take 5 (record_of 16 (bytes_of "beta")) /\
    stdout w' = [Puts "Error writing to database."] /\
    uid w' = ADMIN_UID /\ stdin w' = [] /\
    frees w' = [1%nat] /\
    heap w' !! 0%nat = Some (Cell true (bytes_of "4 beta" ++ [LF] ++ repeat NUL 9)).
Proof.
  pose (bs := bytes_of "4 beta" ++ [LF] ++ repeat NUL 9).
  assert (H1 : heap short_write_world !! 0%nat = Some (Cell true bs))
    by (vm_compute; reflexivity).
  assert (H2 : length bs = SIZE) by reflexivity.
  assert (H3 : cstr bs = Some (bytes_of "4 beta" ++ [LF]))
    by (vm_compute; reflexivity).
  assert (H4 : sscanf_skip_s (bytes_of "4 beta" ++ [LF]) = Some (bytes_of "beta"))
    by (vm_compute; reflexivity).
  exact (insert_into_db_appends_what_write_persists _ _ _ _ _ H1 H2 H3 H4).
Defined.

(** X8.  An insert line without a name: the administrator's iteration prints
    [Invalid entry.], leaves the record file and the write script as they
    were, allocates nothing besides the line, and releases the line once. *)
Theorem insert_without_name_is_reported (w : World) (l rest : list byte) :
  uid w = ADMIN_UID -> stdin w = l ++ rest -> is_line l ->
  selector l = 4 -> argument l = None ->
  exists w',
    handle_choice w = Ret tt w' /\
    stdout w' = stdout w ++ [Puts "Invalid entry."] /\
    db_file w' = db_file w /\ db_pos w' = db_pos w /\ wr w' = wr w /\
    uid w' = uid w /\ stdin w' = rest /\
    length (heap w') = S (length (heap w)) /\
    frees w' = frees w ++ [length (heap w)].
Proof.
  intros Hu Hin Hl Hsel Harg.
  unfold handle_choice.
  rewrite (bind_ret _ _ _ _ _ (read_choice_line _ _ _ Hin Hl)). cbv beta iota.
  rewrite Hsel. unfold dispatch. cbn [Z.eqb Pos.eqb].
  set (w1 := set_heap _ _).
  assert (Hadm : IS_ADMIN w1 = Ret true w1).
  { unfold IS_ADMIN, get_uid, bind, ret. subst w1. wsimpl. rewrite Hu. reflexivity. }
  assert (Hins : insert_into_db (length (heap w)) w1 =
                 Ret tt (set_stdout (stdout w1 ++ [Puts "Invalid entry."]) w1)).
  { unfold insert_into_db.
    erewrite bind_ret.
    2:{ eapply load_cstr_live; [subst w1; wsimpl; apply lookup_last|].
        apply line_buffer_cstr. }
    cbv beta. unfold argument in Harg. rewrite Harg. reflexivity. }
  erewrite bind_ret.
  2:{ rewrite (bind_ret _ _ _ _ _ Hadm). exact Hins. }
  erewrite free_live by (subst w1; wsimpl; apply lookup_last).
  eexists. split; [reflexivity|]. subst w1. wsimpl.
  rewrite insert_last, length_app. cbn [length]. rewrite Nat.add_1_r. auto 10.
Qed.

Lemma insert_without_name_is_reported_witness :
  exists w',
    handle_choice (admin_world one_record (bytes_of "4" ++ [LF])) = Ret tt w' /\
    stdout w' = [Puts "Invalid entry."] /\
    db_file w' = one_record /\ db_pos w' = 0%nat /\ wr w' = [] /\
    uid w' = ADMIN_UID /\ stdin w' = [] /\
    length (heap w') = 1%nat /\ frees w' = [0%nat].
Proof.
  assert (Hl : is_line (bytes_of "4" ++ [LF])).
  { exists (bytes_of "4"). split; [reflexivity|]. split.
    - apply (bool_decide_unpack _). vm_compute. exact I.
    - vm_compute. lia. }
  exact (insert_without_name_is_reported
           (admin_world one_record (bytes_of "4" ++ [LF]))
           (bytes_of "4" ++ [LF]) [] eq_refl eq_refl Hl eq_refl eq_refl).
Defined.

(** ** What a query selects *)

Lemma take_while_stops {A} (p : A -> bool) l :
  (length (take_while p l) < length l)%nat ->
  exists x r, l = take_while p l ++ x :: r /\ p x = false.
Proof.
  induction l as [|a l IH]; simpl; [lia|].
  destruct (p a) eqn:E; simpl; intros H.
  - destruct IH as (x & r & Hl & Hx); [lia|].
    exists x, r. split; [f_equal; exact Hl | exact Hx].
  - exists a, l. split; [reflexivity | exact E].
Qed.

(** A 16-byte record whose name text is shorter than the name field has
    its terminator inside the field. *)
Lemma name_text_cstr r q :
  length r = sizeof_DBEntry -> name_text r = q -> (length q < SIZE - 1)%nat ->
  cstr (drop 1 r) = Some q.
Proof.
  intros Hr Hq Hl. unfold name_text, cstrn in Hq.
  assert (Hd : length (drop 1 r) = 15%nat)
    by (rewrite length_drop, Hr; reflexivity).
  rewrite take_ge in Hq by (unfold SIZE; lia).
  destruct (take_while_stops not_nul (drop 1 r)) as (x & t & Hsplit & Hx).
  { rewrite Hq, Hd. unfold SIZE in Hl. lia. }
  rewrite Hq in Hsplit. rewrite Hsplit.
  unfold not_nul in Hx. apply negb_false_iff, bool_decide_eq_true_1 in Hx. subst x.
  apply cstr_app. rewrite <- Hq. apply take_while_Forall.
Qed.

Lemma map_filter_ext {A B} (p p' : A -> bool) (f g : A -> B) l :
  (forall x, x ∈ l -> p x = p' x) ->
  (forall x, x ∈ l -> p' x = true -> f x = g x) ->
  map f (List.filter p l) = map g (List.filter p' l) /\
  length (List.filter p l) = length (List.filter p' l).
Proof.
  induction l as [|a l IH]; intros Hp Hf; [split; reflexivity|].
  destruct IH as [IH1 IH2].
  { intros x Hx. apply Hp. right. exact Hx. }
  { intros x Hx. apply Hf. right. exact Hx. }
  cbn [List.filter]. rewrite (Hp a) by left.
  destruct (p' a) eqn:E; [|split; assumption].
  cbn [map length]. rewrite IH1, IH2, (Hf a) by (left || assumption).
  split; reflexivity.
Qed.

(** X10.  A query for a name other than [*], over any file of 16-byte records
    (fewer than [2^31] of them), returns and prints the table head, one
    row for each record whose name text is exactly the query, in file
    order and under the record's own id, and the summary with their
    number; the file and the role are as before and only the record
    buffer is released. *)
Theorem select_from_db_lists_exact_matches
    (w : World) (line : block) (bs s q : list byte) (recs : list (list byte)) :
  heap w !! line = Some (Cell true bs) -> length bs = SIZE ->
  cstr bs = Some s -> sscanf_skip_s s = Some q -> q <> bytes_of "*" ->
  db_file w = concat recs ->
  Forall (fun r => length r = sizeof_DBEntry) recs ->
  Z.of_nat (length recs) < 2 ^ 31 ->
  exists w',
    select_from_db line w = Ret tt w' /\
    stdout w' = stdout w ++ table_head ++
      map (fun r => Row (hd NUL r) q)
          (List.filter (fun r => bool_decide (name_text r = q)) recs) ++
      [found_line (Z.of_nat (length
         (List.filter (fun r => bool_decide (name_text r = q)) recs)))] /\
    db_file w' = db_file w /\ uid w' = uid w /\
    frees w' = frees w ++ [length (heap w)] /\
    heap w' !! line = Some (Cell true bs).
Proof.
  intros Hline Hbs Hs Hq Hstar Hf Hall Hn.
  destruct (sscanf_skip_s_Some _ _ Hq) as (_ & _ & Hlen).
  pose proof (cstr_length _ _ Hs) as Hslen.
  destruct (cstr_Some _ _ Hs) as (Hnul & _).
  pose proof (sscanf_skip_s_sub _ _ _ Hnul Hq) as Hnn.
  assert (Hshort : (length q < SIZE - 1)%nat) by (unfold SIZE in *; lia).
  destruct (select_from_db_rows w line bs s q recs Hline Hs Hq Hf)
    as (w' & Hrun & Ho & Hh & Hd & Hu & _ & _ & _ & Hfr).
  { eapply Forall_impl; [exact Hall|]. intros r Hr. split; [exact Hr|].
    rewrite selected_exact by assumption. intros Hsel.
    apply bool_decide_eq_true_1 in Hsel.
    rewrite (name_text_cstr r q Hr Hsel Hshort). eauto. }
  { exact Hn. }
  exists w'. split; [exact Hrun|]. rewrite Ho.
  destruct (map_filter_ext (selected (streq q (bytes_of "*")) q)
              (fun r => bool_decide (name_text r = q))
              row_event (fun r => Row (hd NUL r) q) recs) as [Hm Hl].
  { intros r _. apply selected_exact; assumption. }
  { intros r Hr Hsel. apply bool_decide_eq_true_1 in Hsel.
    unfold row_event. rewrite (name_text_cstr r q) ; try assumption.
    - reflexivity.
    - rewrite Forall_forall in Hall. apply Hall, Hr. }
  rewrite Hm, Hl. auto 10.
Qed.

Lemma select_from_db_lists_exact_matches_witness :
  exists w',
    select_from_db 0%nat
      (world_of (read_choice (user_world (concat two_records)
                                         (bytes_of "3 beta" ++ [LF])))) = Ret tt w' /\
    stdout w' = table_head ++ [Row "001"%byte (bytes_of "beta")] ++
                [Found 1 "y"] /\
    db_file w' = concat two_records /\ uid w' = USER_UID /\
    frees w' = [1%nat] /\
    heap w' !! 0%nat = Some (Cell true (bytes_of "3 beta" ++ [LF] ++ repeat NUL 9)).
Proof.
  pose (bs := bytes_of "3 beta" ++ [LF] ++ repeat NUL 9).
  pose (w := world_of (read_choice (user_world (concat two_records)
                                               (bytes_of "3 beta" ++ [LF])))).
  assert (H1 : heap w !! 0%nat = Some (Cell true bs)) by (vm_compute; reflexivity).
  assert (H2 : length bs = SIZE) by reflexivity.
  assert (H3 : cstr bs = Some (bytes_of "3 beta" ++ [LF])) by (vm_compute; reflexivity).
  assert (H4 : sscanf_skip_s (bytes_of "3 beta" ++ [LF]) = Some (bytes_of "beta"))
    by (vm_compute; reflexivity).
  assert (H5 : bytes_of "beta" <> bytes_of "*") by discriminate.
  assert (H6 : db_file w = concat two_records) by reflexivity.
  assert (H7 : Forall (fun r => length r = sizeof_DBEntry) two_records)
    by (repeat constructor).
  assert (H8 : Z.of_nat (length two_records) < 2 ^ 31) by (vm_compute; reflexivity).
  exact (select_from_db_lists_exact_matches w 0%nat bs _ _ two_records
           H1 H2 H3 H4 H5 H6 H7 H8).
Defined.

(** ** Wipe, then insert *)

Lemma drop_db_confirmed w l rest :
  stdin w = l ++ rest -> yes_line l ->
  exists w',
    drop_db w = Ret tt w' /\
    db_file w' = [] /\ db_pos w' = db_pos w /\ stdin w' = rest /\
    uid w' = uid w /\ wr w' = wr w /\ heap w' = heap w /\ frees w' = frees w /\
    added (stdout w') = added (stdout w).
Proof.
  intros Hin [Hl Hy]. unfold drop_db.
  erewrite bind_ret by reflexivity. cbv beta.
  erewrite bind_ret by reflexivity. cbv beta.
  unfold bind at 1. unfold fgets_local, printf, print. wsimpl.
  rewrite Hin, (fgets_chars_is_line l rest Hl).
  pose proof (is_line_length l Hl) as Hlen.
  destruct l as [|c l]; [simpl in Hlen; lia|].
  rewrite overlay_head by discriminate. cbn [app hd] in *.
  destruct (decide (c = "y"%byte)) as [_|Hc]; [|contradiction].
  eexists. split; [reflexivity|]. wsimpl.
  rewrite !added_app. cbn [added omap]. rewrite !app_nil_r. auto 10.
Qed.

Lemma handle_choice_wipe w l ly rest :
  uid w = ADMIN_UID -> stdin w = l ++ ly ++ rest ->
  wipe_line l -> yes_line ly ->
  exists w',
    handle_choice w = Ret tt w' /\
    db_file w' = [] /\ stdin w' = rest /\ uid w' = uid w /\ wr w' = wr w /\
    added (stdout w') = added (stdout w).
Proof.
  intros Hu Hin [Hl Hsel] Hy.
  unfold handle_choice.
  rewrite (bind_ret _ _ _ _ _ (read_choice_line _ _ _ Hin Hl)). cbv beta iota.
  rewrite Hsel. unfold dispatch. cbn [Z.eqb Pos.eqb].
  set (w1 := set_heap _ _).
  assert (Hadm : IS_ADMIN w1 = Ret true w1).
  { unfold IS_ADMIN, get_uid, bind, ret. subst w1. wsimpl. rewrite Hu. reflexivity. }
  destruct (drop_db_confirmed w1 ly rest)
    as (w2 & Hrun & Hf2 & _ & Hi2 & Hu2 & Hw2 & Hh2 & _ & Ho2);
    [subst w1; reflexivity | exact Hy |].
  erewrite bind_ret.
  2:{ rewrite (bind_ret _ _ _ _ _ Hadm). exact Hrun. }
  erewrite free_live.
  2:{ rewrite Hh2. subst w1. wsimpl. apply lookup_last. }
  eexists. split; [reflexivity|]. wsimpl.
  subst w1. wsimpl in Hu2. wsimpl in Hw2. wsimpl in Ho2. auto 10.
Qed.

(** X12.  A confirmed wipe followed by an insert, with a [write] that persists
    the record: whatever the file held and wherever its offset stood,
    the file then holds exactly the new record, and the id reported for
    it is 0. *)
Theorem wipe_then_insert_restarts_at_id_0
    (w : World) (l5 ly l4 rest name : list byte) :
  uid w = ADMIN_UID -> stdin w = l5 ++ ly ++ l4 ++ rest ->
  wipe_line l5 -> yes_line ly ->
  is_line l4 -> selector l4 = 4 -> argument l4 = Some name ->
  writes_fully (wr w) = true ->
  exists w',
    main_loop 2 w = Ret tt w' /\
    db_file w' = record_of 0 name /\
    added (stdout w') = added (stdout w) ++ [(to_uchar 0, name)] /\
    stdin w' = rest /\ uid w' = ADMIN_UID.
Proof.
  intros Hu Hin H5 Hy Hl4 Hsel Harg Hwr. cbn [main_loop].
  rewrite (bind_ret _ _ _ _ _ (print_info_run w)). cbv beta.
  match goal with |- context [bind handle_choice _ ?W] =>
    destruct (handle_choice_wipe W l5 ly (l4 ++ rest))
      as (w1 & Hrun1 & Hf1 & Hi1 & Hu1 & Hw1 & Ho1)
  end; try assumption.
  rewrite (bind_ret _ _ _ _ _ Hrun1). cbv beta.
  wsimpl in Hu1. wsimpl in Hw1. wsimpl in Ho1.
  rewrite added_app, added_menu, app_nil_r in Ho1.
  rewrite (bind_ret _ _ _ _ _ (print_info_run w1)). cbv beta.
  match goal with |- context [bind handle_choice _ ?W] =>
    destruct (handle_choice_insert W l4 rest name)
      as (w2 & Hrun2 & Hu2 & Hf2 & _ & Hi2 & Ho2 & _)
  end; wsimpl; try assumption; try congruence.
  rewrite (bind_ret _ _ _ _ _ Hrun2). unfold ret.
  wsimpl in Hu2. wsimpl in Hf2. wsimpl in Ho2.
  rewrite Hf1 in Hf2, Ho2. cbn [length app] in Hf2, Ho2.
  exists w2. split; [reflexivity|].
  rewrite Hf2, Ho2, Hi2, Hu2, Hu1, Hu.
  rewrite !added_app, added_menu, Ho1. cbn [added omap].
  rewrite app_nil_r. auto.
Qed.

Lemma wipe_then_insert_restarts_at_id_0_witness :
  exists w',
    main_loop 2 (admin_world (concat two_records) wipe_then_insert) = Ret tt w' /\
    db_file w' = record_of 0 (bytes_of "gamma") /\
    added (stdout w') = [(to_uchar 0, bytes_of "gamma")] /\
    stdin w' = [] /\ uid w' = ADMIN_UID.
Proof.
  assert (H5 : wipe_line (bytes_of "5" ++ [LF])).
  { split; [|reflexivity]. exists (bytes_of "5"). split; [reflexivity|]. split.
    - apply (bool_decide_unpack _). vm_compute. exact I.
    - vm_compute. lia. }
  assert (Hy : yes_line (bytes_of "y" ++ [LF])).
  { split; [|reflexivity]. exists (bytes_of "y"). split; [reflexivity|]. split.
    - apply (bool_decide_unpack _). vm_compute. exact I.
    - vm_compute. lia. }
  assert (H4 : is_line (bytes_of "4 gamma" ++ [LF])).
  { exists (bytes_of "4 gamma"). split; [reflexivity|]. split.
    - apply (bool_decide_unpack _). vm_compute. exact I.
    - vm_compute. lia. }
  exact (wipe_then_insert_restarts_at_id_0
           (admin_world (concat two_records) wipe_then_insert)
           _ _ _ [] (bytes_of "gamma") eq_refl eq_refl H5 Hy H4 eq_refl eq_refl eq_refl).
Defined.

(** ** End of input *)

Lemma handle_choice_at_eof w :
  stdin w = [] -> junk w (length (heap w)) 0%nat = NUL ->
  exists w',
    handle_choice w = Ret tt w' /\
    stdin w' = [] /\ junk w' = junk w /\ stdout w' = stdout w /\
    db_file w' = db_file w /\ uid w' = uid w /\
    frees w' = frees w ++ [length (heap w)].
Proof.
  intros Hin Hj.
  assert (Hr : read_choice w =
               Ret (length (heap w), 0)
                   (set_heap (heap w ++ [Cell true (map (junk w (length (heap w)))
                                                        (seq 0 SIZE))]) w)).
  { unfold read_choice.
    erewrite bind_ret by reflexivity. cbv beta.
    erewrite bind_ret by (unfold fgets; wsimpl; rewrite Hin; reflexivity).
    cbv beta.
    erewrite bind_ret.
    2:{ eapply load_cstr_live; [wsimpl; apply lookup_last|].
        change (seq 0 SIZE) with (0%nat :: seq 1 15). cbn [map drop skipn].
        rewrite Hj. reflexivity. }
    reflexivity. }
  unfold handle_choice. rewrite (bind_ret _ _ _ _ _ Hr). cbv beta iota.
  erewrite bind_ret by reflexivity.
  erewrite free_live by (wsimpl; apply lookup_last).
  eexists. split; [reflexivity|]. wsimpl. auto 10.
Qed.

(** X13.  At end of input the program does not stop: when fresh memory starts
    with a NUL, every iteration reads nothing, parses selector 0 and
    does nothing, so that for every [n] the first [n] iterations return,
    having printed the welcome line and [n] menus and changed neither
    the record file nor the role. *)
Theorem main_spins_at_end_of_input (w : World) (n : nat) :
  stdin w = [] -> (forall b, junk w b 0%nat = NUL) -> db_openable w = true ->
  exists w',
    main n w = Ret tt w' /\
    stdout w' = stdout w ++ [Puts "Welcome to database manager!"] ++
                concat (replicate n (menu (uid w =? ADMIN_UID))) /\
    db_file w' = db_file w /\ uid w' = uid w /\
    length (frees w') = (length (frees w) + n)%nat.
Proof.
  intros Hin Hj Ho. unfold main. rewrite Ho.
  erewrite bind_ret by reflexivity.
  set (w0 := set_stdout _ w).
  assert (Hloop : forall k v, stdin v = [] -> junk v = junk w ->
            exists v', main_loop k v = Ret tt v' /\
              stdout v' = stdout v ++ concat (replicate k (menu (uid v =? ADMIN_UID))) /\
              db_file v' = db_file v /\ uid v' = uid v /\
              length (frees v') = (length (frees v) + k)%nat).
  { induction k as [|k IH]; intros v Hv Hjv.
    - exists v. cbn [main_loop replicate concat]. rewrite app_nil_r, Nat.add_0_r. auto.
    - cbn [main_loop].
      rewrite (bind_ret _ _ _ _ _ (print_info_run v)). cbv beta.
      match goal with |- context [bind handle_choice _ ?W] =>
        destruct (handle_choice_at_eof W) as (v1 & Hrun & Hi1 & Hj1 & Ho1 & Hf1 & Hu1 & Hfr1)
      end; [exact Hv | wsimpl; rewrite Hjv; apply Hj |].
      rewrite (bind_ret _ _ _ _ _ Hrun). cbv beta.
      wsimpl in Hj1. wsimpl in Ho1. wsimpl in Hf1. wsimpl in Hu1. wsimpl in Hfr1.
      destruct (IH v1 Hi1) as (v' & Hrun' & Ho' & Hf' & Hu' & Hfr'); [congruence|].
      exists v'. split; [exact Hrun'|].
      rewrite Ho', Ho1, Hf', Hf1, Hu', Hu1, Hfr', Hfr1, length_app.
      cbn [replicate concat length]. rewrite <- !app_assoc.
      repeat split; lia || reflexivity. }
  destruct (Hloop n w0) as (w' & Hrun & Ho' & Hf' & Hu' & Hfr');
    [exact Hin | reflexivity |].
  exists w'. split; [exact Hrun|]. subst w0. wsimpl in Ho'. wsimpl in Hf'.
  wsimpl in Hu'. wsimpl in Hfr'.
  rewrite Ho', <- app_assoc. auto.
Qed.

Lemma main_spins_at_end_of_input_witness :
  exists w',
    main 3 (eof_world one_record) = Ret tt w' /\
    stdout w' = [Puts "Welcome to database manager!"] ++
                concat (replicate 3 (menu false)) /\
    db_file w' = one_record /\ uid w' = USER_UID /\
    length (frees w') = 3%nat.
Proof.
  exact (main_spins_at_end_of_input (eof_world one_record) 3 eq_refl
           (fun _ => eq_refl) eq_refl).
Defined.

(** ** Lines longer than the buffer *)

Lemma fgets_chars_full n chunk tail :
  length chunk = n -> LF ∉ chunk -> fgets_chars n (chunk ++ tail) = (chunk, tail).
Proof.
  revert n. induction chunk as [|c chunk IH]; intros n Hlen Hnl; simpl in *.
  - subst n. reflexivity.
  - destruct n as [|n]; [discriminate|]. simpl.
    apply not_elem_of_cons in Hnl as [Hc Hnl].
    destruct (decide (c = LF)); [congruence|].
    rewrite (IH n) by (assumption || lia). reflexivity.
Qed.

(** X6.  The read of an iteration takes at most [SIZE - 1] characters: of a
    line that has [SIZE - 1] characters before its newline it takes
    these, which fill the buffer up to its terminator, and what follows
    on the same line stays in the stream, where the next read of the
    program finds it. *)
Theorem read_choice_splits_a_long_line (w : World) (chunk tail : list byte) :
  stdin w = chunk ++ tail -> length chunk = (SIZE - 1)%nat -> LF ∉ chunk ->
  exists w1,
    read_choice w = Ret (length (heap w), selector chunk) w1 /\
    stdin w1 = tail /\
    heap w1 = heap w ++ [Cell true (chunk ++ [NUL])].
Proof.
  intros Hin Hlen Hnl.
  rewrite (read_choice_chars w chunk tail).
  - eexists. split; [reflexivity|]. wsimpl. split; [reflexivity|].
    f_equal. f_equal. f_equal. unfold line_buffer, overlay.
    rewrite take_0, drop_ge, app_nil_r; [reflexivity|].
    rewrite length_map, length_seq, length_app, Hlen. unfold SIZE. simpl. lia.
  - rewrite Hin. apply fgets_chars_full; assumption.
  - destruct chunk; [discriminate Hlen|discriminate].
Qed.

Lemma read_choice_splits_a_long_line_witness :
  exists w1,
    read_choice (user_world [] (bytes_of "3 abcdefghijklm1" ++ [LF]))
      = Ret (0%nat, 3) w1 /\
    stdin w1 = bytes_of "1" ++ [LF] /\
    heap w1 = [Cell true (bytes_of "3 abcdefghijklm" ++ [NUL])].
Proof.
  assert (Hnl : LF ∉ bytes_of "3 abcdefghijklm")
    by (apply (bool_decide_unpack _); vm_compute; exact I).
  exact (read_choice_splits_a_long_line
           (user_world [] (bytes_of "3 abcdefghijklm1" ++ [LF]))
           (bytes_of "3 abcdefghijklm") (bytes_of "1" ++ [LF])
           eq_refl eq_refl Hnl).
Defined.

(** ** The secret file as [change_user] reads it *)

Lemma take_while_app_elem {A} (p : A -> bool) x l r :
  x ∈ take_while p l -> x ∈ take_while p (l ++ r).
Proof.
  induction l as [|a l IH]; simpl; [intros H; inversion H|].
  destruct (p a); [|intros H; inversion H].
  intros H. apply elem_of_cons in H as [->|H]; [left|right; auto].
Qed.

Lemma take_while_app_all {A} (p : A -> bool) l r :
  Forall (fun a => p a = true) l -> take_while p (l ++ r) = l ++ take_while p r.
Proof.
  induction 1 as [|a l Ha Hl IH]; simpl; [reflexivity|].
  rewrite Ha, IH. reflexivity.
Qed.

Lemma password_bytes_split w secret :
  take SIZE (password_bytes w secret) =
  take SIZE secret ++
  take (SIZE - length (take SIZE secret))
       (drop (length (take SIZE secret)) (fresh w (S (length (heap w))))).
Proof.
  unfold password_bytes, overlay. rewrite take_0, app_nil_l, Nat.add_0_l.
  apply take_app_ge. rewrite length_take. lia.
Qed.

(** X15.  The typed secret never holds a CR or an LF, the reference secret is
    taken from the file as it is: when a CR or an LF stands in the
    file's first [SIZE] bytes before any NUL (a secret saved with its
    line end), no answer to the prompt is accepted and the role stays
    as it was. *)
Theorem secret_file_line_end_blocks_login
    (w : World) (line : block) (bs s secret : list byte) (c : byte) :
  heap w !! line = Some (Cell true bs) -> length bs = SIZE -> cstr bs = Some s ->
  sscanf_skip_s s = Some (bytes_of "admin") ->
  pw_file w = Some secret ->
  c ∈ cstrn SIZE secret -> not_crlf c = false ->
  exists w', change_user line w = Ret tt w' /\ uid w' = uid w.
Proof.
  intros Hline Hsize Hs Htok Hp Hc Hcr.
  destruct (change_user_admin w line bs s _ Hline Hsize Hs Htok _ eq_refl Hp)
    as (w' & Hrun & Hu & _).
  exists w'. split; [exact Hrun|].
  destruct (decide (typed_secret bs (stdin w) = reference_secret w secret))
    as [E|_]; [|exact Hu].
  exfalso.
  assert (Href : c ∈ reference_secret w secret).
  { unfold reference_secret, cstrn. rewrite password_bytes_split.
    apply take_while_app_elem. exact Hc. }
  rewrite <- E in Href. unfold typed_secret, stripped in Href.
  pose proof (take_while_Forall not_crlf
    (default [] (cstr (after_fgets bs (fst (fgets_chars (SIZE - 1) (stdin w)))))))
    as Hall.
  rewrite Forall_forall in Hall. specialize (Hall _ Href). congruence.
Qed.

Lemma secret_file_line_end_blocks_login_witness :
  exists w',
    change_user 0%nat
      (world_of (read_choice
         (mkWorld USER_UID [] 0 true (Some (bytes_of "secret" ++ [LF])) []
                  (bytes_of "2 admin" ++ [LF] ++ bytes_of "secret" ++ [LF])
                  [] [] [] (fun _ _ => NUL) (fun _ => NUL)))) = Ret tt w' /\
    uid w' = USER_UID.
Proof.
  pose (w := world_of (read_choice
         (mkWorld USER_UID [] 0 true (Some (bytes_of "secret" ++ [LF])) []
                  (bytes_of "2 admin" ++ [LF] ++ bytes_of "secret" ++ [LF])
                  [] [] [] (fun _ _ => NUL) (fun _ => NUL)))).
  pose (bs := bytes_of "2 admin" ++ [LF] ++ repeat NUL 8).
  assert (H1 : heap w !! 0%nat = Some (Cell true bs)) by (vm_compute; reflexivity).
  assert (H2 : length bs = SIZE) by reflexivity.
  assert (H3 : cstr bs = Some (bytes_of "2 admin" ++ [LF])) by (vm_compute; reflexivity).
  assert (H4 : sscanf_skip_s (bytes_of "2 admin" ++ [LF]) = Some (bytes_of "admin"))
    by (vm_compute; reflexivity).
  assert (H5 : pw_file w = Some (bytes_of "secret" ++ [LF])) by reflexivity.
  assert (H6 : LF ∈ cstrn SIZE (bytes_of "secret" ++ [LF]))
    by (apply (bool_decide_unpack _); vm_compute; exact I).
  exact (secret_file_line_end_blocks_login w 0%nat bs _ _ LF H1 H2 H3 H4 H5 H6 eq_refl).
Defined.

Lemma drop_fresh w b k :
  (k < SIZE)%nat ->
  drop k (fresh w b) = junk w b k :: drop (S k) (fresh w b).
Proof.
  intros Hk. unfold fresh.
  assert (Hl : map (junk w b) (seq 0 SIZE) !! k = Some (junk w b k)).
  { rewrite list_lookup_fmap, lookup_seq_lt by exact Hk. reflexivity. }
  apply drop_S in Hl. exact Hl.
Qed.

(** X16.  A secret file that holds the secret and nothing after it (fewer than
    [SIZE] bytes, no NUL) leaves the rest of the [password] array as
    [malloc] delivered it: the secret itself, typed at the prompt, is
    accepted exactly when the byte of that array just after the secret
    happens to be NUL. *)
Theorem unterminated_secret_depends_on_fresh_memory
    (w : World) (line : block) (bs s ref rest : list byte) :
  heap w !! line = Some (Cell true bs) -> length bs = SIZE -> cstr bs = Some s ->
  sscanf_skip_s s = Some (bytes_of "admin") ->
  pw_file w = Some ref ->
  Forall (fun b => not_nul b = true) ref ->
  Forall (fun b => not_crlf b = true) ref -> (length ref < SIZE - 1)%nat ->
  stdin w = ref ++ LF :: rest ->
  exists w',
    change_user line w = Ret tt w' /\
    uid w' = (if decide (junk w (S (length (heap w))) (length ref) = NUL)
              then ADMIN_UID else uid w).
Proof.
  intros Hline Hsize Hs Htok Hp Hn Hc Hl Hin.
  destruct (change_user_admin w line bs s _ Hline Hsize Hs Htok _ eq_refl Hp)
    as (w' & Hrun & Hu & _).
  exists w'. split; [exact Hrun|].
  rewrite Hin, typed_secret_line in Hu by assumption.
  assert (Href : reference_secret w ref =
                 ref ++ take_while not_nul
                   (take (SIZE - length ref)
                      (drop (length ref) (fresh w (S (length (heap w))))))).
  { unfold reference_secret, cstrn. rewrite password_bytes_split.
    rewrite (take_ge ref) by (unfold SIZE in *; lia).
    apply take_while_app_all, Hn. }
  set (tail := take_while not_nul _) in Href. rewrite Href in Hu.
  assert (Ht : tail = [] <-> junk w (S (length (heap w))) (length ref) = NUL).
  { subst tail. rewrite drop_fresh by (unfold SIZE in *; lia).
    destruct (SIZE - length ref)%nat as [|k] eqn:Ek; [unfold SIZE in *; lia|].
    cbn [take firstn take_while]. unfold not_nul at 1.
    destruct (decide (junk w (S (length (heap w))) (length ref) = NUL)) as [E|E].
    - rewrite bool_decide_eq_true_2 by exact E. tauto.
    - rewrite bool_decide_eq_false_2 by exact E. cbn [negb].
      split; [discriminate|contradiction]. }
  destruct (decide (junk w (S (length (heap w))) (length ref) = NUL)) as [E|E].
  - apply Ht in E. rewrite E, app_nil_r in Hu.
    destruct (decide (ref = ref)); [exact Hu|congruence].
  - destruct (decide (ref = ref ++ tail)) as [E2|_]; [|exact Hu].
    exfalso. apply E, Ht.
    rewrite <- (app_nil_r ref) in E2 at 1. apply app_inv_head in E2. auto.
Qed.

Lemma unterminated_secret_depends_on_fresh_memory_witness :
  exists w',
    change_user 0%nat
      (world_of (read_choice
         (mkWorld USER_UID [] 0 true (Some (bytes_of "secret")) []
                  (bytes_of "2 admin" ++ [LF] ++ bytes_of "secret" ++ [LF])
                  [] [] [] (fun _ _ => "x"%byte) (fun _ => NUL)))) = Ret tt w' /\
    uid w' = USER_UID.
Proof.
  pose (w := world_of (read_choice
         (mkWorld USER_UID [] 0 true (Some (bytes_of "secret")) []
                  (bytes_of "2 admin" ++ [LF] ++ bytes_of "secret" ++ [LF])
                  [] [] [] (fun _ _ => "x"%byte) (fun _ => NUL)))).
  pose (bs := bytes_of "2 admin" ++ [LF; NUL] ++ repeat "x"%byte 7).
  assert (H1 : heap w !! 0%nat = Some (Cell true bs)) by (vm_compute; reflexivity).
  assert (H2 : length bs = SIZE) by reflexivity.
  assert (H3 : cstr bs = Some (bytes_of "2 admin" ++ [LF])) by (vm_compute; reflexivity).
  assert (H4 : sscanf_skip_s (bytes_of "2 admin" ++ [LF]) = Some (bytes_of "admin"))
    by (vm_compute; reflexivity).
  assert (H5 : pw_file w = Some (bytes_of "secret")) by reflexivity.
  assert (H6 : Forall (fun b => not_nul b = true) (bytes_of "secret"))
    by (repeat constructor).
  assert (H7 : Forall (fun b => not_crlf b = true) (bytes_of "secret"))
    by (repeat constructor).
  assert (H8 : (length (bytes_of "secret") < SIZE - 1)%nat) by (vm_compute; lia).
  assert (H9 : stdin w = bytes_of "secret" ++ LF :: []) by reflexivity.
  exact (unterminated_secret_depends_on_fresh_memory w 0%nat bs _ _ []
           H1 H2 H3 H4 H5 H6 H7 H8 H9).
Defined.

(** ** What an iteration leaves on the heap *)

Lemma live_insert (l : list cell) i c c' :
  l !! i = Some c ->
  length (List.filter c_live (<[i := c']> l)) =
  (length (List.filter c_live l) + (if c_live c' then 1 else 0)
   - (if c_live c then 1 else 0))%nat /\
  ((if c_live c then 1 else 0) <= length (List.filter c_live l))%nat.
Proof.
  revert i. induction l as [|a l IH]; intros i Hi; [discriminate|].
  destruct i as [|i]; cbn [lookup list_lookup] in Hi.
  - injection Hi as ->. cbn [insert list_insert List.filter].
    destruct (c_live c), (c_live c'); cbn [length]; lia.
  - destruct (IH i Hi) as [IH1 IH2].
    change (<[S i := c']> (a :: l)) with (a :: <[i := c']> l).
    cbn [List.filter].
    destruct (c_live a); cbn [length]; rewrite IH1;
      destruct (c_live c), (c_live c'); lia.
Qed.

Section Owned.
Variable h0 : list cell.

Lemma owned_update w k b c c' :
  owned h0 k w -> (length h0 <= b)%nat -> heap w !! b = Some c ->
  owned h0 (k + (if c_live c' then 1 else 0) - (if c_live c then 1 else 0))
        (set_heap (<[b := c']> (heap w)) w) /\
  ((if c_live c then 1 else 0) <= k)%nat.
Proof.
  intros (new & Hh & Hk) Hb Hl. rewrite Hh in Hl.
  rewrite lookup_app_r in Hl by exact Hb.
  destruct (live_insert new (b - length h0) c c' Hl) as [H1 H2].
  split; [|lia]. exists (<[(b - length h0)%nat := c']> new). wsimpl. split.
  - rewrite Hh. apply insert_app_r_alt. exact Hb.
  - rewrite H1, Hk. reflexivity.
Qed.

Lemma owned_print k o : returns (owned h0 k) (print o) (fun _ => owned h0 k).
Proof. intros w H [] w' [= <-]. exact H. Qed.

Lemma owned_load k b : returns (owned h0 k) (load b) (fun _ => owned h0 k).
Proof.
  intros w H bs w'. unfold load.
  destruct (heap w !! b) as [[[] ?]|]; intros [= <- <-] || discriminate. exact H.
Qed.

Lemma owned_load_cstr k b off :
  returns (owned h0 k) (load_cstr b off) (fun _ => owned h0 k).
Proof. intros w H s w' Hr. apply load_cstr_Ret in Hr as [-> _]. exact H. Qed.

Lemma owned_store k b off d :
  (length h0 <= b)%nat -> returns (owned h0 k) (store b off d) (fun _ => owned h0 k).
Proof.
  intros Hb w H [] w' Hr.
  apply store_Ret in Hr as (bs0 & Hl & _ & ->).
  destruct (owned_update w k b _ (Cell true (overlay bs0 off d)) H Hb Hl) as [Ho Hk].
  cbn [c_live] in Ho, Hk. replace (k + 1 - 1)%nat with k in Ho by lia. exact Ho.
Qed.

Lemma owned_fgets k b :
  (length h0 <= b)%nat -> returns (owned h0 k) (fgets b) (fun _ => owned h0 k).
Proof.
  intros Hb w H [] w'. unfold fgets.
  destruct (fgets_chars _ _) as [[|x chars] rest].
  - intros [= <-]. exact H.
  - apply owned_store; assumption.
Qed.

Lemma owned_malloc k n :
  returns (owned h0 k) (malloc n)
          (fun b w => owned h0 (S k) w /\ (length h0 <= b)%nat).
Proof.
  intros w (new & Hh & Hk) b w' [= <- <-]. wsimpl. split.
  - eexists. split; [rewrite Hh, <- app_assoc; reflexivity|].
    rewrite List.filter_app, length_app. cbn [List.filter c_live length]. lia.
  - rewrite Hh, length_app. lia.
Qed.

Lemma owned_free k b :
  (length h0 <= b)%nat ->
  returns (owned h0 k) (free b) (fun _ w => owned h0 (pred k) w /\ (0 < k)%nat).
Proof.
  intros Hb w H [] w'. unfold free.
  destruct (heap w !! b) as [[[] bs0]|] eqn:Hl; intros [= <-] || discriminate.
  assert (H1 : owned h0 k (set_frees (frees w ++ [b]) w)) by exact H.
  destruct (owned_update _ k b _ (Cell false bs0) H1 Hb Hl) as [Ho Hk].
  cbn [c_live] in Ho, Hk. split; [|lia].
  replace (k + 0 - 1)%nat with (pred k) in Ho by lia. exact Ho.
Qed.

Lemma owned_write_db k d : returns (owned h0 k) (write_db d) (fun _ => owned h0 k).
Proof.
  intros w H n w'. unfold write_db.
  destruct (wr w) as [|[j|] s]; intros [= <- <-]; exact H.
Qed.

Lemma owned_lseek_end k : returns (owned h0 k) lseek_end (fun _ => owned h0 k).
Proof. intros w H n w' [= <- <-]. exact H. Qed.

Lemma owned_lseek_start k : returns (owned h0 k) lseek_start (fun _ => owned h0 k).
Proof. intros w H [] w' [= <-]. exact H. Qed.

Lemma owned_read_db k n : returns (owned h0 k) (read_db n) (fun _ => owned h0 k).
Proof. intros w H d w' [= <- <-]. exact H. Qed.

Lemma owned_ftruncate0 k : returns (owned h0 k) ftruncate0 (fun _ => owned h0 k).
Proof. intros w H [] w' [= <-]. exact H. Qed.

Lemma owned_fgets_local k buf :
  returns (owned h0 k) (fgets_local buf) (fun _ => owned h0 k).
Proof.
  intros w H b w'. unfold fgets_local.
  destruct (fgets_chars _ _) as [[|x chars] rest]; intros [= <- <-]; exact H.
Qed.

Lemma owned_put_uid k v : returns (owned h0 k) (put_uid v) (fun _ => owned h0 k).
Proof. intros w H [] w' [= <-]. exact H. Qed.

Lemma owned_pure {A} k (f : World -> A) :
  returns (owned h0 k) (fun w => Ret (f w) w) (fun _ => owned h0 k).
Proof. intros w H a w' [= <- <-]. exact H. Qed.

(** The last release of a handler: one block fewer is owned. *)
Lemma owned_release k b :
  (length h0 <= b)%nat ->
  returns (owned h0 (S k)) (free b) (fun _ => owned h0 k).
Proof.
  intros Hb w H a w' Hr. exact (proj1 (owned_free (S k) b Hb w H a w' Hr)).
Qed.

Ltac owned_step :=
  first
    [ eapply returns_bind; [apply owned_print|intros ?]
    | eapply returns_bind; [apply owned_load|intros ?]
    | eapply returns_bind; [apply owned_load_cstr|intros ?]
    | eapply returns_bind; [apply owned_store; assumption|intros ?]
    | eapply returns_bind; [apply owned_fgets; assumption|intros ?]
    | eapply returns_bind; [apply owned_fgets_local|intros ?]
    | eapply returns_bind; [apply owned_write_db|intros ?]
    | eapply returns_bind; [apply owned_lseek_end|intros ?]
    | eapply returns_bind; [apply owned_lseek_start|intros ?]
    | eapply returns_bind; [apply owned_read_db|intros ?]
    | eapply returns_bind; [apply owned_ftruncate0|intros ?]
    | eapply returns_bind; [apply owned_put_uid|intros ?]
    | eapply returns_bind; [apply owned_pure|intros ?]
    | eapply returns_bind; [apply owned_release; assumption|intros ?]
    | apply owned_release; assumption
    | apply owned_print
    | apply returns_if | apply returns_sumbool ].

Variable line : nat.
Hypothesis Hline : (length h0 <= line)%nat.

Lemma owned_insert_into_db k :
  returns (owned h0 k) (insert_into_db line) (fun _ => owned h0 k).
Proof.
  unfold insert_into_db, puts. owned_step.
  destruct (sscanf_skip_s _) as [name|]; [|apply owned_print].
  eapply returns_bind; [apply owned_malloc|intros entry].
  intros w [Hw Hne]. revert w Hw.
  repeat owned_step.
  eapply returns_bind; [|intros ?; apply owned_release, Hne].
  apply returns_if; repeat owned_step.
Qed.

Lemma owned_drop_db k : returns (owned h0 k) drop_db (fun _ => owned h0 k).
Proof. unfold drop_db, puts, printf. repeat owned_step. Qed.

Lemma owned_change_user k :
  returns (owned h0 k) (change_user line) (fun _ => owned h0 k).
Proof.
  unfold change_user, puts, printf.
  eapply returns_bind; [apply owned_malloc|intros username].
  intros w [Hw Hu]. revert w Hw.
  owned_step.
  destruct (sscanf_skip_s _) as [tok|].
  2:{ owned_step. apply owned_release, Hu. }
  repeat owned_step.
  eapply returns_bind; [apply owned_malloc|intros password].
  intros w [Hw Hp]. revert w Hw.
  owned_step.
  match goal with |- returns _ (match ?fd with _ => _ end) _ => destruct fd as [secret|] end.
  2:{ owned_step. apply returns_never. intros ? ? ? H. discriminate. }
  repeat owned_step.
  eapply returns_bind.
  { apply returns_if; [|apply owned_print]. owned_step. apply owned_print. }
  intros ?. repeat owned_step.
Qed.

Lemma owned_scan j n entry match_all query count :
  (length h0 <= entry)%nat ->
  returns (owned h0 j) (scan n entry match_all query count) (fun _ => owned h0 j).
Proof.
  intros He. revert count. induction n as [|n IH]; intros count; cbn [scan].
  - apply returns_ret.
  - repeat owned_step; apply IH.
Qed.

(** [select_from_db] returns owning what it was given, or one block
    fewer: on the path without a query it released a block that was not
    its own. *)
Lemma owned_select_from_db k :
  returns (owned h0 (S k)) (select_from_db line)
          (fun _ w => owned h0 (S k) w \/ owned h0 k w).
Proof.
  unfold select_from_db, puts.
  eapply returns_bind; [apply owned_malloc|intros entry].
  intros w [Hw Hne]. revert w Hw.
  owned_step.
  destruct (sscanf_skip_s _) as [query|].
  - eapply returns_weaken with (P' := owned h0 (S (S k)))
                               (Q' := fun _ => owned h0 (S k)); [|auto|auto].
    repeat owned_step.
    eapply returns_bind; [apply owned_scan, Hne|intros count].
    repeat owned_step.
  - eapply returns_weaken with (P' := owned h0 (S (S k)))
                               (Q' := fun _ => owned h0 k); [|auto|auto].
    repeat owned_step.
Qed.

Lemma owned_dispatch k choice :
  returns (owned h0 (S k)) (dispatch line choice)
          (fun _ w => owned h0 (S k) w \/ owned h0 k w).
Proof.
  unfold dispatch, puts, IS_ADMIN, get_uid.
  apply returns_if.
  { owned_step. apply returns_never. intros ? ? ? H. discriminate. }
  apply returns_if.
  { eapply returns_weaken; [apply (owned_change_user (S k))|auto|auto]. }
  apply returns_if; [apply owned_select_from_db|].
  eapply returns_weaken with (P' := owned h0 (S k))
                             (Q' := fun _ => owned h0 (S k)); [|auto|auto].
  apply returns_if.
  { eapply returns_bind.
    { eapply returns_bind; [apply (owned_pure _ uid)|intros u]. apply returns_ret. }
    intros a. apply returns_if; [apply (owned_insert_into_db (S k))|apply returns_ret]. }
  apply returns_if; [|apply returns_ret].
  eapply returns_bind.
  { eapply returns_bind; [apply (owned_pure _ uid)|intros u]. apply returns_ret. }
  intros a. apply returns_if; [apply (owned_drop_db (S k))|apply returns_ret].
Qed.
End Owned.

Lemma filter_live_none (l : list cell) :
  length (List.filter c_live l) = 0%nat -> Forall (fun c => c_live c = false) l.
Proof.
  induction l as [|a l IH]; cbn [List.filter]; [constructor|].
  destruct (c_live a) eqn:E; cbn [length]; [discriminate|].
  intros H. constructor; auto.
Qed.

(** X2.  An iteration of [handle_choice] that returns leaves the heap as it
    found it, followed by the blocks it allocated, all of them released:
    no handler writes to or releases a block of an earlier iteration,
    and none leaves a block behind. *)
Theorem returning_iteration_leaves_no_block (w w' : World) :
  handle_choice w = Ret tt w' ->
  exists new, heap w' = heap w ++ new /\
              Forall (fun c => c_live c = false) new.
Proof.
  unfold handle_choice. intros H.
  apply bind_Ret_inv in H as ([line sel] & w1 & Hr & H).
  destruct (read_choice_Ret _ _ _ _ Hr) as (-> & bs & s & Hh & _).
  apply bind_Ret_inv in H as ([] & w2 & Hd & H).
  assert (H1 : owned (heap w) 1 w1).
  { exists [Cell true bs]. split; [exact Hh|reflexivity]. }
  assert (Hle : (length (heap w) <= length (heap w))%nat) by lia.
  destruct (owned_dispatch (heap w) (length (heap w)) Hle 0 sel w1 H1 tt w2 Hd)
    as [H2|H2].
  - destruct (owned_free (heap w) 1 (length (heap w)) Hle w2 H2 tt w' H)
      as [(new & Hn & Hc) _].
    exists new. split; [exact Hn|]. apply filter_live_none, Hc.
  - destruct (owned_free (heap w) 0 (length (heap w)) Hle w2 H2 tt w' H)
      as [_ Hk]. lia.
Qed.

Lemma returning_iteration_leaves_no_block_witness :
  exists new,
    heap (world_of (handle_choice
            (user_world one_record (bytes_of "2 admin" ++ [LF] ++ bytes_of "x" ++ [LF]))))
    = [] ++ new /\
    Forall (fun c => c_live c = false) new.
Proof.
  pose (w' := world_of (handle_choice
            (user_world one_record (bytes_of "2 admin" ++ [LF] ++ bytes_of "x" ++ [LF])))).
  assert (E : handle_choice
            (user_world one_record (bytes_of "2 admin" ++ [LF] ++ bytes_of "x" ++ [LF]))
            = Ret tt w') by (vm_compute; reflexivity).
  exact (returning_iteration_leaves_no_block _ w' E).
Defined.

(** ** Closed instances of the release and login lemmas *)

Lemma returning_iteration_releases_once_witness :
  exists w2,
    frees (world_of (handle_choice (user_world one_record (bytes_of "3 alpha" ++ [LF]))))
      = frees w2 ++ [0%nat] /\
    count_occ Nat.eq_dec (frees w2) 0%nat = 0%nat /\
    count_occ Nat.eq_dec
      (frees (world_of (handle_choice (user_world one_record (bytes_of "3 alpha" ++ [LF])))))
      0%nat = 1%nat /\
    exists bs,
      heap (world_of (handle_choice (user_world one_record (bytes_of "3 alpha" ++ [LF]))))
        !! 0%nat = Some (Cell false bs).
Proof.
  pose (w' := world_of (handle_choice (user_world one_record (bytes_of "3 alpha" ++ [LF])))).
  assert (E : handle_choice (user_world one_record (bytes_of "3 alpha" ++ [LF]))
              = Ret tt w') by (vm_compute; reflexivity).
  exact (returning_iteration_releases_once _ w' E).
Defined.

Lemma change_user_admin_login_witness :
  exists w',
    change_user 0%nat
      (world_of (read_choice
         (mkWorld USER_UID [] 0 true (Some (bytes_of "secret" ++ [NUL])) []
                  (bytes_of "2 admin" ++ [LF] ++ bytes_of "secret" ++ [LF])
                  [] [] [] (fun _ _ => NUL) (fun _ => NUL)))) = Ret tt w' /\
    uid w' = ADMIN_UID /\ stdin w' = [].
Proof.
  pose (w := world_of (read_choice
         (mkWorld USER_UID [] 0 true (Some (bytes_of "secret" ++ [NUL])) []
                  (bytes_of "2 admin" ++ [LF] ++ bytes_of "secret" ++ [LF])
                  [] [] [] (fun _ _ => NUL) (fun _ => NUL)))).
  pose (bs := bytes_of "2 admin" ++ [LF] ++ repeat NUL 8).
  assert (H1 : heap w !! 0%nat = Some (Cell true bs)) by (vm_compute; reflexivity).
  assert (H2 : length bs = SIZE) by reflexivity.
  assert (H3 : cstr bs = Some (bytes_of "2 admin" ++ [LF])) by (vm_compute; reflexivity).
  assert (H4 : sscanf_skip_s (bytes_of "2 admin" ++ [LF]) = Some (bytes_of "admin"))
    by (vm_compute; reflexivity).
  assert (H5 : pw_file w = Some (bytes_of "secret" ++ NUL :: [])) by reflexivity.
  assert (H6 : Forall (fun b => not_nul b = true) (bytes_of "secret"))
    by (repeat constructor).
  assert (H7 : (length (bytes_of "secret") < SIZE)%nat) by (vm_compute; lia).
  assert (H8 : stdin w = bytes_of "secret" ++ LF :: []) by reflexivity.
  assert (H9 : Forall (fun b => not_crlf b = true) (bytes_of "secret"))
    by (repeat constructor).
  assert (H10 : (length (bytes_of "secret") < SIZE - 1)%nat) by (vm_compute; lia).
  exact (change_user_admin_login w 0%nat bs _ _ [] _ [] H1 H2 H3 H4 H5 H6 H7 H8 H6 H9 H10).
Defined.


(** ** Bounded strings *)

(** X17.  The macro [streq] sees of each operand the bytes before its first
    NUL among the first [SIZE]: two strings are equal for it exactly
    when these texts are the same, whatever follows them. *)
Theorem streq_compares_bounded_texts (a b : list byte) :
  streq a b = true <-> cstrn SIZE a = cstrn SIZE b.
Proof.
  unfold streq. rewrite strncmp_eq_cstrn. apply bool_decide_eq_true.
Qed.


(** X9.  [sscanf] stores its token without a bound, yet every token taken
    from a terminated [SIZE]-byte line buffer has at most [SIZE - 3]
    bytes, none of them a NUL or a blank: with its terminator it fits
    the arrays [name], [query] and [username], and the name field of a
    record holds it whole, followed by at least two NULs. *)
Theorem scanned_token_fits (bs s tok : list byte) :
  length bs = SIZE -> cstr bs = Some s -> sscanf_skip_s s = Some tok ->
  (0 < length tok <= SIZE - 3)%nat /\
  Forall (fun b => not_nul b = true /\ isspace b = false) tok /\
  strncpy (SIZE - 1) tok = tok ++ repeat NUL (SIZE - 1 - length tok) /\
  (2 <= SIZE - 1 - length tok)%nat.
Proof.
  intros Hbs Hs Htok.
  destruct (sscanf_skip_s_Some _ _ Htok) as (Hne & Hsp & Hlen).
  pose proof (cstr_length _ _ Hs) as Hslen.
  destruct (cstr_Some _ _ Hs) as (Hnul & _).
  pose proof (sscanf_skip_s_sub _ _ _ Hnul Htok) as Hnn.
  assert (Hpos : (0 < length tok)%nat) by (destruct tok; [congruence|simpl; lia]).
  split; [unfold SIZE in *; lia|]. split.
  - rewrite Forall_forall in *. intros x Hx. split; auto.
  - split; [apply strncpy_short; unfold SIZE in *; lia|unfold SIZE in *; lia].
Qed.

Lemma scanned_token_fits_witness :
  (0 < length (bytes_of "abcdefghijklm") <= SIZE - 3)%nat /\
  Forall (fun b => not_nul b = true /\ isspace b = false) (bytes_of "abcdefghijklm") /\
  strncpy (SIZE - 1) (bytes_of "abcdefghijklm") =
    bytes_of "abcdefghijklm" ++ repeat NUL (SIZE - 1 - length (bytes_of "abcdefghijklm")) /\
  (2 <= SIZE - 1 - length (bytes_of "abcdefghijklm"))%nat.
Proof.
  exact (scanned_token_fits (bytes_of "4 abcdefghijklm" ++ [NUL])
           (bytes_of "4 abcdefghijklm") (bytes_of "abcdefghijklm")
           eq_refl eq_refl eq_refl).
Defined.

(** ** Records with a name that fills its field *)




